(** * Qwen3-ASR ONNX pipeline (qwen_asr_onnx.c): a shallow embedding

    The definitions follow the C file: machine integers, the constants, the
    helpers ([is_eos], [argmax_f32], [fp16_to_f32]), the fallback
    binary32 -> binary16 conversion of [load_npy_fp16], the embedding store,
    the session manager, [qwen_onnx_transcribe] with its stages, and
    [qwen_onnx_load].  The properties come after the definitions.

    What is modelled is the values the code computes and the calls it makes.
    Addresses and sizes of allocations are not: an array is a list, a read
    outside it gives 0, and the theorems that depend on a read being inside
    say so in their hypotheses.  Times and log lines are left out.

    Floats are carried as their IEEE 754 bit patterns ([Z] in the range of
    the type's width); the C code itself moves between the two views with
    [memcpy].  Comparisons of floats are defined on the bit patterns. *)

From Stdlib Require Import ZArith Lia Bool List Ascii String.
From stdpp Require Import base tactics numbers list.

Local Open Scope Z_scope.

(** ** Machine integers *)

Module MachineInt.

(** Reduction modulo [2^w]: the value of an unsigned [w]-bit result. *)
Definition wrap (w : Z) (x : Z) : Z := x mod 2 ^ w.

Definition u16 (x : Z) : Z := wrap 16 x.
Definition u32 (x : Z) : Z := wrap 32 x.
Definition u64 (x : Z) : Z := wrap 64 x.

(** Conversion to a signed 32-bit [int] (two's complement). *)
Definition int32 (x : Z) : Z :=
  let y := wrap 32 x in if y <? 2 ^ 31 then y else y - 2 ^ 32.

Definition INT_MAX : Z := 2 ^ 31 - 1.

End MachineInt.
Import MachineInt.

(** ** Constants *)

Definition MAX_DEC_LAYERS : Z := 28.
Definition MAX_NEW_TOKENS : Z := 1024.
Definition CHUNK_SIZE : Z := 100.

Definition PROMPT_PREFIX : list Z :=
  [151644; 8948; 198; 151645; 198; 151644; 872; 198; 151669].
Definition N_PREFIX : Z := 9.

Definition PROMPT_SUFFIX : list Z := [151670; 151645; 198; 151644; 77091; 198].
Definition N_SUFFIX : Z := 6.

Definition EOS_TOKENS : list Z := [151643; 151645].
Definition N_EOS : Z := 2.

(** ** IEEE 754 bit patterns and their values

    [ieee] is the value a bit pattern denotes.  A finite value is a sign and a
    magnitude counted in units of the format's smallest subnormal: [2^-24] for
    binary16, [2^-149] for binary32.  The two zeros are [Fin false 0] and
    [Fin true 0]. *)

Inductive ieee : Type :=
| Fin (neg : bool) (mag : Z)
| Inf (neg : bool)
| NaN (neg : bool) (payload : Z).

Global Instance ieee_eq_dec : EqDecision ieee.
Proof. solve_decision. Defined.

Module Binary16.
Definition sign_bit (h : Z) : bool := Z.testbit h 15.
Definition exp_field (h : Z) : Z := Z.land (Z.shiftr h 10) 31.
Definition mant_field (h : Z) : Z := Z.land h 1023.

Definition is_nan (h : Z) : bool :=
  (exp_field h =? 31) && negb (mant_field h =? 0).
Definition is_subnormal (h : Z) : bool :=
  (exp_field h =? 0) && negb (mant_field h =? 0).

Definition decode (h : Z) : ieee :=
  let e := exp_field h in
  let m := mant_field h in
  if e =? 31 then (if m =? 0 then Inf (sign_bit h) else NaN (sign_bit h) m)
  else if e =? 0 then Fin (sign_bit h) m
  else Fin (sign_bit h) ((1024 + m) * 2 ^ (e - 1)).

(** Spacing of binary16 numbers around [h], in units of [2^-24]. *)
Definition ulp (h : Z) : Z :=
  let e := exp_field h in if e =? 0 then 1 else 2 ^ (e - 1).
End Binary16.

Module Binary32.
Definition sign_bit (f : Z) : bool := Z.testbit f 31.
Definition exp_field (f : Z) : Z := Z.land (Z.shiftr f 23) 255.
Definition mant_field (f : Z) : Z := Z.land f 8388607.

Definition is_nan (f : Z) : bool :=
  (exp_field f =? 255) && negb (mant_field f =? 0).

Definition decode (f : Z) : ieee :=
  let e := exp_field f in
  let m := mant_field f in
  if e =? 255 then (if m =? 0 then Inf (sign_bit f) else NaN (sign_bit f) m)
  else if e =? 0 then Fin (sign_bit f) m
  else Fin (sign_bit f) ((8388608 + m) * 2 ^ (e - 1)).
End Binary32.

(** The value of a binary16 number written in binary32 units:
    [2^-24 = 2^125 * 2^-149]; a NaN keeps its sign and its payload moves to
    the top of the wider mantissa. *)
Definition widen (v : ieee) : ieee :=
  match v with
  | Fin s m => Fin s (m * 2 ^ 125)
  | Inf s => Inf s
  | NaN s p => NaN s (p * 2 ^ 13)
  end.

(** ** Helpers *)

(** [is_eos]: linear scan of [EOS_TOKENS]. *)
Definition is_eos (token : Z) : bool :=
  existsb (fun e => token =? e) EOS_TOKENS.

(** *** [fp16_to_f32]

    The renormalisation loop of the subnormal branch,
    [while (!(mant & 0x400)) { mant <<= 1; exp--; }], on [uint32_t] values.
    [fuel] bounds the number of iterations; [renorm_exits] below shows that
    the loop condition is false at exit for every subnormal mantissa, so the
    bound is never what stops the loop. *)
Fixpoint renorm (fuel : nat) (mant exp : Z) : Z * Z :=
  match fuel with
  | O => (mant, exp)
  | S fuel' =>
      if Z.land mant 1024 =? 0
      then renorm fuel' (u32 (Z.shiftl mant 1)) (u32 (exp - 1))
      else (mant, exp)
  end.

Definition fp16_to_f32 (h : Z) : Z :=
  let sign := u32 (Z.shiftl (u32 (Z.shiftr h 15)) 31) in
  let exp := Z.land (Z.shiftr h 10) 31 in
  let mant := Z.land h 1023 in
  if exp =? 0 then
    if mant =? 0 then sign
    else
      let '(mant', exp') := renorm 10 mant 1 in
      let mant'' := Z.land mant' 1023 in
      Z.lor (Z.lor sign (u32 (Z.shiftl (u32 (exp' + 127 - 15)) 23)))
            (u32 (Z.shiftl mant'' 13))
  else if exp =? 31 then
    Z.lor (Z.lor sign 2139095040) (u32 (Z.shiftl mant 13))
  else
    Z.lor (Z.lor sign (u32 (Z.shiftl (u32 (exp + 127 - 15)) 23)))
          (u32 (Z.shiftl mant 13)).

(** *** The fallback binary32 -> binary16 conversion in [load_npy_fp16]

    The body of the loop over the elements of an fp32 file.  [exp_val] is an
    [int32_t] initialised from an unsigned expression. *)
Definition f32_exp_val (bits : Z) : Z :=
  int32 (u32 (u32 (Z.land (Z.shiftr bits 23) 255 - 127) + 15)).

Definition f32_to_fp16 (bits : Z) : Z :=
  let sign := Z.land (Z.shiftr bits 16) 32768 in
  let exp_val := f32_exp_val bits in
  let mant := Z.land (Z.shiftr bits 13) 1023 in
  if exp_val <=? 0 then u16 sign
  else if 31 <=? exp_val then u16 (Z.lor sign 31744)
  else u16 (Z.lor (Z.lor sign (u32 (Z.shiftl (u32 exp_val) 10))) mant).

(** binary16 -> binary32 -> binary16 through the two conversions. *)
Definition fp16_roundtrip (h : Z) : Z := f32_to_fp16 (fp16_to_f32 h).

(** Distance of at most one unit in the last place between two binary16
    patterns: same sign, both finite, magnitudes at most [ulp] apart. *)
Definition within_one_ulp (h r : Z) : Prop :=
  match Binary16.decode h, Binary16.decode r with
  | Fin s m, Fin s' m' => s = s' /\ Z.abs (m - m') <= Binary16.ulp h
  | _, _ => False
  end.

(** *** Comparison of floats

    [ieee_key] embeds the non-NaN values, in their order, into [Z]: a finite
    value by its signed magnitude (both zeros at 0), the infinities beyond
    every finite magnitude (binary32 magnitudes are below [2^278]).  The C
    operator [>] is false as soon as one operand is a NaN. *)
Definition ieee_key (v : ieee) : option Z :=
  match v with
  | Fin s m => Some (if s then - m else m)
  | Inf s => Some (if s then - 2 ^ 300 else 2 ^ 300)
  | NaN _ _ => None
  end.

Definition f32_key (f : Z) : option Z := ieee_key (Binary32.decode f).

Definition f32_gt (a b : Z) : bool :=
  match f32_key a, f32_key b with
  | Some x, Some y => y <? x
  | _, _ => false
  end.

(** *** [argmax_f32]

    [cnt] counts the remaining iterations of [for (i = 1; i < n; i++)].  A
    read outside [data] is given the value 0; the theorems about [argmax_f32]
    assume [n] within the array. *)
Fixpoint argmax_scan (data : list Z) (cnt : nat) (i best best_val : Z) : Z :=
  match cnt with
  | O => best
  | S cnt' =>
      let x := nth (Z.to_nat i) data 0 in
      if f32_gt x best_val
      then argmax_scan data cnt' (i + 1) i x
      else argmax_scan data cnt' (i + 1) best best_val
  end.

Definition argmax_f32 (data : list Z) (n : Z) : Z :=
  argmax_scan data (Z.to_nat (n - 1)) 1 0 (nth 0 data 0).

(** ** Buffers

    A C array is a list; a pointer into it is the list and an offset.
    [memcpy dst off src n] copies the first [n] cells of [src] to
    [dst + off]. *)
Definition memcpy (dst : list Z) (off : Z) (src : list Z) (n : Z) : list Z :=
  list_inserts (Z.to_nat off) (take (Z.to_nat n) src) dst.

(** [calloc n]: [n] cells with all bits zero, which is the float [+0.0]. *)
Definition calloc (n : Z) : list Z := replicate (Z.to_nat n) 0.

(** ** Embedding store

    [embed_token_fp16]: [row = embed_fp16 + (size_t)token_id * hidden_dim];
    the loop writes [out[i] = fp16_to_f32(row[i])] for [i] in
    [0, hidden_dim).  [out] is the buffer and the offset of its first cell. *)
Fixpoint embed_token_loop (embed_fp16 : list Z) (row : Z) (cnt : nat) (i : Z)
    (out : list Z) (off : Z) : list Z :=
  match cnt with
  | O => out
  | S cnt' =>
      let v := fp16_to_f32 (nth (Z.to_nat (row + i)) embed_fp16 0) in
      embed_token_loop embed_fp16 row cnt' (i + 1)
        (<[Z.to_nat (off + i) := v]> out) off
  end.

Definition embed_token_fp16 (embed_fp16 : list Z) (token_id hidden_dim : Z)
    (out : list Z) (off : Z) : list Z :=
  let row := u64 (u64 token_id * u64 hidden_dim) in
  embed_token_loop embed_fp16 row (Z.to_nat hidden_dim) 0 out off.

(** The fp32 embedding of one token as a value: what [embed_token_fp16]
    leaves in a buffer of [hidden_dim] cells. *)
Definition embedding (embed_fp16 : list Z) (token_id hidden_dim : Z) : list Z :=
  embed_token_fp16 embed_fp16 token_id hidden_dim (calloc hidden_dim) 0.

(** ** Stage 1: padding of the mel spectrogram

    [QWEN_MEL_BINS] comes from qwen_asr.h and is a parameter here.  The C
    operator [%] truncates towards zero ([Z.rem]). *)
Definition pad_frames (n_frames : Z) : Z :=
  Z.rem (int32 (CHUNK_SIZE - Z.rem n_frames CHUNK_SIZE)) CHUNK_SIZE.

Definition padded_frames (n_frames : Z) : Z :=
  int32 (n_frames + pad_frames n_frames).

Definition pad_mel (QWEN_MEL_BINS : Z) (mel : list Z) (n_frames : Z) : list Z :=
  if 0 <? pad_frames n_frames then
    let padded :=
      calloc (u64 (u64 QWEN_MEL_BINS * u64 (padded_frames n_frames))) in
    memcpy padded 0 mel (u64 (u64 QWEN_MEL_BINS * u64 n_frames))
  else mel.

(** Element [(bin, frame)] of a row-major [bins x frames] matrix, the layout
    of the tensor shape [{1, QWEN_MEL_BINS, padded_frames}] handed to the
    encoder and of the extractor's [MEL_BINS x frames] output. *)
Definition mel_at (buf : list Z) (frames : Z) (bin frame : Z) : Z :=
  nth (Z.to_nat (bin * frames + frame)) buf 0.

(** ** Stage 3: the prompt embedding buffer

    The two loops over [PROMPT_PREFIX] and [PROMPT_SUFFIX] and the [memcpy]
    between them.  The offsets are computed in [int]. *)
Fixpoint embed_tokens_at (embed_fp16 : list Z) (hidden : Z) (tokens : list Z)
    (base : Z) (i : Z) (buf : list Z) : list Z :=
  match tokens with
  | [] => buf
  | t :: rest =>
      let buf' := embed_token_fp16 embed_fp16 t hidden buf
                    (int32 (int32 (base + i) * hidden)) in
      embed_tokens_at embed_fp16 hidden rest base (i + 1) buf'
  end.

Definition fill_input_embeds (embed_fp16 : list Z) (hidden n_audio : Z)
    (audio_embeds : list Z) (input_embeds : list Z) : list Z :=
  let b1 := embed_tokens_at embed_fp16 hidden PROMPT_PREFIX 0 0 input_embeds in
  let b2 := memcpy b1 (int32 (N_PREFIX * hidden)) audio_embeds
              (u64 (u64 n_audio * u64 hidden)) in
  embed_tokens_at embed_fp16 hidden PROMPT_SUFFIX
    (int32 (N_PREFIX + n_audio)) 0 b2.

Definition prompt_len (n_audio : Z) : Z :=
  int32 (int32 (N_PREFIX + n_audio) + N_SUFFIX).

(** [malloc(prompt_len * hidden * sizeof(float))] followed by the fill.  The
    contents of fresh storage are unspecified; every cell is overwritten, see
    [fill_input_embeds_layout], which holds for any initial contents. *)
Definition build_input_embeds (embed_fp16 : list Z) (hidden n_audio : Z)
    (audio_embeds : list Z) : list Z :=
  fill_input_embeds embed_fp16 hidden n_audio audio_embeds
    (calloc (u64 (u64 (prompt_len n_audio) * u64 hidden))).

(** ** The context and the world around a call

    [qwen_onnx_ctx] keeps the fields that [qwen_onnx_transcribe] reads or
    writes.  A session pointer is [None] when NULL.  The ORT handles ([api],
    [env], [mem_info]), the tokenizer, the base and size of the mapping and
    [model_dir] are set once by [qwen_onnx_load] and are left out; the
    tokenizer's answers are in [External] below. *)

Inductive slot : Type := Encoder | Prefill | Decode.

Inductive GraphOptimizationLevel : Type := ORT_DISABLE_ALL | ORT_ENABLE_BASIC.

Record OrtSession : Type := { session_level : GraphOptimizationLevel }.

Record qwen_onnx_ctx : Type := {
  encoder : option OrtSession;
  prefill : option OrtSession;
  decode : option OrtSession;
  embed_tokens_fp16 : list Z;
  vocab_size : Z;
  hidden_dim : Z;
  n_layers : Z;
  enc_threads : Z;
  dec_threads : Z;
  keep_sessions : bool
}.

Definition get_slot (s : slot) (c : qwen_onnx_ctx) : option OrtSession :=
  match s with
  | Encoder => encoder c
  | Prefill => prefill c
  | Decode => decode c
  end.

Definition set_slot (s : slot) (v : option OrtSession) (c : qwen_onnx_ctx)
  : qwen_onnx_ctx :=
  {| encoder := match s with Encoder => v | _ => encoder c end;
     prefill := match s with Prefill => v | _ => prefill c end;
     decode := match s with Decode => v | _ => decode c end;
     embed_tokens_fp16 := embed_tokens_fp16 c;
     vocab_size := vocab_size c;
     hidden_dim := hidden_dim c;
     n_layers := n_layers c;
     enc_threads := enc_threads c;
     dec_threads := dec_threads c;
     keep_sessions := keep_sessions c |}.

Definition set_n_layers (n : Z) (c : qwen_onnx_ctx) : qwen_onnx_ctx :=
  {| encoder := encoder c;
     prefill := prefill c;
     decode := decode c;
     embed_tokens_fp16 := embed_tokens_fp16 c;
     vocab_size := vocab_size c;
     hidden_dim := hidden_dim c;
     n_layers := n;
     enc_threads := enc_threads c;
     dec_threads := dec_threads c;
     keep_sessions := keep_sessions c |}.

(** Which of the three slots hold a session: (encoder, prefill, decode). *)
Definition loaded (c : qwen_onnx_ctx) : bool * bool * bool :=
  (bool_decide (is_Some (encoder c)),
   bool_decide (is_Some (prefill c)),
   bool_decide (is_Some (decode c))).

(** What the session manager is seen doing.  Every event is recorded with the
    slots as they are when it happens. *)
Inductive event : Type :=
| EvCreateSession (s : slot) (level : GraphOptimizationLevel) (ok : bool)
| EvReleaseSession (s : slot)
| EvRun (s : slot)
| EvRunDecode (step token : Z).

Inductive error_msg : Type :=
| ErrCalloc
| ErrOrtLoad
| ErrTokenizer
| ErrMmap
| ErrEagerLoad (s : slot)
| ErrCreateSession (s : slot) (level : GraphOptimizationLevel)
| ErrOnDemand (s : slot).

(** The places where [qwen_onnx_load] and [qwen_onnx_transcribe] test an
    allocation or an ORT status and give up. *)
Inductive check_site : Type :=
| CallocCtx
| CreateEnv
| CreateCpuMemoryInfo
| LoadOutputCount
| MallocGenerated
| CreateEncInput
| EncGetTypeAndShape
| EncGetDimensions
| EncGetData
| PrefillOutputCount
| CallocOutputArrays
| MallocInputEmbeds
| CreatePrefillInput
| PrefillGetData
| MallocTokenBuf
| CreateTokenInput
| CreatePosInput
| DecodeGetData (step : Z).

(** The collaborators outside the file: constants of qwen_asr.h, the host,
    the mel extractor, the tokenizer, the allocator and ONNX Runtime.  [KV]
    is the type of a set of [2 * n_layers] cache values.
    [mmap_embed_tokens] is what [mmap_npy_fp16] finds in the model
    directory: rows, columns and the fp16 cells, or nothing when the file
    cannot be mapped or is not a 2-D fp16 array. *)
Record External (KV : Type) : Type := {
  QWEN_MEL_BINS : Z;
  QWEN_TOKEN_ASR_TEXT : Z;
  TARGET_OS_OSX : bool;
  sysconf_nprocessors : Z;
  qwen_tokenizer_load : bool;
  mmap_embed_tokens : option (Z * Z * list Z);
  qwen_mel_spectrogram : list Z -> Z -> option (list Z * Z);
  qwen_tokenizer_decode : Z -> option (list ascii);
  check_ok : check_site -> bool;
  session_options_ok : slot -> GraphOptimizationLevel -> bool;
  CreateSession : slot -> Z -> GraphOptimizationLevel -> bool;
  SessionGetOutputCount : Z;
  Run_encoder : list Z -> Z -> option (Z * list Z);
  Run_prefill : list Z -> Z -> option (list Z * KV);
  Run_decode : list Z -> Z -> KV -> option (list Z * KV)
}.

Arguments QWEN_MEL_BINS {KV}.
Arguments QWEN_TOKEN_ASR_TEXT {KV}.
Arguments TARGET_OS_OSX {KV}.
Arguments sysconf_nprocessors {KV}.
Arguments qwen_tokenizer_load {KV}.
Arguments mmap_embed_tokens {KV}.
Arguments qwen_mel_spectrogram {KV}.
Arguments qwen_tokenizer_decode {KV}.
Arguments check_ok {KV}.
Arguments session_options_ok {KV}.
Arguments CreateSession {KV}.
Arguments SessionGetOutputCount {KV}.
Arguments Run_encoder {KV}.
Arguments Run_prefill {KV}.
Arguments Run_decode {KV}.

(** What a call can change besides the context: the file-level statics
    [last_n_tokens] and [last_error_buf], and the record of events. *)
Record statics : Type := {
  trace : list (event * (bool * bool * bool));
  last_n_tokens : Z;
  last_error : option error_msg
}.

Record world : Type := {
  w_ctx : qwen_onnx_ctx;
  w_statics : statics
}.

(** ** A state monad with a jump to [cleanup]

    A computation returns [None] when it executes [goto cleanup]. *)
Module Step.

Definition M (A : Type) : Type := world -> option A * world.

Definition ret {A} (a : A) : M A := fun w => (Some a, w).

Definition goto_cleanup {A} : M A := fun w => (None, w).

Definition bind {A B} (m : M A) (k : A -> M B) : M B :=
  fun w => match m w with
           | (Some a, w') => k a w'
           | (None, w') => (None, w')
           end.

Definition get_ctx : M qwen_onnx_ctx := fun w => (Some (w_ctx w), w).

Definition modify_ctx (f : qwen_onnx_ctx -> qwen_onnx_ctx) : M unit :=
  fun w => (Some tt, {| w_ctx := f (w_ctx w); w_statics := w_statics w |}).

Definition emit (e : event) : M unit :=
  fun w =>
    let g := w_statics w in
    (Some tt, {| w_ctx := w_ctx w;
                 w_statics := {| trace := trace g ++ [(e, loaded (w_ctx w))];
                                 last_n_tokens := last_n_tokens g;
                                 last_error := last_error g |} |}).

Definition set_last_error (e : error_msg) : M unit :=
  fun w =>
    let g := w_statics w in
    (Some tt, {| w_ctx := w_ctx w;
                 w_statics := {| trace := trace g;
                                 last_n_tokens := last_n_tokens g;
                                 last_error := Some e |} |}).

Definition set_last_n_tokens (n : Z) : M unit :=
  fun w =>
    let g := w_statics w in
    (Some tt, {| w_ctx := w_ctx w;
                 w_statics := {| trace := trace g;
                                 last_n_tokens := n;
                                 last_error := last_error g |} |}).

(** [ORT_CHECK] and the tests of allocation results. *)
Definition check (ok : bool) : M unit :=
  if ok then ret tt else goto_cleanup.

Definition of_option {A} (o : option A) : M A :=
  match o with
  | Some a => ret a
  | None => goto_cleanup
  end.

End Step.
Import Step.

Notation "x <- m ;; k" := (bind m (fun x => k))
  (at level 100, m at next level, right associativity).
Notation "m ;;; k" := (bind m (fun _ => k))
  (at level 100, right associativity).

(** ** Session manager *)

(** [create_session_with_fallback]: the levels are tried in order; a failure
    to build the session options gives up at once, a failed [CreateSession]
    records the message and moves to the next level.  [s] stands for
    [out_session]: every caller passes the address of a slot of the context,
    and [CreateSession] stores the session it creates there, inside the
    call.  The result is the [int] returned.  A failed [CreateSession] is
    taken to leave the slot as it was; every caller enters with the slot
    NULL. *)
Fixpoint create_session_with_fallback {KV} (ext : External KV) (s : slot)
    (intra_threads : Z) (levels : list GraphOptimizationLevel)
  : M bool :=
  match levels with
  | [] => ret false
  | level :: rest =>
      if negb (session_options_ok ext s level) then ret false
      else
        let ok := CreateSession ext s intra_threads level in
        emit (EvCreateSession s level ok) ;;;
        if ok then
          modify_ctx (set_slot s (Some {| session_level := level |})) ;;;
          ret true
        else
          set_last_error (ErrCreateSession s level) ;;;
          create_session_with_fallback ext s intra_threads rest
  end.

Definition enc_levels : list GraphOptimizationLevel := [ORT_DISABLE_ALL].
Definition dec_levels : list GraphOptimizationLevel :=
  [ORT_ENABLE_BASIC; ORT_DISABLE_ALL].

Definition slot_levels (s : slot) : list GraphOptimizationLevel :=
  match s with
  | Encoder => enc_levels
  | Prefill | Decode => dec_levels
  end.

Definition slot_threads (s : slot) (c : qwen_onnx_ctx) : Z :=
  match s with
  | Encoder => enc_threads c
  | Prefill | Decode => dec_threads c
  end.

(** [if (!ctx->slot) { if (!create_session_with_fallback(...)) {
    set_last_error(...); goto cleanup; } }] *)
Definition load_on_demand {KV} (ext : External KV) (s : slot) : M unit :=
  c <- get_ctx ;;
  match get_slot s c with
  | Some _ => ret tt
  | None =>
      ok <- create_session_with_fallback ext s (slot_threads s c) (slot_levels s) ;;
      if ok : bool then ret tt
      else set_last_error (ErrOnDemand s) ;;; goto_cleanup
  end.

(** [if (ctx->slot) { ReleaseSession(ctx->slot); ctx->slot = NULL; }] *)
Definition release_if_loaded (s : slot) : M unit :=
  c <- get_ctx ;;
  match get_slot s c with
  | Some _ => emit (EvReleaseSession s) ;;; modify_ctx (set_slot s None)
  | None => ret tt
  end.

(** After a stage: [if (ctx->slot && !ctx->keep_sessions) { ... }] *)
Definition release_after_stage (s : slot) : M unit :=
  c <- get_ctx ;;
  if keep_sessions c then ret tt else release_if_loaded s.

(** The end of [cleanup]: [if (!ctx->keep_sessions) { ... }] around the
    release of the three slots. *)
Definition cleanup : M unit :=
  c <- get_ctx ;;
  if keep_sessions c then ret tt
  else
    release_if_loaded Encoder ;;;
    release_if_loaded Prefill ;;;
    release_if_loaded Decode.

(** [if (ctx->n_layers == 0) { ...; ctx->n_layers = (int)(n_outputs - 1) / 2; }] *)
Definition probe_n_layers {KV} (ext : External KV) : M unit :=
  c <- get_ctx ;;
  if n_layers c =? 0 then
    check (check_ok ext PrefillOutputCount) ;;;
    modify_ctx (set_n_layers (Z.quot (int32 (u64 (SessionGetOutputCount ext - 1))) 2))
  else ret tt.

(** ** Stage 5: the decode loop

    [remaining] counts the iterations left of
    [for (step = 0; step < MAX_NEW_TOKENS - 1; step++)].  [generated] holds
    the cells [0, n_generated) of the C array. *)
Fixpoint decode_loop {KV} (ext : External KV) (prompt_len : Z)
    (remaining : nat) (step token : Z) (generated : list Z)
    (decode_token_buf : list Z) (kv_caches : KV) : M (list Z) :=
  match remaining with
  | O => ret generated
  | S remaining' =>
      if is_eos token then ret generated
      else
        c <- get_ctx ;;
        let decode_token_buf' :=
          embed_token_fp16 (embed_tokens_fp16 c) token (hidden_dim c)
            decode_token_buf 0 in
        let decode_pos_val := int32 (prompt_len + step) in
        emit (EvRunDecode step token) ;;;
        out <- of_option (Run_decode ext decode_token_buf' decode_pos_val kv_caches) ;;
        let '(logits, kv_caches') := out in
        check (check_ok ext (DecodeGetData step)) ;;;
        let token' := argmax_f32 logits (vocab_size c) in
        decode_loop ext prompt_len remaining' (step + 1) token'
          (generated ++ [token']) decode_token_buf' kv_caches'
  end.

(** ** Stage 6: from tokens to text *)

(** [while (n_generated > 0 && is_eos(generated[n_generated - 1]))
    n_generated--;] *)
Fixpoint strip_trailing_eos (generated : list Z) (n_generated : nat) : nat :=
  match n_generated with
  | O => O
  | S n' =>
      if is_eos (nth n' generated 0) then strip_trailing_eos generated n'
      else n_generated
  end.

(** The text under construction.  [text] is the bytes before the
    terminating NUL ([text_len] is its length); [text_cap] is the size of
    the allocation, doubled once when a piece would not fit. *)
Record text_buf : Type := { text : list ascii; text_cap : Z }.

Definition text_len (b : text_buf) : Z := Z.of_nat (length (text b)).

Definition append_piece (b : text_buf) (piece : option (list ascii)) : text_buf :=
  match piece with
  | None => b
  | Some p =>
      let plen := Z.of_nat (length p) in
      let cap := if text_cap b <? u64 (u64 (text_len b + plen) + 1)
                 then u64 (text_cap b * 2) else text_cap b in
      {| text := text b ++ p; text_cap := cap |}
  end.

(** First loop: pieces of the tokens after [<asr_text>]. *)
Fixpoint collect_after_asr_text {KV} (ext : External KV) (tokens : list Z)
    (past_asr_text : bool) (b : text_buf) : bool * text_buf :=
  match tokens with
  | [] => (past_asr_text, b)
  | t :: rest =>
      if t =? QWEN_TOKEN_ASR_TEXT ext then collect_after_asr_text ext rest true b
      else if negb past_asr_text then collect_after_asr_text ext rest past_asr_text b
      else collect_after_asr_text ext rest past_asr_text
             (append_piece b (qwen_tokenizer_decode ext t))
  end.

(** Second loop, when [<asr_text>] was never seen: pieces of the tokens
    below 151643. *)
Fixpoint collect_plain {KV} (ext : External KV) (tokens : list Z) (b : text_buf)
  : text_buf :=
  match tokens with
  | [] => b
  | t :: rest =>
      if 151643 <=? t then collect_plain ext rest b
      else collect_plain ext rest (append_piece b (qwen_tokenizer_decode ext t))
  end.

Definition is_space (c : ascii) : bool :=
  (Ascii.eqb c " " || Ascii.eqb c "010" || Ascii.eqb c "009")%char.

(** The loop that advances [start] over spaces, newlines and tabs: what is
    left at [start]. *)
Fixpoint skip_leading (s : list ascii) : list ascii :=
  match s with
  | [] => []
  | c :: rest => if is_space c then skip_leading rest else s
  end.

(** The loop that moves [end] back over spaces, newlines and tabs while
    [end > start]: the bytes of [start, end). *)
Definition skip_trailing (s : list ascii) : list ascii :=
  rev (skip_leading (rev s)).

Definition trim (s : list ascii) : list ascii := skip_trailing (skip_leading s).

Definition detokenize {KV} (ext : External KV) (generated : list Z) : list ascii :=
  let n_generated := strip_trailing_eos generated (length generated) in
  let tokens := take n_generated generated in
  let b0 := {| text := []; text_cap := 4096 |} in
  let '(past_asr_text, b1) := collect_after_asr_text ext tokens false b0 in
  let b2 :=
    if past_asr_text then b1
    else collect_plain ext tokens {| text := []; text_cap := text_cap b1 |} in
  trim (text b2).

(** ** [qwen_onnx_transcribe]

    [transcribe_body] is the function from the allocation of [generated] to
    the label [cleanup]; times and log lines are left out. *)
Definition transcribe_body {KV} (ext : External KV) (samples : list Z)
    (n_samples : Z) : M (list ascii) :=
  check (check_ok ext MallocGenerated) ;;;
  (* Step 1: mel spectrogram, padded to a multiple of CHUNK_SIZE *)
  m <- of_option (qwen_mel_spectrogram ext samples n_samples) ;;
  let '(mel0, n_frames) := m in
  let mel := pad_mel (QWEN_MEL_BINS ext) mel0 n_frames in
  (* Step 1b: on-demand encoder loading *)
  load_on_demand ext Encoder ;;;
  (* Step 2: run encoder *)
  check (check_ok ext CreateEncInput) ;;;
  emit (EvRun Encoder) ;;;
  e <- of_option (Run_encoder ext mel (padded_frames n_frames)) ;;
  let '(enc_shape_1, audio_embeds) := e in
  check (check_ok ext EncGetTypeAndShape) ;;;
  check (check_ok ext EncGetDimensions) ;;;
  let n_audio := int32 enc_shape_1 in
  check (check_ok ext EncGetData) ;;;
  release_after_stage Encoder ;;;
  (* Step 2b: on-demand prefill loading *)
  load_on_demand ext Prefill ;;;
  probe_n_layers ext ;;;
  check (check_ok ext CallocOutputArrays) ;;;
  (* Step 3: build input embeddings *)
  c <- get_ctx ;;
  let hidden := hidden_dim c in
  check (check_ok ext MallocInputEmbeds) ;;;
  let input_embeds :=
    build_input_embeds (embed_tokens_fp16 c) hidden n_audio audio_embeds in
  (* Step 4: run decoder prefill *)
  check (check_ok ext CreatePrefillInput) ;;;
  emit (EvRun Prefill) ;;;
  p <- of_option (Run_prefill ext input_embeds (prompt_len n_audio)) ;;
  let '(logits, kv_caches) := p in
  check (check_ok ext PrefillGetData) ;;;
  let first_token := argmax_f32 logits (vocab_size c) in
  (* Step 4b: release prefill, load decode on demand *)
  release_after_stage Prefill ;;;
  load_on_demand ext Decode ;;;
  (* Step 5: decode loop *)
  check (check_ok ext MallocTokenBuf) ;;;
  check (check_ok ext CreateTokenInput) ;;;
  check (check_ok ext CreatePosInput) ;;;
  generated <- decode_loop ext (prompt_len n_audio)
                 (Z.to_nat (MAX_NEW_TOKENS - 1)) 0 first_token [first_token]
                 (calloc hidden) kv_caches ;;
  set_last_n_tokens (Z.of_nat (length generated)) ;;;
  ret (detokenize ext generated).

(** The whole function.  [ctx] and [samples] are [None] when NULL; the
    result is [None] when NULL. *)
Definition qwen_onnx_transcribe {KV} (ext : External KV)
    (ctx : option qwen_onnx_ctx) (samples : option (list Z)) (n_samples : Z)
    (g : statics) : option (list ascii) * option qwen_onnx_ctx * statics :=
  match ctx, samples with
  | Some c, Some smp =>
      if n_samples <=? 0 then (None, ctx, g)
      else
        let '(result, w) :=
          transcribe_body ext smp n_samples {| w_ctx := c; w_statics := g |} in
        let w' := snd (cleanup w) in
        (result, Some (w_ctx w'), w_statics w')
  | _, _ => (None, ctx, g)
  end.

(** ** [qwen_onnx_load] and [qwen_onnx_free] *)

(** [calloc(1, sizeof(qwen_onnx_ctx_t))]: every field zero. *)
Definition ctx_zero : qwen_onnx_ctx :=
  {| encoder := None;
     prefill := None;
     decode := None;
     embed_tokens_fp16 := [];
     vocab_size := 0;
     hidden_dim := 0;
     n_layers := 0;
     enc_threads := 0;
     dec_threads := 0;
     keep_sessions := false |}.

Definition set_threads_policy (dec : Z) (keep : bool) (c : qwen_onnx_ctx)
  : qwen_onnx_ctx :=
  {| encoder := encoder c;
     prefill := prefill c;
     decode := decode c;
     embed_tokens_fp16 := embed_tokens_fp16 c;
     vocab_size := vocab_size c;
     hidden_dim := hidden_dim c;
     n_layers := n_layers c;
     enc_threads := enc_threads c;
     dec_threads := dec;
     keep_sessions := keep |}.

Definition set_embed_tokens (data : list Z) (rows cols : Z) (c : qwen_onnx_ctx)
  : qwen_onnx_ctx :=
  {| encoder := encoder c;
     prefill := prefill c;
     decode := decode c;
     embed_tokens_fp16 := data;
     vocab_size := rows;
     hidden_dim := cols;
     n_layers := n_layers c;
     enc_threads := enc_threads c;
     dec_threads := dec_threads c;
     keep_sessions := keep_sessions c |}.

Definition set_enc_threads (enc : Z) (c : qwen_onnx_ctx) : qwen_onnx_ctx :=
  {| encoder := encoder c;
     prefill := prefill c;
     decode := decode c;
     embed_tokens_fp16 := embed_tokens_fp16 c;
     vocab_size := vocab_size c;
     hidden_dim := hidden_dim c;
     n_layers := n_layers c;
     enc_threads := enc;
     dec_threads := dec_threads c;
     keep_sessions := keep_sessions c |}.

(** [n_threads]: the number of processors, 4 when unknown, at most 8. *)
Definition n_threads {KV} (ext : External KV) : Z :=
  let n := int32 (sysconf_nprocessors ext) in
  let n := if n <? 1 then 4 else n in
  if 8 <? n then 8 else n.

(** [ORT_CHECK_LOAD]: on a failure the message is recorded and the load
    gives up. *)
Definition check_load {KV} (ext : External KV) (site : check_site) : M unit :=
  if check_ok ext site then ret tt
  else set_last_error ErrOrtLoad ;;; goto_cleanup.

(** One of the three eager loads of the [keep_sessions] branch. *)
Definition eager_load {KV} (ext : External KV) (s : slot) : M unit :=
  c <- get_ctx ;;
  ok <- create_session_with_fallback ext s (slot_threads s c) (slot_levels s) ;;
  if ok : bool then ret tt
  else set_last_error (ErrEagerLoad s) ;;; goto_cleanup.

(** [qwen_onnx_load] after the allocation of the context; [None] stands for
    [qwen_onnx_free(ctx); return NULL;]. *)
Definition load_body {KV} (ext : External KV) : M unit :=
  check_load ext CreateEnv ;;;
  check_load ext CreateCpuMemoryInfo ;;;
  let n := n_threads ext in
  let enc := if 6 <=? n then 6 else n in
  let dec := if 6 <=? n then 3 else 2 in
  modify_ctx (set_threads_policy dec (TARGET_OS_OSX ext)) ;;;
  (if qwen_tokenizer_load ext then ret tt
   else set_last_error ErrTokenizer ;;; goto_cleanup) ;;;
  m <- match mmap_embed_tokens ext with
       | Some m => ret m
       | None => set_last_error ErrMmap ;;; goto_cleanup
       end ;;
  let '(rows, cols, data) := m in
  modify_ctx (set_embed_tokens data rows cols) ;;;
  modify_ctx (set_n_layers 0) ;;;
  modify_ctx (set_enc_threads enc) ;;;
  c <- get_ctx ;;
  if keep_sessions c then
    eager_load ext Encoder ;;;
    eager_load ext Prefill ;;;
    eager_load ext Decode ;;;
    check_load ext LoadOutputCount ;;;
    modify_ctx (set_n_layers (Z.quot (int32 (u64 (SessionGetOutputCount ext - 1))) 2))
  else ret tt.

(** [qwen_onnx_free]: the sessions still loaded are released (the other
    resources of the context are not part of the model). *)
Definition qwen_onnx_free (ctx : option qwen_onnx_ctx) (g : statics) : statics :=
  match ctx with
  | None => g
  | Some c =>
      w_statics
        (snd ((release_if_loaded Encoder ;;;
               release_if_loaded Prefill ;;;
               release_if_loaded Decode) {| w_ctx := c; w_statics := g |}))
  end.

Definition qwen_onnx_load {KV} (ext : External KV) (g : statics)
  : option qwen_onnx_ctx * statics :=
  let g0 := {| trace := trace g;
               last_n_tokens := last_n_tokens g;
               last_error := None |} in
  if check_ok ext CallocCtx then
    let '(r, w) := load_body ext {| w_ctx := ctx_zero; w_statics := g0 |} in
    match r with
    | Some _ => (Some (w_ctx w), w_statics w)
    | None => (None, qwen_onnx_free (Some (w_ctx w)) (w_statics w))
    end
  else
    (None, {| trace := trace g;
              last_n_tokens := last_n_tokens g;
              last_error := Some ErrCalloc |}).

(** ** Checking a property on every bit pattern of a given width

    [forall_bits n f prefix] evaluates [f] on the [2^n] numbers whose binary
    writing is [prefix] followed by [n] more bits. *)
Fixpoint forall_bits (n : nat) (f : Z -> bool) (prefix : Z) : bool :=
  match n with
  | O => f prefix
  | S n' => forall_bits n' f (2 * prefix) && forall_bits n' f (2 * prefix + 1)
  end.

Definition ieee_eqb (a b : ieee) : bool :=
  match a, b with
  | Fin s m, Fin s' m' => Bool.eqb s s' && (m =? m')
  | Inf s, Inf s' => Bool.eqb s s'
  | NaN s p, NaN s' p' => Bool.eqb s s' && (p =? p')
  | _, _ => false
  end.

(** The loop of [renorm] has left when the result is returned. *)
Definition renorm_exit_check (mant : Z) : bool :=
  (mant =? 0) || (1024 <=? mant) ||
  negb (Z.land (fst (renorm 10 mant 1)) 1024 =? 0).

(** The binary32 pattern [fp16_to_f32 h] is in range, denotes the value of
    [h], and has the expected fields. *)
Definition fp16_to_f32_check (h : Z) : bool :=
  let f := fp16_to_f32 h in
  let e := Binary16.exp_field h in
  let m := Binary16.mant_field h in
  (0 <=? f) && (f <? 2 ^ 32) &&
  ieee_eqb (Binary32.decode f) (widen (Binary16.decode h)) &&
  (if e =? 0 then true
   else if e =? 31
        then (Binary32.exp_field f =? 255) && (Binary32.mant_field f =? m * 2 ^ 13)
        else (Binary32.exp_field f =? e + 127 - 15) &&
             (Binary32.mant_field f =? m * 2 ^ 13)).

(** The round trip gives back [h], or the zero of the sign of [h] when [h]
    is subnormal; NaNs are not looked at. *)
Definition fp16_roundtrip_check (h : Z) : bool :=
  Binary16.is_nan h ||
  (if Binary16.is_subnormal h
   then ieee_eqb (Binary16.decode (fp16_roundtrip h)) (Fin (Binary16.sign_bit h) 0)
   else fp16_roundtrip h =? h).

(** ** Reading [argmax_f32]'s result

    The C operator [<=] on floats, and what it is for [r] to be the smallest
    index at which the first [n] cells of [data] reach their maximum: no
    cell is above cell [r], and cell [r] is above every cell before it. *)
Definition f32_le (a b : Z) : bool :=
  match f32_key a, f32_key b with
  | Some x, Some y => x <=? y
  | _, _ => false
  end.

Definition cell (data : list Z) (i : Z) : Z := nth (Z.to_nat i) data 0.

Definition first_index_of_max (data : list Z) (n r : Z) : Prop :=
  0 <= r < n /\
  (forall j, 0 <= j < n -> f32_le (cell data j) (cell data r) = true) /\
  (forall j, 0 <= j < r -> f32_gt (cell data r) (cell data j) = true).

(** ** Reading the record of events

    An event of the decode loop: a run of the decode session at a step in
    [lo, hi) on a token outside the EOS set, with the slots as in [w]. *)
Definition decode_run_at (w : world) (lo hi : Z)
    (e : event * (bool * bool * bool)) : Prop :=
  exists step token,
    e = (EvRunDecode step token, loaded (w_ctx w)) /\
    lo <= step < hi /\ is_eos token = false.

(** ** Reading the prompt buffer

    The converted cells [i, i + cnt) of the row of the table that starts at
    cell [row], and the rows of a list of tokens one after the other. *)
Definition row_f32 (embed_fp16 : list Z) (row i : Z) (cnt : nat) : list Z :=
  (fun j => fp16_to_f32 (nth (Z.to_nat (row + j)) embed_fp16 0))
    <$> seqZ i (Z.of_nat cnt).

Definition embeddings (embed_fp16 : list Z) (hidden : Z) (tokens : list Z)
  : list Z :=
  concat ((fun t => embedding embed_fp16 t hidden) <$> tokens).

(** ** Reading the detokenizer's result

    The piece of a token (nothing when the tokenizer has none) and the
    concatenation of the pieces of a list of tokens. *)
Definition piece {KV} (ext : External KV) (t : Z) : list ascii :=
  default [] (qwen_tokenizer_decode ext t).

Definition pieces {KV} (ext : External KV) (tokens : list Z) : list ascii :=
  concat (map (piece ext) tokens).

Definition is_asr_text {KV} (ext : External KV) (t : Z) : bool :=
  t =? QWEN_TOKEN_ASR_TEXT ext.

(** A blank is a space, a newline or a tab.  [trimmed_of s out]: [out] is
    [s] without the blanks at its two ends, that is, [s] is blanks, then
    [out], then blanks, and [out] neither starts nor ends with a blank.
    There is one such [out] for every [s]. *)
Definition blank (c : ascii) : Prop :=
  (c = " " \/ c = "010" \/ c = "009")%char.

Definition trimmed_of (s out : list ascii) : Prop :=
  exists l r,
    s = l ++ out ++ r /\
    Forall blank l /\ Forall blank r /\
    (forall c, head out = Some c -> ~ blank c) /\
    (forall c, last out = Some c -> ~ blank c).

(** The slots when only [s] holds a session, and when none does. *)
Definition only (s : slot) : bool * bool * bool :=
  match s with
  | Encoder => (true, false, false)
  | Prefill => (false, true, false)
  | Decode => (false, false, true)
  end.

Definition none_loaded : bool * bool * bool := (false, false, false).

(** The staging discipline, event by event: a session is created while no
    slot is loaded; a session runs, and is released, while it is the only
    one loaded. *)
Definition staged (e : event * (bool * bool * bool)) : Prop :=
  match fst e with
  | EvCreateSession _ _ _ => snd e = none_loaded
  | EvReleaseSession s => snd e = only s
  | EvRun s => snd e = only s
  | EvRunDecode _ _ => snd e = only Decode
  end.

(** ** Hoare triples for [M]

    [hoare P m Q E]: from a world in [P], [m] ends in [Q] when it returns and
    in [E] when it jumps to [cleanup]. *)
Definition hoare {A} (P : world -> Prop) (m : M A) (Q : A -> world -> Prop)
    (E : world -> Prop) : Prop :=
  forall w, P w ->
    match m w with
    | (Some a, w') => Q a w'
    | (None, w') => E w'
    end.

(** The invariant of a call with [keep_sessions] off: the slots are [st] and
    the events since [w0] are staged. *)
Definition staged_since (w0 w : world) : Prop :=
  exists evs,
    trace (w_statics w) = trace (w_statics w0) ++ evs /\ Forall staged evs.

Definition inv (w0 : world) (st : bool * bool * bool) (w : world) : Prop :=
  keep_sessions (w_ctx w) = false /\
  loaded (w_ctx w) = st /\
  staged_since w0 w.

Definition at_most_one (st : bool * bool * bool) : Prop :=
  st = none_loaded \/ exists s, st = only s.

Definition inv_exit (w0 : world) (w : world) : Prop :=
  exists st, at_most_one st /\ inv w0 st w.

(** The policy flag and the slots, the two things the staging of
    [qwen_onnx_transcribe] depends on, and the slots after a session is put
    in slot [s]. *)
Definition policy (keep : bool) (st : bool * bool * bool) (w : world) : Prop :=
  keep_sessions (w_ctx w) = keep /\ loaded (w_ctx w) = st.

Definition with_slot (s : slot) (st : bool * bool * bool) : bool * bool * bool :=
  match s, st with
  | Encoder, (_, p, d) => (true, p, d)
  | Prefill, (e, _, d) => (e, true, d)
  | Decode, (e, p, _) => (e, p, true)
  end.

(** The text buffer is large enough for its text and the terminating NUL,
    after at most [n] pieces of at most 4096 bytes. *)
Definition text_fits (n : Z) (b : text_buf) : Prop :=
  4096 <= text_cap b /\
  text_len b + 1 <= text_cap b /\
  text_cap b <= 2 * text_len b + 8192 /\
  text_len b <= n * 4096.

Definition short_piece (p : option (list ascii)) : Prop :=
  forall s, p = Some s -> Z.of_nat (length s) <= 4096.

(** ** A small configuration for running the model

    A tokenizer with a handful of pieces, a model of hidden size 2 over a
    vocabulary of 8 tokens whose decode session always answers token 1, one
    frame of mel data, on a host that is not macOS, and the context that
    [qwen_onnx_load] returns there.  The table has only the rows of the 8
    tokens; a row outside it reads as zeros. *)
Module Fixture.

Definition decode_piece (t : Z) : option (list ascii) :=
  if t =? 151704 then Some (list_ascii_of_string "<asr_text>")
  else if t =? 9707 then Some (list_ascii_of_string " Hello")
  else if t =? 1879 then Some (list_ascii_of_string " world")
  else if t =? 198 then Some (list_ascii_of_string (String "010" EmptyString))
  else if t =? 11528 then Some (list_ascii_of_string "language")
  else if t =? 6364 then Some (list_ascii_of_string " English")
  else None.

Definition one : Z := 1065353216.
Definition two : Z := 1073741824.

Definition table : list Z :=
  [15360; 16384; 0; 48128; 15360; 0; 0; 15360;
   16384; 16384; 48128; 0; 1; 1023; 31744; 64512].

Definition ext : External unit :=
  {| QWEN_MEL_BINS := 128;
     QWEN_TOKEN_ASR_TEXT := 151704;
     TARGET_OS_OSX := false;
     sysconf_nprocessors := 8;
     qwen_tokenizer_load := true;
     mmap_embed_tokens := Some (8, 2, table);
     qwen_mel_spectrogram := fun _ _ => Some (replicate 128 one, 1);
     qwen_tokenizer_decode := decode_piece;
     check_ok := fun _ => true;
     session_options_ok := fun _ _ => true;
     CreateSession := fun s _ level =>
       match s, level with
       | Prefill, ORT_ENABLE_BASIC => false
       | _, _ => true
       end;
     SessionGetOutputCount := 57;
     Run_encoder := fun _ _ => Some (1, [one; two]);
     Run_prefill := fun _ _ => Some ([0; 0; one; 0; 0; 0; 0; 0], tt);
     Run_decode := fun _ _ _ => Some ([0; two; one; 0; 0; 0; 0; 0], tt) |}.

Definition ctx : qwen_onnx_ctx :=
  {| encoder := None;
     prefill := None;
     decode := None;
     embed_tokens_fp16 := table;
     vocab_size := 8;
     hidden_dim := 2;
     n_layers := 0;
     enc_threads := 6;
     dec_threads := 3;
     keep_sessions := false |}.

Definition statics0 : statics :=
  {| trace := []; last_n_tokens := 0; last_error := None |}.

(** A stream as the model produces it: language header, [<asr_text>], the
    transcript, end of turn. *)
Definition stream : list Z := [11528; 6364; 151704; 9707; 1879; 198; 151645].

End Fixture.

(** ** More checks on all 16-bit patterns *)

(** [fp16_to_f32] goes up from one pattern to the next. *)
Definition fp16_to_f32_step_check (h : Z) : bool :=
  (h =? 65535) || (fp16_to_f32 h <? fp16_to_f32 (h + 1)).

(** Flipping the sign bit before or after [fp16_to_f32] is the same. *)
Definition fp16_to_f32_neg_check (h : Z) : bool :=
  fp16_to_f32 (Z.lxor h 32768) =? Z.lxor (fp16_to_f32 h) 2147483648.

(** ** Reading the context and the statics after a call

    The fields of the context that describe the model and the policy: the
    embedding table, its dimensions, the thread counts and the
    [keep_sessions] flag. *)
Definition same_model (c c' : qwen_onnx_ctx) : Prop :=
  embed_tokens_fp16 c' = embed_tokens_fp16 c /\
  vocab_size c' = vocab_size c /\
  hidden_dim c' = hidden_dim c /\
  enc_threads c' = enc_threads c /\
  dec_threads c' = dec_threads c /\
  keep_sessions c' = keep_sessions c.

(** The layer count that the prefill session's output count gives. *)
Definition probed_layers {KV} (ext : External KV) : Z :=
  Z.quot (int32 (u64 (SessionGetOutputCount ext - 1))) 2.

(** [n_layers] is as before, or was 0 and is now the probed count. *)
Definition layers_step {KV} (ext : External KV) (c c' : qwen_onnx_ctx) : Prop :=
  n_layers c' = n_layers c \/
  (n_layers c = 0 /\ n_layers c' = probed_layers ext).

Definition framed {KV} (ext : External KV) (c c' : qwen_onnx_ctx) : Prop :=
  same_model c c' /\ layers_step ext c c'.

(** The three session slots hold what they held. *)
Definition same_sessions (c c' : qwen_onnx_ctx) : Prop :=
  encoder c' = encoder c /\ prefill c' = prefill c /\ decode c' = decode c.

(** An event that is a run of a session, with all three slots loaded. *)
Definition run_all_loaded (e : event * (bool * bool * bool)) : Prop :=
  match fst e with
  | EvRun _ | EvRunDecode _ _ => snd e = (true, true, true)
  | EvCreateSession _ _ _ | EvReleaseSession _ => False
  end.

(** The state of a call with [keep_sessions] on and the three sessions of
    [c0] loaded: the slots, the flag and the error message are those of
    [w0], and the events since [w0] are runs. *)
Definition kept (w0 w : world) : Prop :=
  keep_sessions (w_ctx w) = true /\
  loaded (w_ctx w) = (true, true, true) /\
  same_sessions (w_ctx w0) (w_ctx w) /\
  last_error (w_statics w) = last_error (w_statics w0) /\
  exists evs,
    trace (w_statics w) = trace (w_statics w0) ++ evs /\
    Forall run_all_loaded evs.

(** The successful creations and the releases among a list of events, in
    order. *)
Definition created (evs : list (event * (bool * bool * bool))) : list slot :=
  omap (fun e => match fst e with
                 | EvCreateSession s _ true => Some s
                 | _ => None
                 end) evs.

Definition released (evs : list (event * (bool * bool * bool))) : list slot :=
  omap (fun e => match fst e with
                 | EvReleaseSession s => Some s
                 | _ => None
                 end) evs.

(** The slots that hold a session, in the order in which [qwen_onnx_load]
    fills them and [qwen_onnx_free] empties them. *)
Definition loaded_slots (c : qwen_onnx_ctx) : list slot :=
  match encoder c with Some _ => [Encoder] | None => [] end ++
  match prefill c with Some _ => [Prefill] | None => [] end ++
  match decode c with Some _ => [Decode] | None => [] end.

(** The sessions are accounted for: those released since [w0] and those
    held now are those held at [w0] and those created since. *)
Definition balanced (w0 w : world) : Prop :=
  exists evs,
    trace (w_statics w) = trace (w_statics w0) ++ evs /\
    Permutation (released evs ++ loaded_slots (w_ctx w))
                (loaded_slots (w_ctx w0) ++ created evs).

(** A level at which the session options are built and [CreateSession]
    fails: the fallback moves on to the next one. *)
Definition level_fails {KV} (ext : External KV) (s : slot) (threads : Z)
    (level : GraphOptimizationLevel) : Prop :=
  session_options_ok ext s level = true /\
  CreateSession ext s threads level = false.

(** ** A desktop configuration

    A macOS host ([keep_sessions] on) on which the decode session cannot
    be created at any level. *)
Module FixtureOSX.

Definition ext : External unit :=
  {| QWEN_MEL_BINS := 128;
     QWEN_TOKEN_ASR_TEXT := 151704;
     TARGET_OS_OSX := true;
     sysconf_nprocessors := 4;
     qwen_tokenizer_load := true;
     mmap_embed_tokens := Some (8, 2, Fixture.table);
     qwen_mel_spectrogram := fun _ _ => None;
     qwen_tokenizer_decode := fun _ => None;
     check_ok := fun _ => true;
     session_options_ok := fun _ _ => true;
     CreateSession := fun s _ _ => match s with Decode => false | _ => true end;
     SessionGetOutputCount := 57;
     Run_encoder := fun _ _ => None;
     Run_prefill := fun _ _ => None;
     Run_decode := fun _ _ _ => None |}.

End FixtureOSX.

(** ** The name tables of stages 4 and 5

    [pf_out_names], [dc_out_names] (of [1 + MAX_DEC_LAYERS * 2] entries),
    [dc_in_names] and [dc_inputs] (of [2 + MAX_DEC_LAYERS * 2] entries) are
    arrays on the stack.  The entries that the loops over the layers write
    depend on [n_layers]; here are their indices, in the order written.
    [layer_slots base n_layers] are the indices [base + i] and
    [base + n_layers + i] of the two loops [for (i = 0; i < n_layers; i++)]. *)
Definition layer_slots (base n_layers : Z) : list Z :=
  ((fun i => int32 (base + i)) <$> seqZ 0 n_layers) ++
  ((fun i => int32 (int32 (base + n_layers) + i)) <$> seqZ 0 n_layers).

Definition pf_out_names_written (n_layers : Z) : list Z :=
  0 :: layer_slots 1 n_layers.

Definition dc_in_names_written (n_layers : Z) : list Z :=
  0 :: 1 :: layer_slots 2 n_layers.

Definition dc_out_names_written (n_layers : Z) : list Z :=
  0 :: layer_slots 1 n_layers.

(** [dc_inputs[2 + i] = kv_caches[i]] for [i < n_kv], with
    [n_kv = 2 * n_layers]. *)
Definition dc_inputs_written (n_layers : Z) : list Z :=
  0 :: 1 :: ((fun i => int32 (2 + i)) <$> seqZ 0 (int32 (2 * n_layers))).

Definition in_array (size : Z) (indices : list Z) : Prop :=
  Forall (fun i => 0 <= i < size) indices.

(** ** NPY files

    A file is the list of its bytes.  [fread file pos size n] is
    [fread(buf, size, n, f)] with the stream at [pos]: the callers give up
    unless all [n] items are read, so the result is the bytes of the [n]
    items, or nothing when fewer are left.  Allocations are taken to
    succeed (the code does not test them); the theorems about the loaders
    assume a file shorter than 4 GiB, so that [hdr_len + 1] does not wrap
    in [malloc(hdr_len + 1)]. *)
Definition fread (file : list Z) (pos size n : Z) : option (list Z) :=
  if pos + size * n <=? Z.of_nat (length file)
  then Some (take (Z.to_nat (size * n)) (drop (Z.to_nat pos) file))
  else None.

Definition byte_at (p : list Z) (i : Z) : Z := nth (Z.to_nat i) p 0.

(** The six bytes of ["\x93NUMPY"]. *)
Definition NPY_MAGIC : list Z := [147; 78; 85; 77; 80; 89].

(** [memcmp(p, "\x93NUMPY", 6) == 0] *)
Definition has_magic (p : list Z) : bool := bool_decide (take 6 p = NPY_MAGIC).

(** [(uint32_t)h8 | ((uint32_t)h9 << 8)], and the four-byte length of the
    other versions. *)
Definition hdr_len_v1 (h8 h9 : Z) : Z :=
  Z.lor (u32 h8) (u32 (Z.shiftl (u32 h9) 8)).

Definition hdr_len_v2 (h8 h9 e0 e1 : Z) : Z :=
  Z.lor (Z.lor (Z.lor (u32 h8) (u32 (Z.shiftl (u32 h9) 8)))
               (u32 (Z.shiftl (u32 e0) 16)))
        (u32 (Z.shiftl (u32 e1) 24)).

(** *** C strings

    A string is the list of its bytes before the NUL.  [strstr] and
    [strchr] return the string from the place found. *)
Fixpoint c_str (s : list Z) : list Z :=
  match s with
  | [] => []
  | ch :: rest => if ch =? 0 then [] else ch :: c_str rest
  end.

Fixpoint starts_with (needle s : list Z) : bool :=
  match needle, s with
  | [], _ => true
  | _ :: _, [] => false
  | a :: needle', b :: s' => (a =? b) && starts_with needle' s'
  end.

Fixpoint strstr (s needle : list Z) : option (list Z) :=
  if starts_with needle s then Some s
  else match s with
       | [] => None
       | _ :: rest => strstr rest needle
       end.

Fixpoint strchr (s : list Z) (ch : Z) : option (list Z) :=
  match s with
  | [] => None
  | x :: rest => if x =? ch then Some s else strchr rest ch
  end.

(** The strings ['<f2'], ["<f2"] (quotes included) and [shape], and the
    character of the opening parenthesis. *)
Definition STR_F2_SINGLE : list Z := [39; 60; 102; 50; 39].
Definition STR_F2_DOUBLE : list Z := [34; 60; 102; 50; 34].
Definition STR_SHAPE : list Z := [115; 104; 97; 112; 101].
Definition CHAR_LPAREN : Z := 40.

(** The cells of a buffer of bytes read as [uint16_t] and as 32-bit words,
    on a little-endian host. *)
Fixpoint cells16 (bytes : list Z) : list Z :=
  match bytes with
  | b0 :: b1 :: rest => (b0 + 256 * b1) :: cells16 rest
  | _ => []
  end.

Fixpoint cells32 (bytes : list Z) : list Z :=
  match bytes with
  | b0 :: b1 :: b2 :: b3 :: rest =>
      (b0 + 256 * b1 + 65536 * b2 + 16777216 * b3) :: cells32 rest
  | _ => []
  end.

(** *** A model of [sscanf(s, "%d, %d", &r, &c)]

    The values left in [r] and [c], both 0 before the call: [%d] skips
    white space and reads an optional sign and decimal digits; the comma
    must follow the first number at once; white space may follow the
    comma.  A number outside [int] is not modelled (C leaves the result
    undefined). *)
Module Libc.

Definition isspace (ch : Z) : bool := (ch =? 32) || ((9 <=? ch) && (ch <=? 13)).

Definition isdigit (ch : Z) : bool := (48 <=? ch) && (ch <=? 57).

Fixpoint skip_spaces (s : list Z) : list Z :=
  match s with
  | [] => []
  | ch :: rest => if isspace ch then skip_spaces rest else s
  end.

Fixpoint scan_digits (s : list Z) (acc : Z) : Z * list Z :=
  match s with
  | [] => (acc, [])
  | ch :: rest =>
      if isdigit ch then scan_digits rest (10 * acc + (ch - 48)) else (acc, s)
  end.

Definition scan_int (s : list Z) : option (Z * list Z) :=
  let s1 := skip_spaces s in
  let '(neg, s2) :=
    match s1 with
    | 45 :: rest => (true, rest)
    | 43 :: rest => (false, rest)
    | _ => (false, s1)
    end in
  match s2 with
  | [] => None
  | ch :: _ =>
      if isdigit ch
      then let '(v, rest) := scan_digits s2 0 in
           Some (if neg : bool then - v else v, rest)
      else None
  end.

Definition sscanf_d_d (s : list Z) : Z * Z :=
  match scan_int s with
  | None => (0, 0)
  | Some (r, s1) =>
      match s1 with
      | 44 :: s2 =>
          match scan_int s2 with
          | Some (c, _) => (r, c)
          | None => (r, 0)
          end
      | _ => (r, 0)
      end
  end.

End Libc.

(** *** The three loaders

    [sscanf_d_d] stands for the call of [sscanf]: the values it leaves in
    the two [int]s for a given string. *)
Section Npy.

Variable sscanf_d_d : list Z -> Z * Z.

(** The dtype test of the three loaders. *)
Definition is_fp16_hdr (hdr_str : list Z) : bool :=
  bool_decide (is_Some (strstr hdr_str STR_F2_SINGLE)) ||
  bool_decide (is_Some (strstr hdr_str STR_F2_DOUBLE)).

(** The shape test of the three loaders: [sp], [lp], the two [int]s and
    the test [r <= 0 || c <= 0]. *)
Definition parse_shape (hdr_str : list Z) : option (Z * Z) :=
  match strstr hdr_str STR_SHAPE with
  | None => None
  | Some sp =>
      match strchr sp CHAR_LPAREN with
      | None => None
      | Some lp =>
          let '(r0, c0) := sscanf_d_d (tail lp) in
          let r := int32 r0 in
          let c := int32 c0 in
          if (r <=? 0) || (c <=? 0) then None else Some (r, c)
      end
  end.

(** The start of [load_npy] and [load_npy_fp16]: magic, version, header
    length, header string.  The result is the header string and the
    position of the stream after it. *)
Definition read_npy_header (file : list Z) : option (list Z * Z) :=
  match fread file 0 1 10 with
  | None => None
  | Some header =>
      if negb (has_magic header) then None
      else
        let major := byte_at header 6 in
        let len_pos :=
          if major =? 1
          then Some (hdr_len_v1 (byte_at header 8) (byte_at header 9), 10)
          else
            match fread file 10 1 2 with
            | None => None
            | Some extra =>
                Some (hdr_len_v2 (byte_at header 8) (byte_at header 9)
                        (byte_at extra 0) (byte_at extra 1), 12)
            end in
        match len_pos with
        | None => None
        | Some (hdr_len, pos) =>
            match fread file pos 1 hdr_len with
            | None => None
            | Some hdr_bytes => Some (c_str hdr_bytes, pos + hdr_len)
            end
        end
  end.

(** [load_npy]: rows, columns and the data as [float]s. *)
Definition load_npy (file : list Z) : option (Z * Z * list Z) :=
  match read_npy_header file with
  | None => None
  | Some (hdr_str, pos) =>
      let is_fp16 := is_fp16_hdr hdr_str in
      match parse_shape hdr_str with
      | None => None
      | Some (r, c) =>
          let n_elements := u64 (u64 r * u64 c) in
          if is_fp16 then
            match fread file pos 2 n_elements with
            | None => None
            | Some buf => Some (r, c, fp16_to_f32 <$> cells16 buf)
            end
          else
            match fread file pos 4 n_elements with
            | None => None
            | Some data => Some (r, c, cells32 data)
            end
      end
  end.

(** [load_npy_fp16]: rows, columns and the data as [uint16_t]s. *)
Definition load_npy_fp16 (file : list Z) : option (Z * Z * list Z) :=
  match read_npy_header file with
  | None => None
  | Some (hdr_str, pos) =>
      let is_fp16 := is_fp16_hdr hdr_str in
      match parse_shape hdr_str with
      | None => None
      | Some (r, c) =>
          let n_elements := u64 (u64 r * u64 c) in
          if is_fp16 then
            match fread file pos 2 n_elements with
            | None => None
            | Some data => Some (r, c, cells16 data)
            end
          else
            match fread file pos 4 n_elements with
            | None => None
            | Some tmp => Some (r, c, f32_to_fp16 <$> cells32 tmp)
            end
      end
  end.

(** [mmap_npy_fp16] on a file that was opened and mapped: rows, columns
    and the offset of the pointer returned into the mapping.  The sums
    [10 + hdr_len] and [12 + hdr_len] are computed in [uint32_t] before
    they are stored in [data_offset].  A byte read outside the mapping is
    given the value 0; the theorems about [mmap_npy_fp16] assume the header
    inside the file. *)
Definition mmap_npy_fp16 (file : list Z) : option (Z * Z * Z) :=
  let p := file in
  if negb (has_magic p) then None
  else
    let major := byte_at p 6 in
    let '(hdr_len, data_offset) :=
      if major =? 1
      then let hdr_len := hdr_len_v1 (byte_at p 8) (byte_at p 9) in
           (hdr_len, u64 (u32 (10 + hdr_len)))
      else let hdr_len := hdr_len_v2 (byte_at p 8) (byte_at p 9)
                            (byte_at p 10) (byte_at p 11) in
           (hdr_len, u64 (u32 (12 + hdr_len))) in
    let hdr_str :=
      c_str (take (Z.to_nat hdr_len)
               (drop (Z.to_nat (u64 (data_offset - hdr_len))) p)) in
    let is_fp16 := is_fp16_hdr hdr_str in
    if negb is_fp16 then None
    else
      match parse_shape hdr_str with
      | None => None
      | Some (r, c) => Some (r, c, data_offset)
      end.

End Npy.

(** The [uint16_t] cells behind a pointer at offset [off] of a mapping. *)
Definition mapped_cells (file : list Z) (off : Z) : list Z :=
  cells16 (drop (Z.to_nat off) file).

(** An NPY file of version 1 with a 2 x 2 array of binary16, its header
    being [{'descr': '<f2', 'shape': (2, 2), }] and a newline. *)
Module FixtureNpy.

Definition header : list Z :=
  [123; 39; 100; 101; 115; 99; 114; 39; 58; 32; 39; 60; 102; 50; 39; 44; 32;
   39; 115; 104; 97; 112; 101; 39; 58; 32; 40; 50; 44; 32; 50; 41; 44; 32;
   125; 10].

Definition file : list Z :=
  NPY_MAGIC ++ [1; 0; 36; 0] ++ header ++ [0; 60; 0; 64; 0; 0; 0; 188].

End FixtureNpy.

(** ** Reading an NPY file

    The header length that the version byte selects, the offset of the
    data, and the header string, as the three loaders find them. *)
Definition npy_hdr_len (file : list Z) : Z :=
  if byte_at file 6 =? 1
  then hdr_len_v1 (byte_at file 8) (byte_at file 9)
  else hdr_len_v2 (byte_at file 8) (byte_at file 9)
         (byte_at file 10) (byte_at file 11).

Definition npy_hdr_pos (file : list Z) : Z :=
  if byte_at file 6 =? 1 then 10 else 12.

Definition npy_data_offset (file : list Z) : Z :=
  npy_hdr_pos file + npy_hdr_len file.

Definition npy_hdr_str (file : list Z) : list Z :=
  c_str (take (Z.to_nat (npy_hdr_len file))
           (drop (Z.to_nat (npy_hdr_pos file)) file)).

(** * Properties *)

(** ** Machine integers *)

Section MachineIntFacts.

Lemma u16_small x : 0 <= x < 2 ^ 16 -> u16 x = x.
Proof. intros H. unfold u16, wrap. apply Z.mod_small. exact H. Qed.

Lemma u32_small x : 0 <= x < 2 ^ 32 -> u32 x = x.
Proof. intros H. unfold u32, wrap. apply Z.mod_small. exact H. Qed.

Lemma u64_small x : 0 <= x < 2 ^ 64 -> u64 x = x.
Proof. intros H. unfold u64, wrap. apply Z.mod_small. exact H. Qed.

Lemma int32_small x : - 2 ^ 31 <= x <= INT_MAX -> int32 x = x.
Proof.
  unfold int32, wrap, INT_MAX. intros H.
  destruct (Z.le_gt_cases 0 x) as [Hx | Hx].
  - rewrite Z.mod_small by lia.
    destruct (Z.ltb_spec x (2 ^ 31)); lia.
  - assert (Hm : x mod 2 ^ 32 = x + 2 ^ 32).
    { symmetry. apply Z.mod_unique with (q := -1); lia. }
    rewrite Hm. destruct (Z.ltb_spec (x + 2 ^ 32) (2 ^ 31)); lia.
Qed.

Lemma int32_u32 x : int32 (u32 x) = int32 x.
Proof. unfold int32, u32, wrap. rewrite Z.mod_mod by lia. reflexivity. Qed.

Lemma u32_add_l x y : u32 (u32 x + y) = u32 (x + y).
Proof. unfold u32, wrap. apply Zplus_mod_idemp_l. Qed.

End MachineIntFacts.

(** ** Bit fields *)

Section BitFacts.

Lemma forall_bits_sound (f : Z -> bool) (n : nat) :
  forall prefix x,
    forall_bits n f prefix = true ->
    0 <= x < 2 ^ Z.of_nat n ->
    f (prefix * 2 ^ Z.of_nat n + x) = true.
Proof.
  induction n as [| n IH]; intros prefix x Hall Hx.
  - simpl in Hall. change (2 ^ Z.of_nat 0) with 1 in *.
    replace (prefix * 1 + x) with prefix by lia. exact Hall.
  - simpl in Hall. apply andb_true_iff in Hall as [H0 H1].
    rewrite Nat2Z.inj_succ, Z.pow_succ_r in * by lia.
    destruct (Z.lt_ge_cases x (2 ^ Z.of_nat n)) as [Hlo | Hhi].
    + replace (prefix * (2 * 2 ^ Z.of_nat n) + x)
        with ((2 * prefix) * 2 ^ Z.of_nat n + x) by lia.
      apply IH; [exact H0 | lia].
    + replace (prefix * (2 * 2 ^ Z.of_nat n) + x)
        with ((2 * prefix + 1) * 2 ^ Z.of_nat n + (x - 2 ^ Z.of_nat n)) by lia.
      apply IH; [exact H1 | lia].
Qed.

Lemma all_u16 (f : Z -> bool) :
  forall_bits 16 f 0 = true -> forall h, 0 <= h < 65536 -> f h = true.
Proof.
  intros Hall h Hh.
  apply (forall_bits_sound f 16 0 h Hall). simpl. lia.
Qed.

Lemma ieee_eqb_eq a b : ieee_eqb a b = true -> a = b.
Proof.
  destruct a, b; simpl; try discriminate; intros H.
  - apply andb_true_iff in H as [Hs Hm].
    apply Bool.eqb_prop in Hs. apply Z.eqb_eq in Hm. congruence.
  - apply Bool.eqb_prop in H. congruence.
  - apply andb_true_iff in H as [Hs Hm].
    apply Bool.eqb_prop in Hs. apply Z.eqb_eq in Hm. congruence.
Qed.

(** A mask with one bit set selects that bit. *)
Lemma land_pow2 a n :
  0 <= n -> Z.land a (2 ^ n) = Z.b2z (Z.testbit a n) * 2 ^ n.
Proof.
  intros Hn. apply Z.bits_inj'. intros i Hi.
  rewrite Z.land_spec, Z.pow2_bits_eqb by lia.
  destruct (Z.eqb_spec n i) as [-> | Hne].
  - rewrite andb_true_r.
    destruct (Z.testbit a i); simpl.
    + rewrite Z.mul_1_l, Z.pow2_bits_true by lia. reflexivity.
    + rewrite Z.testbit_0_l. reflexivity.
  - rewrite andb_false_r.
    destruct (Z.testbit a n); simpl.
    + rewrite Z.mul_1_l, Z.pow2_bits_false by lia. reflexivity.
    + rewrite Z.testbit_0_l. reflexivity.
Qed.

(** Fields that do not overlap are put together by [Z.lor] as by [+]. *)
Lemma lor_fields hi lo n :
  0 <= n -> 0 <= lo < 2 ^ n -> Z.lor (hi * 2 ^ n) lo = hi * 2 ^ n + lo.
Proof.
  intros Hn Hlo. symmetry. apply Z.add_nocarry_lor.
  apply Z.bits_inj'. intros i Hi.
  rewrite Z.land_spec, Z.bits_0.
  destruct (Z.lt_ge_cases i n) as [Hlt | Hge].
  - rewrite Z.mul_pow2_bits_low by lia. reflexivity.
  - assert (Z.testbit lo i = false) as ->; [| apply andb_false_r].
    destruct (Z.eq_dec lo 0) as [-> | Hnz]; [apply Z.bits_0 |].
    apply Z.bits_above_log2; [lia |].
    apply Z.log2_lt_pow2; [lia |].
    apply Z.lt_le_trans with (2 ^ n); [lia |].
    apply Z.pow_le_mono_r; lia.
Qed.

Lemma testbit_field a n (b : bool) lo :
  0 <= n -> 0 <= lo < 2 ^ n -> a = Z.b2z b * 2 ^ n + lo -> Z.testbit a n = b.
Proof.
  intros Hn Hlo ->.
  apply Z.testbit_unique with (l := lo) (h := 0); [exact Hlo | lia].
Qed.

End BitFacts.

(** ** Half-precision codec *)

Section Codec.

(** The renormalisation loop leaves by its own test: bit 10 of the
    mantissa is set when [renorm] returns, for every subnormal mantissa. *)
Lemma renorm_exits (mant : Z) :
  0 < mant < 1024 -> Z.land (fst (renorm 10 mant 1)) 1024 <> 0.
Proof.
  intros Hm.
  assert (Hc : renorm_exit_check mant = true).
  { apply all_u16; [vm_compute; reflexivity | lia]. }
  unfold renorm_exit_check in Hc.
  apply orb_true_iff in Hc as [Hc | Hc].
  - apply orb_true_iff in Hc as [Hc | Hc].
    + apply Z.eqb_eq in Hc. lia.
    + apply Z.leb_le in Hc. lia.
  - apply negb_true_iff, Z.eqb_neq in Hc. exact Hc.
Qed.

(** C6. [fp16_to_f32] is exact: for every 16-bit pattern, the binary32
    pattern it returns denotes the same IEEE 754 datum.  Zeros keep their
    sign ([Fin s 0]), subnormals become the binary32 number of the same
    value, exponent field 31 gives the infinity of the same sign or a NaN
    of the same sign with the payload in the top mantissa bits, and a
    normal number has its exponent rebiased by 127 - 15 and the same
    mantissa bits, shifted to the top of the 23-bit field. *)
Theorem fp16_to_f32_exact (h : Z) :
  0 <= h < 65536 ->
  0 <= fp16_to_f32 h < 2 ^ 32 /\
  Binary32.decode (fp16_to_f32 h) = widen (Binary16.decode h) /\
  (Binary16.exp_field h = 31 ->
     Binary32.exp_field (fp16_to_f32 h) = 255 /\
     Binary32.mant_field (fp16_to_f32 h) = Binary16.mant_field h * 2 ^ 13) /\
  (0 < Binary16.exp_field h < 31 ->
     Binary32.exp_field (fp16_to_f32 h) = Binary16.exp_field h + 127 - 15 /\
     Binary32.mant_field (fp16_to_f32 h) = Binary16.mant_field h * 2 ^ 13).
Proof.
  intros Hh.
  assert (Hc : fp16_to_f32_check h = true).
  { apply all_u16; [vm_compute; reflexivity | exact Hh]. }
  unfold fp16_to_f32_check in Hc.
  apply andb_true_iff in Hc as [Hc Hfields].
  apply andb_true_iff in Hc as [Hc Hval].
  apply andb_true_iff in Hc as [Hlo Hhi].
  apply Z.leb_le in Hlo. apply Z.ltb_lt in Hhi. apply ieee_eqb_eq in Hval.
  split; [lia |]. split; [exact Hval |].
  destruct (Z.eqb_spec (Binary16.exp_field h) 0) as [He0 | He0].
  { split; intros He; lia. }
  destruct (Z.eqb_spec (Binary16.exp_field h) 31) as [He31 | He31];
    apply andb_true_iff in Hfields as [Hf1 Hf2];
    apply Z.eqb_eq in Hf1; apply Z.eqb_eq in Hf2.
  - split; intros He; [split; assumption | lia].
  - split; intros He; [lia | split; assumption].
Qed.

(** C4, as the code has it.  For every 16-bit pattern outside the NaN
    band, binary16 -> binary32 -> binary16 gives back exactly the same bits
    when the pattern is a zero, a normal number or an infinity; a subnormal
    pattern comes back as the zero of its sign. *)
Theorem fp16_roundtrip_exact_or_flushed (h : Z) :
  0 <= h < 65536 ->
  Binary16.is_nan h = false ->
  (Binary16.is_subnormal h = false -> fp16_roundtrip h = h) /\
  (Binary16.is_subnormal h = true ->
     Binary16.decode (fp16_roundtrip h) = Fin (Binary16.sign_bit h) 0).
Proof.
  intros Hh Hnan.
  assert (Hc : fp16_roundtrip_check h = true).
  { apply all_u16; [vm_compute; reflexivity | exact Hh]. }
  unfold fp16_roundtrip_check in Hc. rewrite Hnan, orb_false_l in Hc.
  destruct (Binary16.is_subnormal h).
  - split; [discriminate |]. intros _. apply ieee_eqb_eq. exact Hc.
  - split; [| discriminate]. intros _. apply Z.eqb_eq. exact Hc.
Qed.

(** C4, as stated, fails at the largest positive subnormal [0x03FF]: the
    round trip gives [+0], which is 1023 units in the last place away. *)
Lemma fp16_roundtrip_not_within_one_ulp :
  0 <= 1023 < 65536 /\
  Binary16.is_nan 1023 = false /\
  fp16_roundtrip 1023 = 0 /\
  ~ (fp16_roundtrip 1023 = 1023 \/ within_one_ulp 1023 (fp16_roundtrip 1023)).
Proof.
  split; [lia |]. split; [reflexivity |].
  assert (Hrt : fp16_roundtrip 1023 = 0) by (vm_compute; reflexivity).
  split; [exact Hrt |].
  rewrite Hrt. intros [Heq | Hulp].
  - discriminate Heq.
  - vm_compute in Hulp. destruct Hulp as [_ Hle]. apply Hle. reflexivity.
Qed.

Lemma fp16_to_f32_exact_witness :
  0 <= 15360 < 65536 /\
  Binary32.decode (fp16_to_f32 15360) = widen (Binary16.decode 15360).
Proof.
  split; [lia |].
  apply (fp16_to_f32_exact 15360). lia.
Defined.

Lemma fp16_roundtrip_witness :
  0 <= 48128 < 65536 /\ Binary16.is_nan 48128 = false /\
  fp16_roundtrip 48128 = 48128.
Proof.
  split; [lia |]. split; [reflexivity |].
  apply (fp16_roundtrip_exact_or_flushed 48128); [lia | reflexivity | reflexivity].
Defined.

End Codec.

(** ** The fallback binary32 -> binary16 conversion *)

(** The three fields of a binary16 pattern assembled from them. *)
Lemma binary16_fields (sg : bool) (ex mt : Z) :
  0 <= ex < 32 -> 0 <= mt < 1024 ->
  let r := Z.b2z sg * 2 ^ 15 + ex * 2 ^ 10 + mt in
  0 <= r < 2 ^ 16 /\
  Binary16.sign_bit r = sg /\
  Binary16.exp_field r = ex /\
  Binary16.mant_field r = mt.
Proof.
  intros Hex Hmt r.
  assert (Hsg : 0 <= Z.b2z sg <= 1) by (destruct sg; simpl; lia).
  split; [subst r; lia |].
  split; [| split].
  - unfold Binary16.sign_bit.
    apply testbit_field with (lo := ex * 2 ^ 10 + mt); [lia | lia | subst r; lia].
  - unfold Binary16.exp_field.
    change 31 with (Z.ones 5). rewrite Z.land_ones, Z.shiftr_div_pow2 by lia.
    subst r. change (2 ^ 15) with 32768. change (2 ^ 10) with 1024.
    change (2 ^ 5) with 32.
    Z.div_mod_to_equations. lia.
  - unfold Binary16.mant_field.
    change 1023 with (Z.ones 10). rewrite Z.land_ones by lia.
    subst r. change (2 ^ 15) with 32768. change (2 ^ 10) with 1024.
    Z.div_mod_to_equations. lia.
Qed.

Section Fallback.

Variable bits : Z.

Let e := Binary32.exp_field bits.
Let m := Binary32.mant_field bits.
Let s := Binary32.sign_bit bits.

Lemma f32_exp_field_range : 0 <= e < 256.
Proof.
  unfold e, Binary32.exp_field.
  change 255 with (Z.ones 8). rewrite Z.land_ones by lia.
  apply Z.mod_pos_bound. lia.
Qed.

Lemma f32_mant_field_range : 0 <= m < 8388608.
Proof.
  unfold m, Binary32.mant_field.
  change 8388607 with (Z.ones 23). rewrite Z.land_ones by lia.
  apply Z.mod_pos_bound. lia.
Qed.

(** The rebiased exponent, as the code computes it through unsigned
    arithmetic and a conversion to [int32_t]. *)
Lemma f32_exp_val_rebias : f32_exp_val bits = e - 127 + 15.
Proof.
  pose proof f32_exp_field_range as He.
  unfold f32_exp_val. fold (Binary32.exp_field bits). fold e.
  rewrite u32_add_l, int32_u32.
  apply int32_small. unfold INT_MAX. lia.
Qed.

Lemma f32_sign_mask :
  Z.land (Z.shiftr bits 16) 32768 = Z.b2z s * 2 ^ 15.
Proof.
  change 32768 with (2 ^ 15). rewrite land_pow2 by lia.
  rewrite Z.shiftr_spec by lia. reflexivity.
Qed.

Lemma f32_mant_top :
  Z.land (Z.shiftr bits 13) 1023 = m / 2 ^ 13.
Proof.
  unfold m, Binary32.mant_field.
  change 1023 with (Z.ones 10). change 8388607 with (Z.ones 23).
  rewrite !Z.land_ones, Z.shiftr_div_pow2 by lia.
  change (2 ^ 13) with 8192. change (2 ^ 10) with 1024.
  change (2 ^ 23) with 8388608.
  Z.div_mod_to_equations. lia.
Qed.

(** The value [f32_to_fp16] returns, field by field. *)
Lemma f32_to_fp16_fields :
  f32_to_fp16 bits =
    if e - 127 + 15 <=? 0 then Z.b2z s * 2 ^ 15
    else if 31 <=? e - 127 + 15 then Z.b2z s * 2 ^ 15 + 31 * 2 ^ 10
    else Z.b2z s * 2 ^ 15 + (e - 127 + 15) * 2 ^ 10 + m / 2 ^ 13.
Proof.
  pose proof f32_exp_field_range as He.
  pose proof f32_mant_field_range as Hm.
  assert (Hsg : 0 <= Z.b2z s <= 1) by (destruct s; simpl; lia).
  assert (Hq : 0 <= m / 2 ^ 13 < 1024).
  { change (2 ^ 13) with 8192. Z.div_mod_to_equations. lia. }
  unfold f32_to_fp16.
  rewrite f32_exp_val_rebias, f32_sign_mask, f32_mant_top.
  destruct (Z.leb_spec (e - 127 + 15) 0) as [Hlo | Hlo].
  { apply u16_small. lia. }
  destruct (Z.leb_spec 31 (e - 127 + 15)) as [Hhi | Hhi].
  { change 31744 with (31 * 2 ^ 10).
    replace (Z.b2z s * 2 ^ 15) with ((Z.b2z s * 32) * 2 ^ 10) by lia.
    rewrite Z.lor_comm, <- (Z.mul_1_l (31 * 2 ^ 10)) at 1.
    destruct s; simpl; reflexivity. }
  rewrite (u32_small (e - 127 + 15)) by lia.
  rewrite Z.shiftl_mul_pow2 by lia.
  rewrite u32_small by lia.
  replace (Z.b2z s * 2 ^ 15) with ((Z.b2z s * 32) * 2 ^ 10) by lia.
  rewrite <- Z.lor_assoc.
  rewrite (lor_fields (e - 127 + 15) (m / 2 ^ 13) 10) by lia.
  replace (Z.b2z s * 32 * 2 ^ 10) with (Z.b2z s * 2 ^ 15) by lia.
  rewrite (lor_fields (Z.b2z s) ((e - 127 + 15) * 2 ^ 10 + m / 2 ^ 13) 15) by lia.
  rewrite u16_small by lia. lia.
Qed.

End Fallback.

(** C7. The fallback conversion of [load_npy_fp16], for every binary32
    pattern, with [E] the exponent rebiased from 127 to 15: when [E <= 0]
    the result is the zero of the input's sign; when [E >= 31] it is the
    infinity of the input's sign; otherwise it has the input's sign, the
    exponent field [E] and the top ten bits of the input's mantissa, the
    thirteen low bits being dropped, so that its magnitude is at most the
    input's and less than one unit in the last place below it. *)
Theorem f32_to_fp16_truncates (bits : Z) :
  0 <= bits < 2 ^ 32 ->
  let E := Binary32.exp_field bits - 127 + 15 in
  let r := f32_to_fp16 bits in
  let s := Binary32.sign_bit bits in
  f32_exp_val bits = E /\
  (E <= 0 -> Binary16.decode r = Fin s 0) /\
  (31 <= E -> Binary16.decode r = Inf s) /\
  (0 < E < 31 ->
     Binary16.sign_bit r = s /\
     Binary16.exp_field r = E /\
     Binary16.mant_field r = Binary32.mant_field bits / 2 ^ 13 /\
     exists m16 m32,
       Binary16.decode r = Fin s m16 /\
       Binary32.decode bits = Fin s m32 /\
       m16 * 2 ^ 125 <= m32 < (m16 + Binary16.ulp r) * 2 ^ 125).
Proof.
  intros Hbits E r s.
  pose proof (f32_exp_field_range bits) as He.
  pose proof (f32_mant_field_range bits) as Hm.
  pose proof (f32_to_fp16_fields bits) as Hr.
  fold r in Hr. fold E in Hr. fold s in Hr.
  assert (Hq : 0 <= Binary32.mant_field bits / 2 ^ 13 < 1024).
  { change (2 ^ 13) with 8192. Z.div_mod_to_equations. lia. }
  split; [apply f32_exp_val_rebias |].
  split; [| split].
  - intros HE.
    destruct (Z.leb_spec E 0); [| lia].
    destruct (binary16_fields s 0 0) as (_ & Hs & Hx & Hmt); [lia | lia |].
    rewrite Z.mul_0_l, !Z.add_0_r, <- Hr in Hs, Hx, Hmt.
    unfold Binary16.decode. rewrite Hs, Hx, Hmt. reflexivity.
  - intros HE.
    destruct (Z.leb_spec E 0); [lia |].
    destruct (Z.leb_spec 31 E); [| lia].
    destruct (binary16_fields s 31 0) as (_ & Hs & Hx & Hmt); [lia | lia |].
    rewrite Z.add_0_r, <- Hr in Hs, Hx, Hmt.
    unfold Binary16.decode. rewrite Hs, Hx, Hmt. reflexivity.
  - intros HE.
    destruct (Z.leb_spec E 0); [lia |].
    destruct (Z.leb_spec 31 E); [lia |].
    destruct (binary16_fields s E (Binary32.mant_field bits / 2 ^ 13))
      as (_ & Hs & Hx & Hmt); [lia | lia |].
    rewrite <- Hr in Hs, Hx, Hmt.
    split; [exact Hs |]. split; [exact Hx |]. split; [exact Hmt |].
    exists ((1024 + Binary32.mant_field bits / 2 ^ 13) * 2 ^ (E - 1)),
           ((8388608 + Binary32.mant_field bits) * 2 ^ (Binary32.exp_field bits - 1)).
    split; [| split].
    + unfold Binary16.decode. rewrite Hs, Hx, Hmt.
      destruct (Z.eqb_spec E 31); [lia |].
      destruct (Z.eqb_spec E 0); [lia |]. reflexivity.
    + unfold Binary32.decode. fold s.
      destruct (Z.eqb_spec (Binary32.exp_field bits) 255); [lia |].
      destruct (Z.eqb_spec (Binary32.exp_field bits) 0); [lia |]. reflexivity.
    + unfold Binary16.ulp. rewrite Hx.
      destruct (Z.eqb_spec E 0); [lia |].
      replace (Binary32.exp_field bits - 1) with ((E - 1) + 112) by lia.
      rewrite Z.pow_add_r by lia.
      change (2 ^ 125) with (2 ^ 13 * 2 ^ 112).
      assert (Hk : 0 < 2 ^ (E - 1)) by (apply Z.pow_pos_nonneg; lia).
      assert (Hc : 0 < 2 ^ 112) by (apply Z.pow_pos_nonneg; lia).
      set (q := Binary32.mant_field bits / 2 ^ 13) in *.
      assert (Hdiv : (1024 + q) * 2 ^ 13 <= 8388608 + Binary32.mant_field bits
                     < (1024 + q + 1) * 2 ^ 13).
      { subst q. change (2 ^ 13) with 8192. Z.div_mod_to_equations. lia. }
      set (K := 2 ^ (E - 1)) in *. set (C := 2 ^ 112) in *.
      set (mf := Binary32.mant_field bits) in *.
      set (P13 := 2 ^ 13) in *.
      assert (HKC : 0 < K * C) by lia.
      split.
      * replace ((1024 + q) * K * (P13 * C))
          with (((1024 + q) * P13) * (K * C)) by ring.
        apply Z.mul_le_mono_nonneg_r; lia.
      * replace (((1024 + q) * K + K) * (P13 * C))
          with (((1024 + q + 1) * P13) * (K * C)) by ring.
        apply Z.mul_lt_mono_pos_r; lia.
Qed.

Lemma f32_to_fp16_truncates_witness :
  0 <= 1065361407 < 2 ^ 32 /\ f32_exp_val 1065361407 = 15 /\
  Binary16.mant_field (f32_to_fp16 1065361407) = 0.
Proof.
  pose proof (f32_to_fp16_truncates 1065361407) as H.
  split; [lia |].
  destruct H as (Hev & _ & _ & Hn); [lia |].
  split; [exact Hev |].
  destruct Hn as (_ & _ & Hmt & _); [vm_compute; split; reflexivity |].
  exact Hmt.
Defined.

(** ** Stage 1: padding of the mel spectrogram *)

Section MelPadding.

(** The frame count after padding is the least multiple of [CHUNK_SIZE]
    not below [n_frames]. *)
Lemma padded_frames_least_multiple (n_frames : Z) :
  0 <= n_frames <= INT_MAX - 99 ->
  padded_frames n_frames mod CHUNK_SIZE = 0 /\
  n_frames <= padded_frames n_frames < n_frames + CHUNK_SIZE.
Proof.
  unfold padded_frames, pad_frames, CHUNK_SIZE, INT_MAX. intros Hn.
  assert (Hr : Z.rem n_frames 100 = n_frames mod 100).
  { apply Z.rem_mod_nonneg; lia. }
  rewrite Hr.
  assert (Hm : 0 <= n_frames mod 100 < 100) by (apply Z.mod_pos_bound; lia).
  rewrite (int32_small (100 - n_frames mod 100)) by (unfold INT_MAX; lia).
  rewrite Z.rem_mod_nonneg by lia.
  assert (Hp : 0 <= (100 - n_frames mod 100) mod 100 < 100)
    by (apply Z.mod_pos_bound; lia).
  rewrite int32_small by (unfold INT_MAX; lia).
  split; [| Z.div_mod_to_equations; lia].
  Z.div_mod_to_equations. lia.
Qed.

(** No padding when the frame count is already a multiple. *)
Lemma pad_frames_multiple (n_frames : Z) :
  0 <= n_frames -> n_frames mod CHUNK_SIZE = 0 -> pad_frames n_frames = 0.
Proof.
  unfold pad_frames, CHUNK_SIZE. intros Hn Hm.
  rewrite (Z.rem_mod_nonneg n_frames 100), Hm by lia.
  reflexivity.
Qed.

Lemma pad_mel_multiple (bins : Z) (mel : list Z) (n_frames : Z) :
  0 <= n_frames <= INT_MAX -> n_frames mod CHUNK_SIZE = 0 ->
  pad_mel bins mel n_frames = mel /\ padded_frames n_frames = n_frames.
Proof.
  intros Hn Hm. unfold pad_mel, padded_frames.
  rewrite pad_frames_multiple by (assumption || lia). simpl.
  split; [reflexivity |].
  rewrite Z.add_0_r. apply int32_small. unfold INT_MAX in *. lia.
Qed.

(** What the padding code leaves in the new buffer: the old buffer as one
    block at the front, zeros behind it. *)
Lemma pad_mel_flat (bins : Z) (mel : list Z) (n_frames : Z) :
  0 <= bins -> 0 <= n_frames <= INT_MAX - 99 ->
  bins * (n_frames + 99) < 2 ^ 64 ->
  length mel = Z.to_nat (bins * n_frames) ->
  0 < pad_frames n_frames ->
  pad_mel bins mel n_frames =
    mel ++ replicate (Z.to_nat (bins * (padded_frames n_frames - n_frames))) 0.
Proof.
  intros Hb Hn Hsz Hlen Hpad.
  pose proof (padded_frames_least_multiple n_frames Hn) as [_ Hpf].
  unfold CHUNK_SIZE in Hpf.
  unfold pad_mel.
  destruct (Z.ltb_spec 0 (pad_frames n_frames)) as [_ | Hc]; [| lia].
  unfold memcpy, calloc. unfold INT_MAX in Hn.
  rewrite (u64_small bins) by nia.
  rewrite (u64_small n_frames) by lia.
  rewrite (u64_small (padded_frames n_frames)) by lia.
  rewrite !u64_small by nia.
  rewrite firstn_all2 by lia.
  replace (Z.to_nat (bins * padded_frames n_frames))
    with (length mel + Z.to_nat (bins * (padded_frames n_frames - n_frames)))%nat
    by nia.
  rewrite replicate_add.
  change (Z.to_nat 0) with 0%nat.
  rewrite list_inserts_0_r by (rewrite length_replicate; reflexivity).
  reflexivity.
Qed.

End MelPadding.

(** C8 at a failing input: one frame of 128 bins, the cells holding the
    distinct non-zero patterns 1, ..., 128 (so bin [b] of frame 0 holds
    [b + 1]).  The frame count is padded to 100, but in the tensor of shape
    [128 x 100] frame 0 of bin 1 holds 101 where the extractor had 2, and the
    appended frame 1 of bin 0 holds 2, not zero. *)
Theorem pad_mel_flat_copy_misaligns :
  let mel := seqZ 1 128 in
  let padded := pad_mel 128 mel 1 in
  padded_frames 1 = 100 /\
  Z.of_nat (length padded) = 128 * 100 /\
  mel_at mel 1 1 0 = 2 /\
  mel_at padded 100 1 0 = 101 /\
  mel_at padded 100 0 1 = 2.
Proof.
  vm_compute. repeat split; reflexivity.
Qed.

(** ** Embedding store and prompt buffer *)

Section PromptBuffer.

Variable embed_fp16 : list Z.
Variable hidden : Z.
Hypothesis hidden_nonneg : 0 <= hidden.

Lemma length_row_f32 row i cnt : length (row_f32 embed_fp16 row i cnt) = cnt.
Proof. unfold row_f32. rewrite length_fmap, length_seqZ. lia. Qed.

Lemma embed_token_loop_inserts row off (cnt : nat) :
  forall i out,
    0 <= i -> 0 <= off ->
    embed_token_loop embed_fp16 row cnt i out off =
      list_inserts (Z.to_nat (off + i)) (row_f32 embed_fp16 row i cnt) out.
Proof.
  induction cnt as [| cnt IH]; intros i out Hi Hoff.
  - reflexivity.
  - cbn [embed_token_loop]. rewrite IH by lia.
    unfold row_f32. rewrite Nat2Z.inj_succ, (seqZ_cons i) by lia.
    rewrite fmap_cons. cbn [list_inserts].
    replace (Z.to_nat (off + (i + 1))) with (S (Z.to_nat (off + i))) by lia.
    rewrite list_insert_inserts_lt by lia.
    replace (Z.pred (Z.succ (Z.of_nat cnt))) with (Z.of_nat cnt) by lia.
    replace (Z.succ i) with (i + 1) by lia.
    reflexivity.
Qed.

Lemma embed_token_fp16_inserts token out off :
  0 <= off ->
  embed_token_fp16 embed_fp16 token hidden out off =
    list_inserts (Z.to_nat off)
      (row_f32 embed_fp16 (u64 (u64 token * u64 hidden)) 0 (Z.to_nat hidden)) out.
Proof.
  intros Hoff. unfold embed_token_fp16.
  rewrite embed_token_loop_inserts by lia.
  rewrite Z.add_0_r. reflexivity.
Qed.

Lemma embedding_row token :
  embedding embed_fp16 token hidden =
    row_f32 embed_fp16 (u64 (u64 token * u64 hidden)) 0 (Z.to_nat hidden).
Proof.
  unfold embedding, calloc. rewrite embed_token_fp16_inserts by lia.
  change (Z.to_nat 0) with 0%nat.
  rewrite <- (app_nil_r (replicate _ _)).
  rewrite list_inserts_0_r by (rewrite length_row_f32, length_replicate; reflexivity).
  apply app_nil_r.
Qed.

Lemma length_embedding token :
  length (embedding embed_fp16 token hidden) = Z.to_nat hidden.
Proof. rewrite embedding_row. apply length_row_f32. Qed.

Lemma length_embeddings tokens :
  length (embeddings embed_fp16 hidden tokens) = (length tokens * Z.to_nat hidden)%nat.
Proof.
  unfold embeddings. induction tokens as [| t rest IH]; [reflexivity |].
  rewrite fmap_cons. cbn [concat length].
  rewrite length_app, length_embedding, IH. lia.
Qed.

Lemma embed_tokens_at_inserts (tokens : list Z) (base : Z) :
  forall i buf,
    0 <= base -> 0 <= i ->
    (base + i + Z.of_nat (length tokens)) * hidden <= INT_MAX ->
    base + i + Z.of_nat (length tokens) <= INT_MAX ->
    embed_tokens_at embed_fp16 hidden tokens base i buf =
      list_inserts (Z.to_nat ((base + i) * hidden))
        (embeddings embed_fp16 hidden tokens) buf.
Proof.
  unfold INT_MAX.
  induction tokens as [| t rest IH]; intros i buf Hbase Hi Hmul Hsum.
  - reflexivity.
  - cbn [embed_tokens_at length] in *.
    rewrite IH by lia.
    rewrite (int32_small (base + i)) by (unfold INT_MAX; lia).
    rewrite int32_small by (unfold INT_MAX; nia).
    rewrite embed_token_fp16_inserts by nia.
    rewrite <- embedding_row.
    unfold embeddings. rewrite fmap_cons. cbn [concat].
    rewrite list_inserts_app_l, length_embedding.
    replace (Z.to_nat ((base + (i + 1)) * hidden))
      with (Z.to_nat hidden + Z.to_nat ((base + i) * hidden))%nat by nia.
    reflexivity.
Qed.

(** Three blocks written one after the other from the start of a buffer
    that they fill. *)
Lemma list_inserts_cover (k1 k2 k3 l : list Z) :
  length l = (length k1 + length k2 + length k3)%nat ->
  list_inserts (length k1 + length k2) k3
    (list_inserts (length k1) k2 (list_inserts 0 k1 l)) = k1 ++ k2 ++ k3.
Proof.
  intros Hlen.
  rewrite <- (take_drop (length k1) l).
  rewrite <- (take_drop (length k2) (drop (length k1) l)).
  set (l1 := take (length k1) l).
  set (l2 := take (length k2) (drop (length k1) l)).
  set (l3 := drop (length k2) (drop (length k1) l)).
  assert (H1 : length l1 = length k1) by (subst l1; rewrite length_take; lia).
  assert (H2 : length l2 = length k2)
    by (subst l2; rewrite length_take, length_drop; lia).
  assert (H3 : length l3 = length k3)
    by (subst l3; rewrite !length_drop; lia).
  assert (E1 : list_inserts 0 k1 (l1 ++ l2 ++ l3) = k1 ++ l2 ++ l3)
    by (apply list_inserts_0_r; symmetry; exact H1).
  assert (E2 : list_inserts (length k1) k2 (k1 ++ l2 ++ l3) = k1 ++ k2 ++ l3).
  { pose proof (list_inserts_app_r k2 k1 (l2 ++ l3) 0) as E.
    rewrite Nat.add_0_r in E. rewrite E.
    rewrite list_inserts_0_r by (symmetry; exact H2). reflexivity. }
  assert (E3 : list_inserts (length k1 + length k2) k3 (k1 ++ k2 ++ l3)
               = k1 ++ k2 ++ k3).
  { pose proof (list_inserts_app_r k3 (k1 ++ k2) l3 0) as E.
    rewrite Nat.add_0_r, length_app, <- app_assoc in E. rewrite E.
    rewrite <- (app_nil_r l3).
    rewrite list_inserts_0_r by (symmetry; exact H3).
    rewrite app_nil_r, <- app_assoc. reflexivity. }
  rewrite E1, E2, E3. reflexivity.
Qed.

(** The buffer after the two loops and the [memcpy], whatever it held
    before. *)
Lemma fill_input_embeds_layout (n_audio : Z) (audio_embeds buf : list Z) :
  0 <= n_audio ->
  n_audio + 15 <= INT_MAX ->
  (n_audio + 15) * hidden <= INT_MAX ->
  length audio_embeds = Z.to_nat (n_audio * hidden) ->
  length buf = Z.to_nat ((9 + n_audio + 6) * hidden) ->
  fill_input_embeds embed_fp16 hidden n_audio audio_embeds buf =
    embeddings embed_fp16 hidden PROMPT_PREFIX ++ audio_embeds ++
    embeddings embed_fp16 hidden PROMPT_SUFFIX.
Proof.
  unfold INT_MAX. intros Hn Hsum Hmul Haudio Hbuf.
  unfold fill_input_embeds, memcpy, N_PREFIX.
  rewrite !embed_tokens_at_inserts
    by (unfold INT_MAX; cbn [length PROMPT_PREFIX PROMPT_SUFFIX];
        rewrite ?int32_small by (unfold INT_MAX; lia); nia).
  rewrite (int32_small (9 + n_audio)) by (unfold INT_MAX; lia).
  rewrite (int32_small (9 * hidden)) by (unfold INT_MAX; nia).
  rewrite (u64_small n_audio), (u64_small hidden) by nia.
  rewrite u64_small by nia.
  rewrite firstn_all2 by lia.
  rewrite <- (list_inserts_cover (embeddings embed_fp16 hidden PROMPT_PREFIX)
                audio_embeds (embeddings embed_fp16 hidden PROMPT_SUFFIX) buf).
  - rewrite !length_embeddings, Haudio. cbn [length PROMPT_PREFIX].
    replace (Z.to_nat ((0 + 0) * hidden)) with 0%nat by lia.
    replace (Z.to_nat (9 * hidden)) with (9 * Z.to_nat hidden)%nat by lia.
    replace (Z.to_nat ((9 + n_audio + 0) * hidden))
      with (9 * Z.to_nat hidden + Z.to_nat (n_audio * hidden))%nat by nia.
    reflexivity.
  - rewrite !length_embeddings, Haudio, Hbuf.
    cbn [length PROMPT_PREFIX PROMPT_SUFFIX]. nia.
Qed.

End PromptBuffer.

(** The converted cells of a row that lies inside the table are the
    converted slice of the table. *)
Lemma row_f32_slice (embed_fp16 : list Z) (hidden row : Z) :
  0 <= hidden -> 0 <= row ->
  row + hidden <= Z.of_nat (length embed_fp16) ->
  row_f32 embed_fp16 row 0 (Z.to_nat hidden) =
    fp16_to_f32 <$> take (Z.to_nat hidden) (drop (Z.to_nat row) embed_fp16).
Proof.
  intros Hh Hrow Hin. unfold row_f32. apply list_eq. intros i.
  rewrite !list_lookup_fmap.
  destruct (decide (i < Z.to_nat hidden)%nat) as [Hi | Hi].
  - rewrite lookup_seqZ_lt, lookup_take_lt, lookup_drop by lia.
    destruct (lookup_lt_is_Some_2 embed_fp16 (Z.to_nat row + i) ltac:(lia))
      as [h Hh'].
    rewrite Hh'. cbn. rewrite nth_lookup.
    replace (Z.to_nat (row + (0 + Z.of_nat i))) with (Z.to_nat row + i)%nat by lia.
    rewrite Hh'. reflexivity.
  - rewrite lookup_seqZ_ge, lookup_take_ge by lia. reflexivity.
Qed.

(** C2. For an encoder output of [n_audio] rows of [hidden] floats and a
    table that holds the rows of the token ids of the prompt (the largest
    is 151670), the prompt embedding buffer that [qwen_onnx_transcribe]
    builds has [prompt_len = 9 + n_audio + 6] rows of [hidden] floats: for
    each of the nine tokens of [PROMPT_PREFIX], in order, the [hidden]
    cells of its row of the table, each converted by [fp16_to_f32]; then
    the encoder output unchanged; then the converted rows of the six tokens
    of [PROMPT_SUFFIX]; the two arrays hold the ids of the
    specification. *)
Theorem build_input_embeds_layout (embed_fp16 : list Z) (hidden n_audio : Z)
    (audio_embeds : list Z) :
  0 <= hidden ->
  0 <= n_audio ->
  n_audio + 15 <= INT_MAX ->
  (n_audio + 15) * hidden <= INT_MAX ->
  length audio_embeds = Z.to_nat (n_audio * hidden) ->
  151671 * hidden <= Z.of_nat (length embed_fp16) ->
  let row t :=
    fp16_to_f32 <$>
      take (Z.to_nat hidden) (drop (Z.to_nat (t * hidden)) embed_fp16) in
  PROMPT_PREFIX = [151644; 8948; 198; 151645; 198; 151644; 872; 198; 151669] /\
  PROMPT_SUFFIX = [151670; 151645; 198; 151644; 77091; 198] /\
  prompt_len n_audio = 9 + n_audio + 6 /\
  Forall (fun t => length (row t) = Z.to_nat hidden)
    (PROMPT_PREFIX ++ PROMPT_SUFFIX) /\
  build_input_embeds embed_fp16 hidden n_audio audio_embeds =
    concat (row <$> PROMPT_PREFIX) ++ audio_embeds ++ concat (row <$> PROMPT_SUFFIX) /\
  length (build_input_embeds embed_fp16 hidden n_audio audio_embeds) =
    Z.to_nat (prompt_len n_audio * hidden).
Proof.
  intros Hh Hn Hsum Hmul Haudio Htable row.
  assert (Hplen : prompt_len n_audio = 9 + n_audio + 6).
  { unfold prompt_len, N_PREFIX, N_SUFFIX, INT_MAX in *.
    rewrite (int32_small (9 + n_audio)) by (unfold INT_MAX; lia).
    apply int32_small. unfold INT_MAX. lia. }
  assert (Hrow : forall t, 0 <= t <= 151670 ->
                           embedding embed_fp16 t hidden = row t).
  { intros t Ht. rewrite embedding_row by exact Hh.
    unfold INT_MAX in *.
    rewrite (u64_small t), (u64_small hidden) by lia.
    rewrite u64_small by nia.
    apply row_f32_slice; [exact Hh | nia | nia]. }
  assert (Hids : Forall (fun t => 0 <= t <= 151670)
                   (PROMPT_PREFIX ++ PROMPT_SUFFIX)).
  { unfold PROMPT_PREFIX, PROMPT_SUFFIX. cbn [app].
    repeat (constructor; [lia |]). constructor. }
  assert (Hrows : forall tokens,
            Forall (fun t => 0 <= t <= 151670) tokens ->
            embeddings embed_fp16 hidden tokens = concat (row <$> tokens)).
  { intros tokens Hall. unfold embeddings. f_equal.
    apply Forall_fmap_ext. eapply Forall_impl; [exact Hall |].
    intros t Ht. apply Hrow, Ht. }
  apply Forall_app in Hids as [Hpre Hsuf].
  assert (Hbuild :
    build_input_embeds embed_fp16 hidden n_audio audio_embeds =
      concat (row <$> PROMPT_PREFIX) ++ audio_embeds ++ concat (row <$> PROMPT_SUFFIX)).
  { unfold build_input_embeds.
    rewrite <- (Hrows PROMPT_PREFIX Hpre), <- (Hrows PROMPT_SUFFIX Hsuf).
    apply fill_input_embeds_layout; try assumption.
    unfold calloc. rewrite length_replicate, Hplen.
    unfold INT_MAX in *.
    rewrite (u64_small (9 + n_audio + 6)), (u64_small hidden) by nia.
    rewrite u64_small by nia. reflexivity. }
  split; [reflexivity |]. split; [reflexivity |]. split; [exact Hplen |].
  split.
  { apply Forall_app. split.
    - eapply Forall_impl; [exact Hpre |]. intros t Ht. cbv beta.
      rewrite <- (Hrow t Ht). apply length_embedding; exact Hh.
    - eapply Forall_impl; [exact Hsuf |]. intros t Ht. cbv beta.
      rewrite <- (Hrow t Ht). apply length_embedding; exact Hh. }
  split; [exact Hbuild |].
  rewrite Hbuild, Hplen.
  rewrite <- (Hrows PROMPT_PREFIX Hpre), <- (Hrows PROMPT_SUFFIX Hsuf).
  rewrite !length_app, !length_embeddings, Haudio by exact Hh.
  cbn [length PROMPT_PREFIX PROMPT_SUFFIX]. nia.
Qed.

Lemma build_input_embeds_layout_witness :
  let table := replicate (Z.to_nat (151936 * 2)) 15360 in
  let audio := [1065353216; 1073741824; 0; 3212836864] in
  0 <= 2 /\ 0 <= 2 /\ 2 + 15 <= INT_MAX /\ (2 + 15) * 2 <= INT_MAX /\
  length audio = Z.to_nat (2 * 2) /\
  151671 * 2 <= Z.of_nat (length table) /\
  build_input_embeds table 2 2 audio =
    replicate 18 1065353216 ++ audio ++ replicate 12 1065353216 /\
  build_input_embeds table 2 2 audio =
    concat ((fun t => fp16_to_f32 <$> take (Z.to_nat 2) (drop (Z.to_nat (t * 2)) table))
              <$> PROMPT_PREFIX) ++ audio ++
    concat ((fun t => fp16_to_f32 <$> take (Z.to_nat 2) (drop (Z.to_nat (t * 2)) table))
              <$> PROMPT_SUFFIX).
Proof.
  cbv zeta. unfold INT_MAX.
  assert (Htable : 151671 * 2 <=
                   Z.of_nat (length (replicate (Z.to_nat (151936 * 2)) 15360))).
  { rewrite length_replicate. lia. }
  split; [lia |]. split; [lia |]. split; [lia |]. split; [lia |].
  split; [reflexivity |]. split; [exact Htable |].
  split; [vm_compute; reflexivity |].
  apply (build_input_embeds_layout (replicate (Z.to_nat (151936 * 2)) 15360)
           2 2 [1065353216; 1073741824; 0; 3212836864]);
    unfold INT_MAX; first [exact Htable | lia | reflexivity].
Defined.

(** ** [argmax_f32] *)

Section Argmax.

Lemma f32_key_not_nan f :
  Binary32.is_nan f = false -> exists k, f32_key f = Some k.
Proof.
  unfold Binary32.is_nan, f32_key, Binary32.decode. intros Hn.
  destruct (Binary32.exp_field f =? 255).
  - simpl in Hn. apply negb_false_iff in Hn. rewrite Hn. eexists. reflexivity.
  - destruct (Binary32.exp_field f =? 0); eexists; reflexivity.
Qed.

Variable data : list Z.
Variable n : Z.
Hypothesis no_nan :
  forall j, 0 <= j < n -> Binary32.is_nan (cell data j) = false.

Lemma cell_key j : 0 <= j < n -> exists k, f32_key (cell data j) = Some k.
Proof. intros Hj. apply f32_key_not_nan, no_nan, Hj. Qed.

Lemma argmax_scan_first_max (cnt : nat) :
  forall i best,
    0 <= best < i ->
    i + Z.of_nat cnt = n ->
    (forall j, 0 <= j < i -> f32_le (cell data j) (cell data best) = true) ->
    (forall j, 0 <= j < best -> f32_gt (cell data best) (cell data j) = true) ->
    first_index_of_max data n (argmax_scan data cnt i best (cell data best)).
Proof.
  induction cnt as [| cnt IH]; intros i best Hbest Hn Hle Hgt.
  - cbn [argmax_scan]. unfold first_index_of_max.
    replace n with i by lia. auto.
  - cbn [argmax_scan]. fold (cell data i).
    destruct (cell_key i) as [ki Hki]; [lia |].
    destruct (cell_key best) as [kb Hkb]; [lia |].
    destruct (f32_gt (cell data i) (cell data best)) eqn:Hcmp.
    + apply IH; [lia | lia | |].
      * intros j Hj. destruct (Z.eq_dec j i) as [-> | Hne].
        { unfold f32_le. rewrite Hki. apply Z.leb_refl. }
        specialize (Hle j ltac:(lia)).
        destruct (cell_key j) as [kj Hkj]; [lia |].
        unfold f32_le, f32_gt in *. rewrite Hki, Hkb, ?Hkj in *.
        apply Z.ltb_lt in Hcmp. apply Z.leb_le in Hle. apply Z.leb_le. lia.
      * intros j Hj.
        specialize (Hle j ltac:(lia)).
        destruct (cell_key j) as [kj Hkj]; [lia |].
        unfold f32_le, f32_gt in *. rewrite Hki, Hkb, ?Hkj in *.
        apply Z.ltb_lt in Hcmp. apply Z.leb_le in Hle. apply Z.ltb_lt. lia.
    + apply IH; [lia | lia | | exact Hgt].
      intros j Hj. destruct (Z.eq_dec j i) as [-> | Hne]; [| apply Hle; lia].
      unfold f32_le, f32_gt in *. rewrite Hki, Hkb in *.
      apply Z.ltb_ge in Hcmp. apply Z.leb_le. lia.
Qed.

End Argmax.

(** The decode loop leaves the context as it found it. *)
Lemma decode_loop_ctx {KV} (ext : External KV) plen (remaining : nat) :
  forall step token generated buf kv w,
    w_ctx (snd (decode_loop ext plen remaining step token generated buf kv w))
    = w_ctx w.
Proof.
  induction remaining as [| rem IH]; intros step token generated buf kv w.
  - reflexivity.
  - cbn [decode_loop]. destruct (is_eos token); [reflexivity |].
    unfold bind, get_ctx, emit, of_option, check. cbn.
    destruct (Run_decode ext _ _ kv) as [[logits kv'] |]; [| reflexivity].
    cbn. destruct (check_ok ext (DecodeGetData step)); [| reflexivity].
    cbn. rewrite IH. reflexivity.
Qed.

(** The tokens the loop produces depend on the state of the process only
    through the embedding table and its dimensions. *)
Lemma decode_loop_tokens {KV} (ext : External KV) plen (remaining : nat) :
  forall step token generated buf kv w1 w2,
    embed_tokens_fp16 (w_ctx w1) = embed_tokens_fp16 (w_ctx w2) ->
    hidden_dim (w_ctx w1) = hidden_dim (w_ctx w2) ->
    vocab_size (w_ctx w1) = vocab_size (w_ctx w2) ->
    fst (decode_loop ext plen remaining step token generated buf kv w1)
    = fst (decode_loop ext plen remaining step token generated buf kv w2).
Proof.
  induction remaining as [| rem IH]; intros step token generated buf kv w1 w2 He Hh Hv.
  - reflexivity.
  - cbn [decode_loop]. destruct (is_eos token); [reflexivity |].
    unfold bind, get_ctx, emit, of_option, check. cbn.
    rewrite He, Hh.
    destruct (Run_decode ext _ _ kv) as [[logits kv'] |]; [| reflexivity].
    cbn. destruct (check_ok ext (DecodeGetData step)); [| reflexivity].
    cbn. rewrite Hv. apply IH; assumption.
Qed.

(** C10, as the code has it.  For a non-empty array of floats none of which
    is a NaN, [argmax_f32] returns the smallest index at which the maximum
    is reached: no cell compares greater than the one returned and the one
    returned compares greater than every cell before it.  The tokens of the
    decode loop are then a function of the model, the embedding table, the
    first token and the caches that the prefill computed from the prompt
    embeddings: two runs that agree on these produce the same tokens,
    whatever else differs in the state of the process. *)
Theorem argmax_f32_first_max (data : list Z) (n : Z) :
  0 < n <= Z.of_nat (length data) ->
  (forall j, 0 <= j < n -> Binary32.is_nan (cell data j) = false) ->
  first_index_of_max data n (argmax_f32 data n) /\
  (forall KV (ext : External KV) plen remaining step token generated buf kv w1 w2,
     embed_tokens_fp16 (w_ctx w1) = embed_tokens_fp16 (w_ctx w2) ->
     hidden_dim (w_ctx w1) = hidden_dim (w_ctx w2) ->
     vocab_size (w_ctx w1) = vocab_size (w_ctx w2) ->
     fst (decode_loop ext plen remaining step token generated buf kv w1)
     = fst (decode_loop ext plen remaining step token generated buf kv w2)).
Proof.
  intros Hn Hnan. split.
  - unfold argmax_f32. change (nth 0 data 0) with (cell data 0).
    apply argmax_scan_first_max; [exact Hnan | lia | lia | |].
    + intros j Hj. replace j with 0 by lia.
      destruct (f32_key_not_nan (cell data 0)) as [k Hk]; [apply Hnan; lia |].
      unfold f32_le. rewrite Hk. apply Z.leb_refl.
    + intros j Hj. lia.
  - intros KV ext plen remaining. apply decode_loop_tokens.
Qed.

(** C10, as stated, fails on an array that starts with a NaN: on
    [{NaN, 1.0f}] the scan keeps index 0, because [1.0f > NaN] is false,
    although cell 0 holds no number and cell 1 holds the only one. *)
Lemma argmax_f32_nan_first :
  let data := [2143289344; 1065353216] in
  0 < 2 <= Z.of_nat (length data) /\
  Binary32.is_nan (cell data 0) = true /\
  Binary32.decode (cell data 1) = Fin false (8388608 * 2 ^ 126) /\
  argmax_f32 data 2 = 0 /\
  ~ first_index_of_max data 2 (argmax_f32 data 2).
Proof.
  cbv zeta.
  assert (Hr : argmax_f32 [2143289344; 1065353216] 2 = 0) by (vm_compute; reflexivity).
  split; [simpl; lia |].
  split; [vm_compute; reflexivity |].
  split; [vm_compute; reflexivity |].
  split; [exact Hr |].
  rewrite Hr. intros (_ & Hle & _).
  specialize (Hle 1 ltac:(lia)). vm_compute in Hle. discriminate Hle.
Qed.

Lemma argmax_f32_first_max_witness :
  let data := [1065353216; 1073741824; 3212836864; 1073741824] in
  0 < 4 <= Z.of_nat (length data) /\
  first_index_of_max data 4 (argmax_f32 data 4) /\ argmax_f32 data 4 = 1.
Proof.
  cbv zeta. split; [simpl; lia |]. split; [| vm_compute; reflexivity].
  apply (argmax_f32_first_max [1065353216; 1073741824; 3212836864; 1073741824] 4).
  - simpl. lia.
  - intros j Hj.
    assert (Hc : j = 0 \/ j = 1 \/ j = 2 \/ j = 3) by lia.
    destruct Hc as [-> | [-> | [-> | ->]]]; vm_compute; reflexivity.
Defined.

(** ** Stage 5: the decode loop *)

Section DecodeLoop.

Context {KV : Type} (ext : External KV) (plen : Z).

(** A token of the EOS set stops the loop at the head of the iteration:
    nothing is run and nothing changes. *)
Lemma decode_loop_eos (remaining : nat) step token generated buf kv w :
  is_eos token = true ->
  decode_loop ext plen remaining step token generated buf kv w
  = (Some generated, w).
Proof.
  intros He. destruct remaining as [| rem]; [reflexivity |].
  cbn [decode_loop]. rewrite He. reflexivity.
Qed.

(** One iteration, written out. *)
Lemma decode_loop_step (rem : nat) step token generated buf kv w :
  decode_loop ext plen (S rem) step token generated buf kv w =
    if is_eos token then (Some generated, w)
    else
      let w1 := snd (emit (EvRunDecode step token) w) in
      let buf' := embed_token_fp16 (embed_tokens_fp16 (w_ctx w)) token
                    (hidden_dim (w_ctx w)) buf 0 in
      match Run_decode ext buf' (int32 (plen + step)) kv with
      | None => (None, w1)
      | Some (logits, kv') =>
          if check_ok ext (DecodeGetData step)
          then
            let token' := argmax_f32 logits (vocab_size (w_ctx w)) in
            decode_loop ext plen rem (step + 1) token'
              (generated ++ [token']) buf' kv' w1
          else (None, w1)
      end.
Proof.
  cbn [decode_loop]. destruct (is_eos token); [reflexivity |].
  unfold bind, get_ctx, emit, of_option, check, ret, goto_cleanup. cbn.
  destruct (Run_decode ext _ _ kv) as [[logits kv'] |]; [| reflexivity].
  destruct (check_ok ext (DecodeGetData step)); reflexivity.
Qed.

Lemma decode_loop_trace (remaining : nat) :
  forall step token pre buf kv w,
    Forall (fun t => is_eos t = false) pre ->
    let res := decode_loop ext plen remaining step token (pre ++ [token]) buf kv w in
    exists evs,
      trace (w_statics (snd res)) = trace (w_statics w) ++ evs /\
      (length evs <= remaining)%nat /\
      Forall (decode_run_at w step (step + Z.of_nat remaining)) evs /\
      forall generated,
        fst res = Some generated ->
        length generated = (length pre + 1 + length evs)%nat /\
        exists pre' final,
          generated = pre' ++ [final] /\
          Forall (fun t => is_eos t = false) pre'.
Proof.
  induction remaining as [| rem IH]; intros step token pre buf kv w Hpre res.
  - exists []. subst res. cbn. rewrite app_nil_r.
    split; [reflexivity |]. split; [lia |]. split; [constructor |].
    intros g [= <-]. rewrite length_app. cbn. split; [lia |].
    exists pre, token. split; [reflexivity | exact Hpre].
  - subst res. rewrite decode_loop_step.
    destruct (is_eos token) eqn:Heos.
    { exists []. cbn. rewrite app_nil_r.
      split; [reflexivity |]. split; [lia |]. split; [constructor |].
      intros g [= <-]. rewrite length_app. cbn. split; [lia |].
      exists pre, token. split; [reflexivity | exact Hpre]. }
    cbv zeta.
    set (w1 := snd (emit (EvRunDecode step token) w)).
    set (ev := (EvRunDecode step token, loaded (w_ctx w))).
    assert (Hw1 : trace (w_statics w1) = trace (w_statics w) ++ [ev])
      by reflexivity.
    assert (Hctx : w_ctx w1 = w_ctx w) by reflexivity.
    assert (Hev : decode_run_at w step (step + Z.of_nat (S rem)) ev).
    { exists step, token. split; [reflexivity |]. split; [lia | exact Heos]. }
    assert (Hstop : exists evs,
               trace (w_statics (snd (@None (list Z), w1)))
               = trace (w_statics w) ++ evs /\
               (length evs <= S rem)%nat /\
               Forall (decode_run_at w step (step + Z.of_nat (S rem))) evs /\
               forall generated,
                 fst (@None (list Z), w1) = Some generated ->
                 length generated = (length pre + 1 + length evs)%nat /\
                 exists pre' final,
                   generated = pre' ++ [final] /\
                   Forall (fun t => is_eos t = false) pre').
    { exists [ev]. split; [exact Hw1 |]. split; [cbn; lia |].
      split; [constructor; [exact Hev | constructor] | discriminate]. }
    destruct (Run_decode ext _ _ kv) as [[logits kv'] |]; [| exact Hstop].
    destruct (check_ok ext (DecodeGetData step)); [| exact Hstop].
    set (token' := argmax_f32 logits (vocab_size (w_ctx w))).
    destruct (IH (step + 1) token' (pre ++ [token])
                (embed_token_fp16 (embed_tokens_fp16 (w_ctx w)) token
                   (hidden_dim (w_ctx w)) buf 0) kv' w1)
      as (evs & Htr & Hlen & Hall & Hgen).
    { apply Forall_app. split; [exact Hpre |].
      constructor; [exact Heos | constructor]. }
    exists (ev :: evs).
    split; [rewrite Htr, Hw1, <- app_assoc; reflexivity |].
    split; [cbn; lia |].
    split.
    { constructor; [exact Hev |].
      eapply Forall_impl; [exact Hall |].
      intros e (st & tk & -> & Hst & Htk).
      exists st, tk. rewrite Hctx. split; [reflexivity |].
      split; [lia | exact Htk]. }
    intros g Hg. destruct (Hgen g Hg) as (Hl & pre' & final & -> & Hpre').
    split; [rewrite Hl, length_app; cbn; lia |].
    exists pre', final. split; [reflexivity | exact Hpre'].
Qed.

End DecodeLoop.

(** C3. The decode loop of [qwen_onnx_transcribe] is a total function of the
    model's outputs; whatever they are, it runs the decode session at most
    [MAX_NEW_TOKENS - 1 = 1023] times, one run per iteration, and never on a
    token of the EOS set; when it ends normally the stream, prefill token
    included, holds at most [MAX_NEW_TOKENS = 1024] tokens, one more than the
    runs made, and only its last token can be an EOS.  Entered with a token
    of the EOS set, the loop returns at once without a run. *)
Theorem decode_loop_bounded {KV} (ext : External KV) (plen first_token : Z)
    (buf : list Z) (kv : KV) (w : world) :
  let res := decode_loop ext plen (Z.to_nat (MAX_NEW_TOKENS - 1)) 0
               first_token [first_token] buf kv w in
  MAX_NEW_TOKENS - 1 = 1023 /\
  (exists evs,
     trace (w_statics (snd res)) = trace (w_statics w) ++ evs /\
     Z.of_nat (length evs) <= MAX_NEW_TOKENS - 1 /\
     Forall (fun e => exists step token,
                 e = (EvRunDecode step token, loaded (w_ctx w)) /\
                 0 <= step < MAX_NEW_TOKENS - 1 /\ is_eos token = false) evs /\
     forall generated,
       fst res = Some generated ->
       Z.of_nat (length generated) = 1 + Z.of_nat (length evs) /\
       Z.of_nat (length generated) <= MAX_NEW_TOKENS /\
       exists pre final,
         generated = pre ++ [final] /\ Forall (fun t => is_eos t = false) pre) /\
  (forall remaining step token generated buf' kv' w',
     is_eos token = true ->
     decode_loop ext plen remaining step token generated buf' kv' w'
     = (Some generated, w')).
Proof.
  intros res. split; [reflexivity |]. split.
  - destruct (decode_loop_trace ext plen (Z.to_nat (MAX_NEW_TOKENS - 1))
                0 first_token [] buf kv w (List.Forall_nil _))
      as (evs & Htr & Hlen & Hall & Hgen).
    change (Z.to_nat (MAX_NEW_TOKENS - 1)) with 1023%nat in *.
    change (MAX_NEW_TOKENS - 1) with 1023. change MAX_NEW_TOKENS with 1024.
    exists evs. split; [exact Htr |]. split; [lia |]. split.
    + eapply Forall_impl; [exact Hall |].
      intros e (st & tk & -> & Hst & Htk).
      exists st, tk. split; [reflexivity |]. split; [lia | exact Htk].
    + intros g Hg. destruct (Hgen g Hg) as (Hl & pre & final & -> & Hpre).
      cbn [length] in Hl. split; [lia |]. split; [lia |].
      exists pre, final. split; [reflexivity | exact Hpre].
  - intros. apply decode_loop_eos. assumption.
Qed.

(** ** Trimming *)

Section Trim.

Lemma skip_leading_split (s : list ascii) :
exists l,
  s = l ++ skip_leading s /\
  Forall (fun c => is_space c = true) l /\
  (forall c, head (skip_leading s) = Some c -> is_space c = false).
Proof.
induction s as [| c rest IH].
- exists []. cbn. split; [reflexivity |]. split; [constructor | discriminate].
- cbn [skip_leading]. destruct (is_space c) eqn:Hc.
  + destruct IH as (l & Hs & Hl & Hh).
    exists (c :: l). split; [cbn; rewrite <- Hs; reflexivity |].
    split; [constructor; assumption | exact Hh].
  + exists []. split; [reflexivity |]. split; [constructor |].
    intros c' [= <-]. exact Hc.
Qed.

Lemma skip_trailing_split (s : list ascii) :
exists r,
  s = skip_trailing s ++ r /\
  Forall (fun c => is_space c = true) r /\
  (forall c, last (skip_trailing s) = Some c -> is_space c = false).
Proof.
unfold skip_trailing.
destruct (skip_leading_split (rev s)) as (l & Hs & Hl & Hh).
exists (rev l). split; [| split].
- rewrite <- rev_app_distr, <- Hs, rev_involutive. reflexivity.
- apply Forall_rev. exact Hl.
- intros c Hc. apply Hh.
  destruct (skip_leading (rev s)) as [| c' t]; [discriminate |].
  cbn [rev] in Hc. rewrite last_snoc in Hc. exact Hc.
Qed.

(** [trim] takes away the spaces, tabs and newlines at both ends and
  nothing else: what is left neither starts nor ends with one. *)
Lemma trim_spec (s : list ascii) :
exists l r,
  s = l ++ trim s ++ r /\
  Forall (fun c => is_space c = true) l /\
  Forall (fun c => is_space c = true) r /\
  (forall c, head (trim s) = Some c -> is_space c = false) /\
  (forall c, last (trim s) = Some c -> is_space c = false).
Proof.
unfold trim.
destruct (skip_leading_split s) as (l & Hs & Hl & Hh).
destruct (skip_trailing_split (skip_leading s)) as (r & Ht & Hr & Hlast).
exists l, r.
split; [rewrite <- Ht; exact Hs |].
split; [exact Hl |]. split; [exact Hr |]. split; [| exact Hlast].
intros c Hc. apply Hh. rewrite Ht.
destruct (skip_trailing (skip_leading s)); [discriminate | exact Hc].
Qed.

End Trim.

(** ** Stage 6: from tokens to text *)

Section Detokenize.

Context {KV : Type} (ext : External KV).

Lemma strip_trailing_eos_prefix (l l' : list Z) (n : nat) :
  (n <= length l)%nat ->
  strip_trailing_eos (l ++ l') n = strip_trailing_eos l n.
Proof.
  induction n as [| n IH]; intros Hn; [reflexivity |].
  cbn [strip_trailing_eos].
  rewrite app_nth1 by lia. rewrite IH by lia. reflexivity.
Qed.

(** The first loop of stage 6 cuts exactly the run of EOS tokens at the
    end of the stream. *)
Lemma strip_trailing_eos_split (stripped tail : list Z) :
  Forall (fun t => is_eos t = true) tail ->
  (forall pre x, stripped = pre ++ [x] -> is_eos x = false) ->
  strip_trailing_eos (stripped ++ tail) (length (stripped ++ tail))
  = length stripped.
Proof.
  intros Htail Hlast.
  induction tail as [| x tail' IH] using rev_ind.
  - rewrite app_nil_r.
    destruct stripped as [| y ys _] using rev_ind; [reflexivity |].
    rewrite length_app. cbn [length]. rewrite Nat.add_1_r.
    cbn [strip_trailing_eos].
    rewrite app_nth2 by lia. rewrite Nat.sub_diag. cbn [nth].
    rewrite (Hlast ys y eq_refl). reflexivity.
  - apply Forall_app in Htail as [Htail' Hx].
    apply Forall_inv in Hx.
    rewrite app_assoc, length_app. cbn [length]. rewrite Nat.add_1_r.
    cbn [strip_trailing_eos].
    rewrite app_nth2 by lia. rewrite Nat.sub_diag. cbn [nth].
    rewrite Hx, strip_trailing_eos_prefix by lia.
    apply IH. exact Htail'.
Qed.

Lemma text_append_piece b p :
  text (append_piece b p) = text b ++ default [] p.
Proof.
  destruct p as [p |]; cbn; [reflexivity | rewrite app_nil_r; reflexivity].
Qed.

Lemma collect_plain_text (tokens : list Z) :
  forall b,
    text (collect_plain ext tokens b) =
      text b ++ pieces ext (List.filter (fun t => t <? 151643) tokens).
Proof.
  induction tokens as [| t rest IH]; intros b.
  - cbn. rewrite app_nil_r. reflexivity.
  - cbn [collect_plain List.filter].
    destruct (Z.leb_spec 151643 t) as [Hge | Hlt].
    + destruct (Z.ltb_spec t 151643); [lia |]. apply IH.
    + destruct (Z.ltb_spec t 151643); [| lia].
      rewrite IH, text_append_piece. unfold pieces. cbn [map concat].
      rewrite <- app_assoc. reflexivity.
Qed.

Lemma collect_past_text (tokens : list Z) :
  forall b,
    fst (collect_after_asr_text ext tokens true b) = true /\
    text (snd (collect_after_asr_text ext tokens true b)) =
      text b ++ pieces ext (List.filter (fun t => negb (is_asr_text ext t)) tokens).
Proof.
  induction tokens as [| t rest IH]; intros b.
  - cbn. rewrite app_nil_r. split; reflexivity.
  - cbn [collect_after_asr_text List.filter]. unfold is_asr_text at 1.
    destruct (t =? QWEN_TOKEN_ASR_TEXT ext); cbn [negb].
    + apply IH.
    + destruct (IH (append_piece b (qwen_tokenizer_decode ext t))) as [Hf Ht].
      split; [exact Hf |].
      rewrite Ht, text_append_piece. unfold pieces. cbn [map concat].
      rewrite <- app_assoc. reflexivity.
Qed.

Lemma collect_before_asr_text (pre : list Z) :
  forall rest b,
    Forall (fun t => is_asr_text ext t = false) pre ->
    collect_after_asr_text ext (pre ++ rest) false b =
    collect_after_asr_text ext rest false b.
Proof.
  induction pre as [| t pre' IH]; intros rest b Hpre; [reflexivity |].
  apply Forall_cons in Hpre as [Ht Hpre'].
  cbn [app collect_after_asr_text]. unfold is_asr_text in Ht. rewrite Ht.
  cbn [negb]. apply IH. exact Hpre'.
Qed.

Lemma collect_no_asr_text (tokens : list Z) b :
  Forall (fun t => is_asr_text ext t = false) tokens ->
  collect_after_asr_text ext tokens false b = (false, b).
Proof.
  intros H. rewrite <- (app_nil_r tokens).
  rewrite collect_before_asr_text by exact H. reflexivity.
Qed.

(** The stream cut at the first [<asr_text>], found at index [k]. *)
Lemma first_asr_text_split (tokens : list Z) (k : nat) :
  tokens !! k = Some (QWEN_TOKEN_ASR_TEXT ext) ->
  (forall j, (j < k)%nat -> tokens !! j <> Some (QWEN_TOKEN_ASR_TEXT ext)) ->
  tokens = take k tokens ++ QWEN_TOKEN_ASR_TEXT ext :: drop (S k) tokens /\
  Forall (fun t => is_asr_text ext t = false) (take k tokens).
Proof.
  intros Hk Hfirst. split.
  - rewrite <- (take_drop_middle tokens k _ Hk) at 1. reflexivity.
  - apply Forall_lookup_2. intros j t Hj.
    apply lookup_take_Some in Hj as [Hj Hlt].
    unfold is_asr_text. apply Z.eqb_neq. intros ->.
    exact (Hfirst j Hlt Hj).
Qed.

End Detokenize.

(** The text returned, before the blanks at its ends are taken away: when
    [<asr_text>] is in [stripped], first at index [k], the pieces of the
    tokens after index [k], later occurrences of [<asr_text>] left out;
    when it is not, the pieces of the tokens below 151643. *)
Lemma detokenize_eq_trim {KV} (ext : External KV) (stripped tail : list Z) :
  Forall (fun t => is_eos t = true) tail ->
  (forall x, last stripped = Some x -> is_eos x = false) ->
  (forall k : nat,
     stripped !! k = Some (QWEN_TOKEN_ASR_TEXT ext) ->
     (forall j, (j < k)%nat -> stripped !! j <> Some (QWEN_TOKEN_ASR_TEXT ext)) ->
     detokenize ext (stripped ++ tail) =
       trim (pieces ext (List.filter (fun t => negb (is_asr_text ext t))
                           (drop (S k) stripped)))) /\
  ((forall k : nat, stripped !! k <> Some (QWEN_TOKEN_ASR_TEXT ext)) ->
   detokenize ext (stripped ++ tail) =
     trim (pieces ext (List.filter (fun t => t <? 151643) stripped))).
Proof.
  intros Htail Hlast'.
  assert (Hlast : forall pre x, stripped = pre ++ [x] -> is_eos x = false).
  { intros pre x ->. apply Hlast'. apply last_snoc. }
  assert (Htake :
    take (strip_trailing_eos (stripped ++ tail) (length (stripped ++ tail)))
      (stripped ++ tail) = stripped).
  { rewrite strip_trailing_eos_split by assumption.
    rewrite take_app_length. reflexivity. }
  split.
  - intros k Hk Hfirst.
    destruct (first_asr_text_split ext stripped k Hk Hfirst) as [Hsplit Hpre].
    unfold detokenize. rewrite Htake.
    rewrite Hsplit at 1.
    rewrite collect_before_asr_text by exact Hpre.
    cbn [collect_after_asr_text]. rewrite Z.eqb_refl.
    destruct (collect_past_text ext (drop (S k) stripped)
                {| text := []; text_cap := 4096 |}) as [Hf Ht].
    destruct (collect_after_asr_text ext (drop (S k) stripped) true _)
      as [past b1]. cbn in Hf, Ht. subst past. rewrite Ht. reflexivity.
  - intros Hnone.
    assert (Hall : Forall (fun t => is_asr_text ext t = false) stripped).
    { apply Forall_lookup_2. intros j t Hj.
      unfold is_asr_text. apply Z.eqb_neq. intros ->. exact (Hnone j Hj). }
    unfold detokenize. rewrite Htake.
    rewrite collect_no_asr_text by exact Hall.
    rewrite collect_plain_text. reflexivity.
Qed.

(** [is_eos] holds of 151643 and 151645 and of nothing else. *)
Lemma is_eos_ids (t : Z) : is_eos t = true <-> t = 151643 \/ t = 151645.
Proof.
  unfold is_eos, EOS_TOKENS. cbn [existsb].
  destruct (Z.eqb_spec t 151643) as [-> | H1]; [cbn; tauto |].
  destruct (Z.eqb_spec t 151645) as [-> | H2]; [cbn; tauto |].
  cbn. split; [discriminate | intros [? | ?]; contradiction].
Qed.

(** The characters that the two trimming loops step over are the blanks. *)
Lemma is_space_blank (c : ascii) : is_space c = true <-> blank c.
Proof.
  unfold is_space, blank. rewrite !orb_true_iff, !Ascii.eqb_eq. tauto.
Qed.

(** [trim s] is [s] without the blanks at its two ends. *)
Lemma trim_trimmed_of (s : list ascii) : trimmed_of s (trim s).
Proof.
  destruct (trim_spec s) as (l & r & Hs & Hl & Hr & Hh & Ht).
  exists l, r. split; [exact Hs |].
  split.
  { clear Hs. induction Hl as [| c l' Hc _ IH]; constructor;
      [apply is_space_blank; exact Hc | exact IH]. }
  split.
  { clear Hs. induction Hr as [| c r' Hc _ IH]; constructor;
      [apply is_space_blank; exact Hc | exact IH]. }
  split.
  - intros c Hc Hb. apply is_space_blank in Hb.
    rewrite (Hh c Hc) in Hb. discriminate.
  - intros c Hc Hb. apply is_space_blank in Hb.
    rewrite (Ht c Hc) in Hb. discriminate.
Qed.

(** Blanks in front are stepped over; the loop stops at a character that
    is not a blank. *)
Lemma skip_leading_blanks (l s : list ascii) :
  Forall blank l -> skip_leading (l ++ s) = skip_leading s.
Proof.
  induction 1 as [| c l' Hc _ IH]; [reflexivity |].
  cbn [app skip_leading].
  apply is_space_blank in Hc. rewrite Hc. exact IH.
Qed.

Lemma skip_leading_stops (s : list ascii) :
  (forall c, head s = Some c -> ~ blank c) -> s <> [] -> skip_leading s = s.
Proof.
  destruct s as [| c rest]; [congruence |]. intros Hh _.
  cbn [skip_leading]. destruct (is_space c) eqn:Hc; [| reflexivity].
  apply is_space_blank in Hc. destruct (Hh c eq_refl Hc).
Qed.

(** What [trimmed_of] describes is one text, the one the loops leave. *)
Lemma trimmed_of_unique (s out : list ascii) :
  trimmed_of s out -> out = trim s.
Proof.
  intros (l & r & -> & Hl & Hr & Hh & Ht).
  unfold trim. rewrite skip_leading_blanks by exact Hl.
  destruct out as [| c o'].
  - cbn [app]. rewrite <- (app_nil_r r), skip_leading_blanks by exact Hr.
    reflexivity.
  - rewrite (skip_leading_stops ((c :: o') ++ r)).
    + unfold skip_trailing. rewrite rev_app_distr.
      rewrite skip_leading_blanks by (apply Forall_rev; exact Hr).
      rewrite skip_leading_stops.
      * rewrite rev_involutive. reflexivity.
      * intros c' Hc'. apply Ht.
        rewrite <- (rev_involutive (c :: o')).
        destruct (rev (c :: o')) as [| x t]; [discriminate |].
        cbn in Hc'. injection Hc' as ->. cbn [rev]. apply last_snoc.
      * intros E. apply (f_equal (@length ascii)) in E.
        rewrite length_rev in E. discriminate.
    + intros c' [= <-]. apply Hh. reflexivity.
    + discriminate.
Qed.

(** C1. Let the generated stream be [stripped ++ tail], where [tail] is its
    run of trailing EOS tokens (ids 151643 and 151645), no piece of the
    tokenizer being longer than 4096 bytes and the stream no longer than
    [MAX_NEW_TOKENS].  When [<asr_text>] is in [stripped], first at index
    [k], the text returned is the concatenation of the pieces of the tokens
    of [stripped] after index [k], later occurrences of [<asr_text>] left
    out, without the spaces, tabs and newlines at its two ends: the
    concatenation is blanks, then the text, then blanks, and the text
    neither starts nor ends with a blank.  When [<asr_text>] is not in
    [stripped], the text returned is the concatenation of the pieces of
    the tokens of [stripped] below 151643, trimmed the same way.  For an
    index [k] of [<asr_text>] that is not the first one the claim fails:
    the pieces between the first occurrence and [k] are in the text too. *)
Theorem detokenize_spec {KV} (ext : External KV) (stripped tail : list Z) :
  Forall (fun t => t = 151643 \/ t = 151645) tail ->
  (forall x, last stripped = Some x -> x <> 151643 /\ x <> 151645) ->
  (forall t, short_piece (qwen_tokenizer_decode ext t)) ->
  Z.of_nat (length (stripped ++ tail)) <= MAX_NEW_TOKENS ->
  (forall k : nat,
     stripped !! k = Some (QWEN_TOKEN_ASR_TEXT ext) ->
     (forall j, (j < k)%nat -> stripped !! j <> Some (QWEN_TOKEN_ASR_TEXT ext)) ->
     trimmed_of
       (pieces ext (List.filter (fun t => negb (t =? QWEN_TOKEN_ASR_TEXT ext))
                      (drop (S k) stripped)))
       (detokenize ext (stripped ++ tail))) /\
  ((forall k : nat, stripped !! k <> Some (QWEN_TOKEN_ASR_TEXT ext)) ->
   trimmed_of
     (pieces ext (List.filter (fun t => t <? 151643) stripped))
     (detokenize ext (stripped ++ tail))).
Proof.
  intros Htail Hlast _ _.
  assert (Htail' : Forall (fun t => is_eos t = true) tail).
  { induction Htail as [| t tl Ht _ IH]; constructor;
      [apply is_eos_ids; exact Ht | exact IH]. }
  assert (Hlast' : forall x, last stripped = Some x -> is_eos x = false).
  { intros x Hx. destruct (Hlast x Hx) as [H1 H2].
    destruct (is_eos x) eqn:He; [| reflexivity].
    apply is_eos_ids in He. destruct He; contradiction. }
  destruct (detokenize_eq_trim ext stripped tail Htail' Hlast') as [Hfound Hnone].
  split.
  - intros k Hk Hfirst. rewrite (Hfound k Hk Hfirst).
    apply trim_trimmed_of.
  - intros Hno. rewrite (Hnone Hno). apply trim_trimmed_of.
Qed.

Lemma detokenize_spec_witness :
  let stripped := [11528; 6364; 151704; 9707; 151704; 1879; 198] in
  let tail := [151645; 151643] in
  Forall (fun t => t = 151643 \/ t = 151645) tail /\
  (forall x, last stripped = Some x -> x <> 151643 /\ x <> 151645) /\
  (forall t, short_piece (qwen_tokenizer_decode Fixture.ext t)) /\
  Z.of_nat (length (stripped ++ tail)) <= MAX_NEW_TOKENS /\
  stripped !! 2%nat = Some (QWEN_TOKEN_ASR_TEXT Fixture.ext) /\
  pieces Fixture.ext
    (List.filter (fun t => negb (t =? QWEN_TOKEN_ASR_TEXT Fixture.ext))
       (drop 3 stripped)) =
    list_ascii_of_string (String " " (String.append "Hello world"
                                        (String "010" EmptyString))) /\
  detokenize Fixture.ext (stripped ++ tail) = list_ascii_of_string "Hello world" /\
  trimmed_of
    (pieces Fixture.ext
       (List.filter (fun t => negb (t =? QWEN_TOKEN_ASR_TEXT Fixture.ext))
          (drop 3 stripped)))
    (detokenize Fixture.ext (stripped ++ tail)).
Proof.
  cbv zeta.
  assert (Htail : Forall (fun t => t = 151643 \/ t = 151645) [151645; 151643]).
  { constructor; [right; reflexivity |].
    constructor; [left; reflexivity | constructor]. }
  assert (Hlast : forall x,
             last [11528; 6364; 151704; 9707; 151704; 1879; 198] = Some x ->
             x <> 151643 /\ x <> 151645).
  { intros x [= <-]. split; discriminate. }
  assert (Hshort : forall t, short_piece (qwen_tokenizer_decode Fixture.ext t)).
  { intros t s. cbn. unfold Fixture.decode_piece.
    repeat match goal with
           | |- context [if ?b then _ else _] => destruct b
           end; intros [= <-]; cbn; lia. }
  assert (Hlen : Z.of_nat (length ([11528; 6364; 151704; 9707; 151704; 1879; 198]
                                     ++ [151645; 151643])) <= MAX_NEW_TOKENS)
    by (vm_compute; discriminate).
  split; [exact Htail |]. split; [exact Hlast |]. split; [exact Hshort |].
  split; [exact Hlen |]. split; [reflexivity |].
  split; [vm_compute; reflexivity |]. split; [vm_compute; reflexivity |].
  apply (proj1 (detokenize_spec Fixture.ext
                  [11528; 6364; 151704; 9707; 151704; 1879; 198]
                  [151645; 151643] Htail Hlast Hshort Hlen) 2%nat).
  - reflexivity.
  - intros j Hj.
    assert (Hc : j = 0%nat \/ j = 1%nat) by lia.
    destruct Hc as [-> | ->]; discriminate.
Defined.

(** C1, as worded, takes any position [k] of [<asr_text>].  On the stream
    [<asr_text>], [ Hello], [<asr_text>], [ world], which ends with no EOS
    token, position 2 holds [<asr_text>] and the pieces after it make
    [ world]; the text returned is [Hello world], because the loop starts
    to collect at the first [<asr_text>], at position 0.  The text returned
    is longer than the pieces after position 2, so it is not what is left
    of them after trimming. *)
Lemma detokenize_later_occurrence :
  let stream := [151704; 9707; 151704; 1879] in
  let after := pieces Fixture.ext
                 (List.filter (fun t => negb (t =? QWEN_TOKEN_ASR_TEXT Fixture.ext))
                    (drop 3 stream)) in
  strip_trailing_eos stream (length stream) = length stream /\
  stream !! 2%nat = Some (QWEN_TOKEN_ASR_TEXT Fixture.ext) /\
  after = list_ascii_of_string " world" /\
  detokenize Fixture.ext stream = list_ascii_of_string "Hello world" /\
  ~ trimmed_of after (detokenize Fixture.ext stream).
Proof.
  cbv zeta.
  split; [vm_compute; reflexivity |]. split; [reflexivity |].
  assert (Ha : pieces Fixture.ext
                 (List.filter (fun t => negb (t =? QWEN_TOKEN_ASR_TEXT Fixture.ext))
                    (drop 3 [151704; 9707; 151704; 1879])) =
               list_ascii_of_string " world") by (vm_compute; reflexivity).
  assert (Hd : detokenize Fixture.ext [151704; 9707; 151704; 1879] =
               list_ascii_of_string "Hello world") by (vm_compute; reflexivity).
  split; [exact Ha |]. split; [exact Hd |].
  rewrite Ha, Hd. intros (l & r & Hs & _).
  apply (f_equal (@length ascii)) in Hs.
  rewrite !length_app in Hs. cbn in Hs. lia.
Qed.

(** ** Session lifecycle in [qwen_onnx_transcribe] *)

Section HoareRules.

Lemma hoare_ret {A} (a : A) (Q : A -> world -> Prop) E :
  hoare (Q a) (ret a) Q E.
Proof. intros w Hw. exact Hw. Qed.

Lemma hoare_bind {A B} (m : M A) (k : A -> M B) P Q R E :
  hoare P m Q E ->
  (forall a, hoare (Q a) (k a) R E) ->
  hoare P (bind m k) R E.
Proof.
  intros Hm Hk w Hw. unfold bind. specialize (Hm w Hw).
  destruct (m w) as [[a |] w']; [exact (Hk a w' Hm) | exact Hm].
Qed.

Lemma hoare_conseq {A} (m : M A) (P P' : world -> Prop)
    (Q Q' : A -> world -> Prop) (E E' : world -> Prop) :
  hoare P' m Q' E' ->
  (forall w, P w -> P' w) ->
  (forall a w, Q' a w -> Q a w) ->
  (forall w, E' w -> E w) ->
  hoare P m Q E.
Proof.
  intros Hm HP HQ HE w Hw. specialize (Hm w (HP w Hw)).
  destruct (m w) as [[a |] w']; auto.
Qed.

Lemma hoare_check (ok : bool) P E :
  (forall w, P w -> E w) ->
  hoare P (check ok) (fun _ => P) E.
Proof. intros HE w Hw. destruct ok; cbn; auto. Qed.

Lemma hoare_of_option {A} (o : option A) P E :
  (forall w, P w -> E w) ->
  hoare P (of_option o) (fun _ => P) E.
Proof. intros HE w Hw. destruct o; cbn; auto. Qed.

End HoareRules.

Section Lifecycle.

Context {KV : Type} (ext : External KV) (w0 : world).

Lemma at_most_one_none : at_most_one none_loaded.
Proof. left. reflexivity. Qed.

Lemma at_most_one_only s : at_most_one (only s).
Proof. right. exists s. reflexivity. Qed.

Lemma inv_exit_of st w : at_most_one st -> inv w0 st w -> inv_exit w0 w.
Proof. intros Hst Hw. exists st. auto. Qed.

Lemma staged_since_refl : staged_since w0 w0.
Proof. exists []. rewrite app_nil_r. split; [reflexivity | constructor]. Qed.

Lemma staged_since_emit e w :
  staged_since w0 w -> staged (e, loaded (w_ctx w)) ->
  staged_since w0 (snd (emit e w)).
Proof.
  intros (evs & Htr & Hall) He.
  exists (evs ++ [(e, loaded (w_ctx w))]). cbn.
  split; [rewrite Htr, app_assoc; reflexivity |].
  apply Forall_app. split; [exact Hall |].
  constructor; [exact He | constructor].
Qed.

Lemma loaded_set_slot_none s c :
  loaded c = only s -> loaded (set_slot s None c) = none_loaded.
Proof.
  unfold loaded, only, none_loaded.
  destruct s, c as [[?|] [?|] [?|] ? ? ? ? ? ? ?]; cbn; congruence.
Qed.

Lemma loaded_set_slot_some s sess c :
  loaded c = none_loaded -> loaded (set_slot s (Some sess) c) = only s.
Proof.
  unfold loaded, only, none_loaded.
  destruct s, c as [[?|] [?|] [?|] ? ? ? ? ? ? ?]; cbn; congruence.
Qed.

Lemma get_slot_loaded_none s c : loaded c = none_loaded -> get_slot s c = None.
Proof.
  unfold loaded, none_loaded.
  destruct s, c as [[?|] [?|] [?|] ? ? ? ? ? ? ?]; cbn; congruence.
Qed.

Lemma get_slot_loaded_only s c : loaded c = only s -> is_Some (get_slot s c).
Proof.
  unfold loaded, only.
  destruct s, c as [[?|] [?|] [?|] ? ? ? ? ? ? ?]; cbn; try congruence; eauto.
Qed.

Lemma get_slot_other s s' c :
  loaded c = only s -> s' <> s -> get_slot s' c = None.
Proof.
  unfold loaded, only.
  destruct s, s', c as [[?|] [?|] [?|] ? ? ? ? ? ? ?]; cbn; congruence.
Qed.

(** Events and writes that keep the invariant. *)
Lemma hoare_emit e st E :
  staged (e, st) ->
  hoare (inv w0 st) (emit e) (fun _ => inv w0 st) E.
Proof.
  intros He w (Hk & Hl & Hs). cbn - [emit].
  change (emit e w) with (Some tt, snd (emit e w)).
  split; [exact Hk |]. split; [exact Hl |].
  apply staged_since_emit; [exact Hs | rewrite Hl; exact He].
Qed.

Lemma hoare_set_last_error e st E :
  hoare (inv w0 st) (set_last_error e) (fun _ => inv w0 st) E.
Proof. intros w Hw. exact Hw. Qed.

Lemma hoare_set_last_n_tokens n st E :
  hoare (inv w0 st) (set_last_n_tokens n) (fun _ => inv w0 st) E.
Proof. intros w Hw. exact Hw. Qed.

(** The session is stored in its slot inside the call, after the event
    of its creation. *)
Lemma hoare_create_session s threads (levels : list GraphOptimizationLevel) E :
  hoare (inv w0 none_loaded)
    (create_session_with_fallback ext s threads levels)
    (fun ok : bool => if ok then inv w0 (only s) else inv w0 none_loaded) E.
Proof.
  induction levels as [| level rest IH].
  - intros w Hw. exact Hw.
  - cbn [create_session_with_fallback].
    destruct (negb (session_options_ok ext s level)).
    { intros w Hw. exact Hw. }
    eapply hoare_bind; [apply hoare_emit; reflexivity |]. intros ?; cbv beta.
    destruct (CreateSession ext s threads level).
    { intros w (Hk & Hl & Hs). cbn.
      split; [exact Hk |]. split; [| exact Hs].
      apply loaded_set_slot_some. exact Hl. }
    eapply hoare_bind; [apply hoare_set_last_error |]. intros ?; cbv beta.
    exact IH.
Qed.

Lemma hoare_load_on_demand s :
  hoare (inv w0 none_loaded) (load_on_demand ext s)
    (fun _ => inv w0 (only s)) (inv_exit w0).
Proof.
  intros w Hw. unfold load_on_demand, bind at 1, get_ctx. cbn beta iota.
  destruct Hw as (Hk & Hl & Hs).
  rewrite (get_slot_loaded_none s _ Hl).
  pose proof (hoare_create_session s (slot_threads s (w_ctx w)) (slot_levels s)
                (inv_exit w0) w (conj Hk (conj Hl Hs))) as Hc.
  unfold bind.
  destruct (create_session_with_fallback ext s _ _ w) as [[[|] |] w'].
  - exact Hc.
  - cbn. apply (inv_exit_of none_loaded); [apply at_most_one_none | exact Hc].
  - exact Hc.
Qed.

Lemma hoare_release_if_loaded s E :
  hoare (inv w0 (only s)) (release_if_loaded s)
    (fun _ => inv w0 none_loaded) E.
Proof.
  intros w (Hk & Hl & Hs). unfold release_if_loaded, bind at 1, get_ctx.
  cbn beta iota.
  destruct (get_slot_loaded_only s _ Hl) as [sess Hsess]. rewrite Hsess.
  cbn. split; [exact Hk |]. split.
  - apply loaded_set_slot_none. exact Hl.
  - apply (staged_since_emit (EvReleaseSession s) w Hs).
    unfold staged. cbn. exact Hl.
Qed.

Lemma hoare_release_skip s s' E :
  s' <> s ->
  hoare (inv w0 (only s)) (release_if_loaded s')
    (fun _ => inv w0 (only s)) E.
Proof.
  intros Hne w (Hk & Hl & Hs). unfold release_if_loaded, bind at 1, get_ctx.
  cbn beta iota. rewrite (get_slot_other s s' _ Hl Hne).
  cbn. exact (conj Hk (conj Hl Hs)).
Qed.

Lemma hoare_release_none s E :
  hoare (inv w0 none_loaded) (release_if_loaded s)
    (fun _ => inv w0 none_loaded) E.
Proof.
  intros w (Hk & Hl & Hs). unfold release_if_loaded, bind at 1, get_ctx.
  cbn beta iota. rewrite (get_slot_loaded_none s _ Hl).
  cbn. exact (conj Hk (conj Hl Hs)).
Qed.

Lemma hoare_release_after_stage s E :
  hoare (inv w0 (only s)) (release_after_stage s)
    (fun _ => inv w0 none_loaded) E.
Proof.
  intros w Hw. unfold release_after_stage, bind at 1, get_ctx.
  cbn beta iota. destruct Hw as (Hk & Hl & Hs). rewrite Hk.
  apply hoare_release_if_loaded. exact (conj Hk (conj Hl Hs)).
Qed.

Lemma hoare_probe_n_layers st :
  at_most_one st ->
  hoare (inv w0 st) (probe_n_layers ext) (fun _ => inv w0 st) (inv_exit w0).
Proof.
  intros Hst w Hw. unfold probe_n_layers, bind at 1, get_ctx. cbn beta iota.
  destruct (n_layers (w_ctx w) =? 0); [| exact Hw].
  unfold bind, check.
  destruct (check_ok ext PrefillOutputCount); cbn.
  - destruct Hw as (Hk & Hl & Hs). split; [exact Hk |]. split; [exact Hl | exact Hs].
  - exact (inv_exit_of st w Hst Hw).
Qed.

Lemma hoare_decode_loop plen remaining step token buf kv :
  hoare (inv w0 (only Decode))
    (decode_loop ext plen remaining step token ([] ++ [token]) buf kv)
    (fun _ => inv w0 (only Decode)) (inv_exit w0).
Proof.
  intros w (Hk & Hl & Hs).
  destruct (decode_loop_trace ext plen remaining step token [] buf kv w
              (List.Forall_nil _)) as (evs & Htr & _ & Hall & _).
  pose proof (decode_loop_ctx ext plen remaining step token ([] ++ [token]) buf kv w)
    as Hctx.
  assert (Hinv : inv w0 (only Decode)
                   (snd (decode_loop ext plen remaining step token
                           ([] ++ [token]) buf kv w))).
  { split; [rewrite Hctx; exact Hk |]. split; [rewrite Hctx; exact Hl |].
    destruct Hs as (evs0 & Htr0 & Hall0).
    exists (evs0 ++ evs). split; [rewrite Htr, Htr0, app_assoc; reflexivity |].
    apply Forall_app. split; [exact Hall0 |].
    eapply Forall_impl; [exact Hall |].
    intros e (st & tk & -> & _ & _). unfold staged. cbn. exact Hl. }
  destruct (decode_loop ext plen remaining step token ([] ++ [token]) buf kv w)
    as [[g |] w']; cbn in Hinv.
  - exact Hinv.
  - exact (inv_exit_of _ _ (at_most_one_only Decode) Hinv).
Qed.

Ltac step_with lem := eapply hoare_bind; [lem | intros ?; cbv beta].

Ltac step_check st :=
  step_with ltac:(apply (hoare_check _ (inv w0 st));
                  intros ? ?; eapply inv_exit_of; [| eassumption];
                  first [apply at_most_one_none | apply at_most_one_only]).

Ltac step_option st :=
  step_with ltac:(apply (hoare_of_option _ (inv w0 st));
                  intros ? ?; eapply inv_exit_of; [| eassumption];
                  first [apply at_most_one_none | apply at_most_one_only]).

Lemma hoare_get_ctx_inv st E :
  hoare (inv w0 st) get_ctx (fun _ => inv w0 st) E.
Proof. intros w Hw. exact Hw. Qed.

(** The body of [qwen_onnx_transcribe], from a context with no session
    and [keep_sessions] off. *)
Lemma hoare_transcribe_body samples n_samples :
  hoare (inv w0 none_loaded) (transcribe_body ext samples n_samples)
    (fun _ => inv w0 (only Decode)) (inv_exit w0).
Proof.
  unfold transcribe_body.
  step_check none_loaded.
  step_option none_loaded.
  match goal with a : (list Z * Z)%type |- _ => destruct a as [mel0 n_frames] end.
  step_with ltac:(apply hoare_load_on_demand).
  step_check (only Encoder).
  step_with ltac:(apply (hoare_emit (EvRun Encoder) (only Encoder)); reflexivity).
  step_option (only Encoder).
  match goal with a : (Z * list Z)%type |- _ => destruct a as [enc_shape_1 audio] end.
  step_check (only Encoder).
  step_check (only Encoder).
  step_check (only Encoder).
  step_with ltac:(apply hoare_release_after_stage).
  step_with ltac:(apply hoare_load_on_demand).
  step_with ltac:(apply hoare_probe_n_layers; apply at_most_one_only).
  step_check (only Prefill).
  step_with ltac:(apply hoare_get_ctx_inv).
  step_check (only Prefill).
  step_check (only Prefill).
  step_with ltac:(apply (hoare_emit (EvRun Prefill) (only Prefill)); reflexivity).
  step_option (only Prefill).
  match goal with a : (list Z * KV)%type |- _ => destruct a as [logits kv] end.
  step_check (only Prefill).
  step_with ltac:(apply hoare_release_after_stage).
  step_with ltac:(apply hoare_load_on_demand).
  step_check (only Decode).
  step_check (only Decode).
  step_check (only Decode).
  step_with ltac:(apply hoare_decode_loop).
  step_with ltac:(apply hoare_set_last_n_tokens).
  apply (hoare_ret _ (fun _ => inv w0 (only Decode))).
Qed.

(** The end of [cleanup] empties every slot. *)
Lemma hoare_release_all st :
  at_most_one st ->
  hoare (inv w0 st)
    (release_if_loaded Encoder ;;; release_if_loaded Prefill ;;;
     release_if_loaded Decode)
    (fun _ => inv w0 none_loaded) (fun _ => False).
Proof.
  intros [-> | [s ->]].
  - step_with ltac:(apply hoare_release_none).
    step_with ltac:(apply hoare_release_none).
    apply hoare_release_none.
  - destruct s.
    + step_with ltac:(apply hoare_release_if_loaded).
      step_with ltac:(apply hoare_release_none).
      apply hoare_release_none.
    + step_with ltac:(apply (hoare_release_skip Prefill Encoder); discriminate).
      step_with ltac:(apply hoare_release_if_loaded).
      apply hoare_release_none.
    + step_with ltac:(apply (hoare_release_skip Decode Encoder); discriminate).
      step_with ltac:(apply (hoare_release_skip Decode Prefill); discriminate).
      apply hoare_release_if_loaded.
Qed.

Lemma hoare_cleanup st :
  at_most_one st ->
  hoare (inv w0 st) cleanup (fun _ => inv w0 none_loaded) (fun _ => False).
Proof.
  intros Hst w Hw. unfold cleanup, bind at 1, get_ctx. cbn beta iota.
  destruct Hw as (Hk & Hl & Hs). rewrite Hk.
  apply (hoare_release_all st Hst). exact (conj Hk (conj Hl Hs)).
Qed.

End Lifecycle.

(** C5. With [keep_sessions] off and no session loaded at entry (the state
    in which [qwen_onnx_load] leaves the context and in which every call
    leaves it), whatever the collaborators answer: each session is created
    while no slot is loaded, the encoder runs while it is the only session
    loaded, the prefill runs while it is the only one (the encoder was
    released before), every step of the decode loop runs while decode is
    the only one (the prefill was released before decode was created), each
    release acts on the only session loaded, and the call returns, with a
    text or with NULL, with the three slots empty and [keep_sessions]
    unchanged. *)
Theorem transcribe_staged_sessions {KV} (ext : External KV)
    (c : qwen_onnx_ctx) (samples : option (list Z)) (n_samples : Z) (g : statics) :
  keep_sessions c = false ->
  loaded c = none_loaded ->
  let res := qwen_onnx_transcribe ext (Some c) samples n_samples g in
  exists c' evs,
    snd (fst res) = Some c' /\
    keep_sessions c' = false /\
    loaded c' = none_loaded /\
    trace (snd res) = trace g ++ evs /\
    Forall staged evs.
Proof.
  intros Hk Hl res. subst res.
  unfold qwen_onnx_transcribe.
  destruct samples as [smp |].
  2: { exists c, []. rewrite app_nil_r. repeat split; auto. }
  destruct (n_samples <=? 0).
  { exists c, []. rewrite app_nil_r. repeat split; auto. }
  set (w0 := {| w_ctx := c; w_statics := g |}).
  assert (H0 : inv w0 none_loaded w0).
  { split; [exact Hk |]. split; [exact Hl | apply staged_since_refl]. }
  pose proof (hoare_transcribe_body ext w0 smp n_samples w0 H0) as Hbody.
  destruct (transcribe_body ext smp n_samples w0) as [r w].
  assert (Hexit : inv_exit w0 w).
  { destruct r; [| exact Hbody].
    exact (inv_exit_of w0 _ _ (at_most_one_only Decode) Hbody). }
  destruct Hexit as (st & Hst & Hw).
  pose proof (hoare_cleanup w0 st Hst w Hw) as Hc.
  destruct (cleanup w) as [[u |] w']; [| contradiction].
  destruct Hc as (Hk' & Hl' & evs & Htr & Hall).
  exists (w_ctx w'), evs. cbn. repeat split; auto.
Qed.

Lemma transcribe_staged_sessions_witness :
  keep_sessions Fixture.ctx = false /\
  loaded Fixture.ctx = none_loaded /\
  exists c' evs,
    snd (fst (qwen_onnx_transcribe Fixture.ext (Some Fixture.ctx) (Some [0]) 1
                Fixture.statics0)) = Some c' /\
    keep_sessions c' = false /\
    loaded c' = none_loaded /\
    trace (snd (qwen_onnx_transcribe Fixture.ext (Some Fixture.ctx) (Some [0]) 1
                  Fixture.statics0)) = trace Fixture.statics0 ++ evs /\
    Forall staged evs.
Proof.
  split; [reflexivity |]. split; [reflexivity |].
  apply (transcribe_staged_sessions Fixture.ext Fixture.ctx (Some [0]) 1
           Fixture.statics0); reflexivity.
Defined.

(** C9. Called with a null context, null samples or [n_samples <= 0],
    [qwen_onnx_transcribe] returns NULL and leaves everything as it was: the
    context, the statics, and the record of events, to which no session
    creation, run or release is added. *)
Theorem transcribe_guard {KV} (ext : External KV)
    (ctx : option qwen_onnx_ctx) (samples : option (list Z)) (n_samples : Z)
    (g : statics) :
  ctx = None \/ samples = None \/ n_samples <= 0 ->
  qwen_onnx_transcribe ext ctx samples n_samples g = (None, ctx, g).
Proof.
  intros H. unfold qwen_onnx_transcribe.
  destruct ctx as [c |]; [| reflexivity].
  destruct samples as [smp |]; [| reflexivity].
  destruct H as [H | [H | H]]; [discriminate | discriminate |].
  destruct (Z.leb_spec n_samples 0); [reflexivity | lia].
Qed.

Lemma transcribe_guard_witness :
  (Some Fixture.ctx = None \/ Some [0] = None \/ 0 <= 0) /\
  qwen_onnx_transcribe Fixture.ext (Some Fixture.ctx) (Some [0]) 0 Fixture.statics0
  = (None, Some Fixture.ctx, Fixture.statics0).
Proof.
  split; [right; right; lia |].
  apply (transcribe_guard Fixture.ext (Some Fixture.ctx) (Some [0]) 0
           Fixture.statics0).
  right; right; lia.
Defined.

(** ** The text buffer *)

Section TextBuffer.

Context {KV : Type} (ext : External KV).
Hypothesis short_pieces : forall t, short_piece (qwen_tokenizer_decode ext t).

(** Doubling the capacity once is enough for a piece of at most 4096
    bytes: the copy of the piece and of the NUL stays inside the buffer. *)
Lemma append_piece_fits n b p :
  0 <= n < 2 ^ 40 -> text_fits n b -> short_piece p ->
  text_fits (n + 1) (append_piece b p).
Proof.
  intros Hn (Hcap & Hlen & Hub & Hn4) Hp.
  destruct p as [s |]; [| cbn; unfold text_fits; repeat split; lia].
  specialize (Hp s eq_refl).
  unfold text_fits, append_piece, text_len in *. cbn [text text_cap].
  rewrite length_app, Nat2Z.inj_add.
  set (len := Z.of_nat (length (text b))) in *.
  set (plen := Z.of_nat (length s)) in *.
  assert (Hplen : 0 <= plen) by (subst plen; lia).
  assert (Hlen0 : 0 <= len) by (subst len; lia).
  rewrite (u64_small (len + plen)) by lia.
  rewrite (u64_small (len + plen + 1)) by lia.
  destruct (Z.ltb_spec (text_cap b) (len + plen + 1)) as [Hgrow | Hkeep].
  - rewrite u64_small by lia. repeat split; lia.
  - repeat split; lia.
Qed.

Lemma collect_plain_fits (tokens : list Z) :
  forall n b,
    0 <= n -> n + Z.of_nat (length tokens) < 2 ^ 40 -> text_fits n b ->
    text_fits (n + Z.of_nat (length tokens)) (collect_plain ext tokens b).
Proof.
  induction tokens as [| t rest IH]; intros n b Hn Hlen Hb.
  - cbn. rewrite Z.add_0_r. exact Hb.
  - cbn [collect_plain length] in *.
    assert (Hmono : text_fits (n + 1) b).
    { destruct Hb as (? & ? & ? & ?). unfold text_fits. repeat split; lia. }
    replace (n + Z.of_nat (S (length rest)))
      with ((n + 1) + Z.of_nat (length rest)) by lia.
    destruct (151643 <=? t).
    + apply IH; [lia | lia | exact Hmono].
    + apply IH; [lia | lia |].
      apply append_piece_fits; [lia | exact Hb | apply short_pieces].
Qed.

Lemma collect_after_asr_text_fits (tokens : list Z) :
  forall n past b,
    0 <= n -> n + Z.of_nat (length tokens) < 2 ^ 40 -> text_fits n b ->
    text_fits (n + Z.of_nat (length tokens))
      (snd (collect_after_asr_text ext tokens past b)).
Proof.
  induction tokens as [| t rest IH]; intros n past b Hn Hlen Hb.
  - cbn. rewrite Z.add_0_r. exact Hb.
  - cbn [collect_after_asr_text length] in *.
    assert (Hmono : text_fits (n + 1) b).
    { destruct Hb as (? & ? & ? & ?). unfold text_fits. repeat split; lia. }
    replace (n + Z.of_nat (S (length rest)))
      with ((n + 1) + Z.of_nat (length rest)) by lia.
    destruct (t =? QWEN_TOKEN_ASR_TEXT ext); [apply IH; [lia | lia | exact Hmono] |].
    destruct (negb past); [apply IH; [lia | lia | exact Hmono] |].
    apply IH; [lia | lia |].
    apply append_piece_fits; [lia | exact Hb | apply short_pieces].
Qed.

End TextBuffer.

(** ** What [qwen_onnx_transcribe] returns *)

Section Result.

Context {KV : Type} (ext : External KV).

Lemma hoare_any {A} (m : M A) :
  hoare (fun _ => True) m (fun _ _ => True) (fun _ => True).
Proof. intros w _. destruct (m w) as [[a |] w']; exact I. Qed.

Lemma hoare_decode_loop_length plen first_token buf kv :
  hoare (fun _ => True)
    (decode_loop ext plen (Z.to_nat (MAX_NEW_TOKENS - 1)) 0 first_token
       [first_token] buf kv)
    (fun generated _ => Z.of_nat (length generated) <= MAX_NEW_TOKENS)
    (fun _ => True).
Proof.
  intros w _.
  destruct (decode_loop_trace ext plen (Z.to_nat (MAX_NEW_TOKENS - 1)) 0
              first_token [] buf kv w (List.Forall_nil _))
    as (evs & _ & Hlen & _ & Hgen).
  cbn [app] in Hgen.
  destruct (decode_loop ext plen (Z.to_nat (MAX_NEW_TOKENS - 1)) 0 first_token
              [first_token] buf kv w) as [[g |] w']; [| exact I].
  destruct (Hgen g eq_refl) as [Hl _]. cbn [length] in Hl.
  change (Z.to_nat (MAX_NEW_TOKENS - 1)) with 1023%nat in Hlen.
  change MAX_NEW_TOKENS with 1024. lia.
Qed.

Ltac skip_step := eapply hoare_bind; [apply hoare_any | intros ?; cbv beta].

(** A text returned by the body is the detokenization of a stream of at
    most [MAX_NEW_TOKENS] tokens, whose length is left in
    [last_n_tokens]. *)
Lemma hoare_transcribe_body_result samples n_samples :
  hoare (fun _ => True) (transcribe_body ext samples n_samples)
    (fun text w =>
       exists generated,
         text = detokenize ext generated /\
         Z.of_nat (length generated) <= MAX_NEW_TOKENS /\
         last_n_tokens (w_statics w) = Z.of_nat (length generated))
    (fun _ => True).
Proof.
  unfold transcribe_body.
  skip_step. skip_step.
  match goal with a : (list Z * Z)%type |- _ => destruct a as [mel0 n_frames] end.
  skip_step. skip_step. skip_step. skip_step.
  match goal with a : (Z * list Z)%type |- _ => destruct a as [enc_shape_1 audio] end.
  do 12 skip_step.
  match goal with a : (list Z * KV)%type |- _ => destruct a as [logits kv] end.
  do 6 skip_step.
  eapply hoare_bind; [apply hoare_decode_loop_length |].
  intros generated. cbv beta.
  intros w Hlen. cbn.
  exists generated. repeat split; [exact Hlen].
Qed.

Lemma transcribe_result ctx samples n_samples g text :
  fst (fst (qwen_onnx_transcribe ext ctx samples n_samples g)) = Some text ->
  exists generated,
    text = detokenize ext generated /\
    Z.of_nat (length generated) <= MAX_NEW_TOKENS.
Proof.
  unfold qwen_onnx_transcribe.
  destruct ctx as [c |]; [| discriminate].
  destruct samples as [smp |]; [| discriminate].
  destruct (n_samples <=? 0); [discriminate |].
  pose proof (hoare_transcribe_body_result smp n_samples
                {| w_ctx := c; w_statics := g |} I) as Hbody.
  destruct (transcribe_body ext smp n_samples _) as [[t |] w]; cbn;
    [| discriminate].
  intros [= <-]. destruct Hbody as (generated & Ht & Hlen & _).
  exists generated. split; assumption.
Qed.

End Result.

(** ** [qwen_onnx_load] *)

Section Load.

Context {KV : Type} (ext : External KV).

Let T : world -> Prop := fun _ => True.

Lemma hoare_check_load keep st site :
  hoare (policy keep st) (check_load ext site) (fun _ => policy keep st) T.
Proof.
  intros w Hw. unfold check_load.
  destruct (check_ok ext site); cbn; [exact Hw | exact I].
Qed.

Lemma hoare_modify_policy keep st keep' st' f :
  (forall c, keep_sessions c = keep -> loaded c = st ->
             keep_sessions (f c) = keep' /\ loaded (f c) = st') ->
  hoare (policy keep st) (modify_ctx f) (fun _ => policy keep' st') T.
Proof. intros Hf w [Hk Hl]. cbn. exact (Hf _ Hk Hl). Qed.

(** The call returns to its caller; when it returns 1 the slot holds a
    new session and the rest of the context is as before, when it returns
    0 the context is as before. *)
Lemma create_session_ctx s threads (levels : list GraphOptimizationLevel) :
  forall w,
    exists ok : bool,
      fst (create_session_with_fallback ext s threads levels w) = Some ok /\
      if ok
      then exists sess,
             w_ctx (snd (create_session_with_fallback ext s threads levels w))
             = set_slot s (Some sess) (w_ctx w)
      else w_ctx (snd (create_session_with_fallback ext s threads levels w))
           = w_ctx w.
Proof.
  induction levels as [| level rest IH]; intros w.
  { exists false. split; reflexivity. }
  cbn [create_session_with_fallback].
  destruct (negb (session_options_ok ext s level)).
  { exists false. split; reflexivity. }
  unfold bind at 1. cbn [emit].
  destruct (CreateSession ext s threads level).
  { exists true. split; [reflexivity |]. eexists. reflexivity. }
  unfold bind at 1. cbn [set_last_error].
  match goal with
  | |- context [create_session_with_fallback ext s threads rest ?w1] =>
      destruct (IH w1) as (ok & Hr & Hc)
  end.
  exists ok. split; [exact Hr | exact Hc].
Qed.

Lemma hoare_eager_load keep st s :
  hoare (policy keep st) (eager_load ext s)
    (fun _ => policy keep (with_slot s st)) T.
Proof.
  intros w [Hk Hl]. unfold eager_load, bind at 1, get_ctx. cbn beta iota.
  unfold bind.
  destruct (create_session_ctx s (slot_threads s (w_ctx w)) (slot_levels s) w)
    as (ok & Hr & Hctx).
  destruct (create_session_with_fallback ext s _ _ w) as [r w'].
  cbn [fst snd] in Hr, Hctx. subst r.
  destruct ok; [| exact I].
  destruct Hctx as [sess Hctx].
  change (policy keep (with_slot s st) w'). unfold policy.
  rewrite Hctx. split; [exact Hk |].
  rewrite <- Hl. unfold loaded, with_slot.
  destruct s, (w_ctx w) as [[?|] [?|] [?|] ? ? ? ? ? ? ?]; reflexivity.
Qed.

Ltac load_step lem := eapply hoare_bind; [lem | intros ?; cbv beta].

Lemma hoare_eager_branch :
  hoare (policy true none_loaded)
    (eager_load ext Encoder ;;; eager_load ext Prefill ;;;
     eager_load ext Decode ;;; check_load ext LoadOutputCount ;;;
     modify_ctx (set_n_layers
                   (Z.quot (int32 (u64 (SessionGetOutputCount ext - 1))) 2)))
    (fun _ => policy true (true, true, true)) T.
Proof.
  load_step ltac:(apply hoare_eager_load).
  load_step ltac:(apply hoare_eager_load).
  load_step ltac:(apply hoare_eager_load).
  load_step ltac:(apply hoare_check_load).
  apply (hoare_modify_policy true _ true (true, true, true)).
  intros c Hk Hl. split; [exact Hk | exact Hl].
Qed.

Lemma hoare_load_body :
  hoare (policy false none_loaded) (load_body ext)
    (fun _ w =>
       keep_sessions (w_ctx w) = TARGET_OS_OSX ext /\
       loaded (w_ctx w) =
         if TARGET_OS_OSX ext then (true, true, true) else none_loaded)
    T.
Proof.
  unfold load_body.
  load_step ltac:(apply hoare_check_load).
  load_step ltac:(apply hoare_check_load).
  cbv zeta.
  load_step ltac:(apply (hoare_modify_policy false none_loaded
                           (TARGET_OS_OSX ext) none_loaded);
                  intros c _ Hl; split; [reflexivity | exact Hl]).
  eapply hoare_bind with (Q := fun _ => policy (TARGET_OS_OSX ext) none_loaded).
  { intros w Hw. destruct (qwen_tokenizer_load ext); cbn; [exact Hw | exact I]. }
  intros _.
  eapply hoare_bind with (Q := fun _ => policy (TARGET_OS_OSX ext) none_loaded).
  { intros w Hw. destruct (mmap_embed_tokens ext); cbn; [exact Hw | exact I]. }
  intros [[rows cols] data].
  load_step ltac:(apply (hoare_modify_policy _ none_loaded
                           (TARGET_OS_OSX ext) none_loaded);
                  intros c Hk Hl; split; [exact Hk | exact Hl]).
  load_step ltac:(apply (hoare_modify_policy _ none_loaded
                           (TARGET_OS_OSX ext) none_loaded);
                  intros c Hk Hl; split; [exact Hk | exact Hl]).
  load_step ltac:(apply (hoare_modify_policy _ none_loaded
                           (TARGET_OS_OSX ext) none_loaded);
                  intros c Hk Hl; split; [exact Hk | exact Hl]).
  intros w [Hk Hl]. unfold bind at 1, get_ctx. cbn beta iota.
  rewrite Hk. destruct (TARGET_OS_OSX ext) eqn:Hosx.
  - apply hoare_eager_branch. split; assumption.
  - cbn. split; assumption.
Qed.

(** The context that [qwen_onnx_load] returns: [keep_sessions] is the
    platform's choice; when it is off no session is loaded, when it is on
    all three are. *)
Lemma qwen_onnx_load_sessions g c g' :
  qwen_onnx_load ext g = (Some c, g') ->
  keep_sessions c = TARGET_OS_OSX ext /\
  loaded c = if keep_sessions c then (true, true, true) else none_loaded.
Proof.
  unfold qwen_onnx_load.
  destruct (check_ok ext CallocCtx); [| discriminate].
  set (w0 := {| w_ctx := ctx_zero; w_statics := _ |}).
  pose proof (hoare_load_body w0 (conj eq_refl eq_refl)) as Hbody.
  destruct (load_body ext w0) as [[u |] w]; [| discriminate].
  intros [= <- <-]. destruct Hbody as [Hk Hl].
  split; [exact Hk |]. rewrite Hk. exact Hl.
Qed.

End Load.

(** The fixture's context is the one [qwen_onnx_load] returns. *)
Example fixture_load :
  qwen_onnx_load Fixture.ext Fixture.statics0 = (Some Fixture.ctx, Fixture.statics0).
Proof. vm_compute. reflexivity. Qed.

(** ** More on the half-precision codec *)

Section CodecOrder.

Lemma fp16_to_f32_step (h : Z) :
  0 <= h < 65535 -> fp16_to_f32 h < fp16_to_f32 (h + 1).
Proof.
  intros Hh.
  assert (Hc : fp16_to_f32_step_check h = true).
  { apply all_u16; [vm_compute; reflexivity | lia]. }
  unfold fp16_to_f32_step_check in Hc.
  apply orb_true_iff in Hc as [Hc | Hc].
  - apply Z.eqb_eq in Hc. lia.
  - apply Z.ltb_lt in Hc. exact Hc.
Qed.

Lemma fp16_to_f32_increasing_by (d : nat) :
  forall a, 0 <= a -> a + Z.of_nat d < 65536 ->
    fp16_to_f32 a <= fp16_to_f32 (a + Z.of_nat d).
Proof.
  induction d as [| d IH]; intros a Ha Hb.
  - rewrite Z.add_0_r. lia.
  - pose proof (IH a Ha ltac:(lia)) as H1.
    pose proof (fp16_to_f32_step (a + Z.of_nat d) ltac:(lia)) as H2.
    replace (a + Z.of_nat (S d)) with (a + Z.of_nat d + 1) by lia. lia.
Qed.

End CodecOrder.

(** X1. [fp16_to_f32] is strictly increasing in the bit pattern, so two
    different binary16 patterns never give the same binary32 pattern: the
    conversion of an embedding row loses nothing, NaN payloads and the sign
    of zero included. *)
Theorem fp16_to_f32_injective (a b : Z) :
  0 <= a < 65536 -> 0 <= b < 65536 ->
  (a < b -> fp16_to_f32 a < fp16_to_f32 b) /\
  (fp16_to_f32 a = fp16_to_f32 b -> a = b).
Proof.
  intros Ha Hb.
  assert (Hlt : forall x y, 0 <= x -> x < y -> y < 65536 ->
                            fp16_to_f32 x < fp16_to_f32 y).
  { intros x y Hx Hxy Hy.
    pose proof (fp16_to_f32_increasing_by (Z.to_nat (y - 1 - x)) x Hx ltac:(lia)) as H1.
    pose proof (fp16_to_f32_step (y - 1) ltac:(lia)) as H2.
    replace (x + Z.of_nat (Z.to_nat (y - 1 - x))) with (y - 1) in H1 by lia.
    replace (y - 1 + 1) with y in H2 by lia. lia. }
  split.
  - intros Hab. apply Hlt; lia.
  - intros Heq.
    destruct (Z.lt_trichotomy a b) as [Hab | [Hab | Hab]]; [| exact Hab |].
    + pose proof (Hlt a b ltac:(lia) Hab ltac:(lia)). lia.
    + pose proof (Hlt b a ltac:(lia) Hab ltac:(lia)). lia.
Qed.

Lemma fp16_to_f32_injective_witness :
  0 <= 1 < 65536 /\ 0 <= 1023 < 65536 /\ fp16_to_f32 1 < fp16_to_f32 1023.
Proof.
  split; [lia |]. split; [lia |].
  apply (fp16_to_f32_injective 1 1023); lia.
Defined.

(** X2. [f32_to_fp16] never returns a NaN or a subnormal: whatever the 32
    bits, the result is a 16-bit pattern that is a zero, a normal number or
    an infinity.  A binary32 NaN comes out as an infinity. *)
Theorem f32_to_fp16_class (bits : Z) :
  0 <= bits < 2 ^ 32 ->
  0 <= f32_to_fp16 bits < 2 ^ 16 /\
  Binary16.is_nan (f32_to_fp16 bits) = false /\
  Binary16.is_subnormal (f32_to_fp16 bits) = false /\
  (Binary32.is_nan bits = true ->
     Binary16.decode (f32_to_fp16 bits) = Inf (Binary32.sign_bit bits)).
Proof.
  intros Hbits.
  pose proof (f32_exp_field_range bits) as He.
  pose proof (f32_mant_field_range bits) as Hm.
  pose proof (f32_to_fp16_fields bits) as Hr.
  assert (Hq : 0 <= Binary32.mant_field bits / 2 ^ 13 < 1024).
  { change (2 ^ 13) with 8192. Z.div_mod_to_equations. lia. }
  set (s := Binary32.sign_bit bits) in *.
  set (E := Binary32.exp_field bits - 127 + 15) in *.
  assert (Hfields : exists ex mt,
             0 <= ex < 32 /\ 0 <= mt < 1024 /\
             f32_to_fp16 bits = Z.b2z s * 2 ^ 15 + ex * 2 ^ 10 + mt /\
             (ex = 0 -> mt = 0) /\ (ex = 31 -> mt = 0) /\
             (31 <= E -> ex = 31)).
  { destruct (Z.leb_spec E 0).
    - exists 0, 0. rewrite Hr. repeat split; lia.
    - destruct (Z.leb_spec 31 E).
      + exists 31, 0. rewrite Hr. repeat split; lia.
      + exists E, (Binary32.mant_field bits / 2 ^ 13). rewrite Hr.
        repeat split; lia. }
  destruct Hfields as (ex & mt & Hex & Hmt & Heq & H0 & H31 & Hsat).
  destruct (binary16_fields s ex mt Hex Hmt) as (Hrange & Hs & Hx & Hmf).
  rewrite <- Heq in Hrange, Hs, Hx, Hmf.
  split; [exact Hrange |].
  unfold Binary16.is_nan, Binary16.is_subnormal, Binary16.decode.
  rewrite Hs, Hx, Hmf.
  split; [| split].
  - destruct (Z.eqb_spec ex 31) as [H | H]; [| reflexivity].
    rewrite (H31 H). reflexivity.
  - destruct (Z.eqb_spec ex 0) as [H | H]; [| reflexivity].
    rewrite (H0 H). reflexivity.
  - intros Hnan. unfold Binary32.is_nan in Hnan.
    apply andb_true_iff in Hnan as [Hexp _]. apply Z.eqb_eq in Hexp.
    assert (ex = 31) as -> by (apply Hsat; subst E; lia).
    rewrite (H31 eq_refl). reflexivity.
Qed.

Lemma f32_to_fp16_class_witness :
  0 <= 2143289344 < 2 ^ 32 /\
  Binary16.is_nan (f32_to_fp16 2143289344) = false.
Proof.
  split; [lia |].
  apply (f32_to_fp16_class 2143289344). lia.
Defined.

Section Negation.

Lemma lxor_sign_field (b : bool) (n rest : Z) :
  0 <= n -> 0 <= rest < 2 ^ n ->
  Z.lxor (Z.b2z b * 2 ^ n + rest) (2 ^ n) = Z.b2z (negb b) * 2 ^ n + rest.
Proof.
  intros Hn Hrest.
  assert (Hdisj : Z.land (1 * 2 ^ n) rest = 0).
  { apply Z.bits_inj'. intros i Hi. rewrite Z.land_spec, Z.bits_0.
    destruct (Z.lt_ge_cases i n) as [Hlt | Hge].
    - rewrite Z.mul_pow2_bits_low by lia. reflexivity.
    - assert (Z.testbit rest i = false) as ->; [| apply andb_false_r].
      destruct (Z.eq_dec rest 0) as [-> | Hnz]; [apply Z.bits_0 |].
      apply Z.bits_above_log2; [lia |].
      apply Z.log2_lt_pow2; [lia |].
      apply Z.lt_le_trans with (2 ^ n); [lia |].
      apply Z.pow_le_mono_r; lia. }
  rewrite Z.mul_1_l in Hdisj.
  destruct b; cbn [Z.b2z negb].
  - rewrite Z.mul_1_l, Z.mul_0_l, Z.add_0_l.
    rewrite (Z.add_nocarry_lxor _ _ Hdisj).
    rewrite (Z.lxor_comm (2 ^ n) rest), Z.lxor_assoc, Z.lxor_nilpotent.
    apply Z.lxor_0_r.
  - rewrite Z.mul_1_l, Z.mul_0_l, Z.add_0_l.
    rewrite Z.lxor_comm. symmetry. apply Z.add_nocarry_lxor. exact Hdisj.
Qed.

Lemma f32_fields_neg (bits : Z) :
  Binary32.exp_field (Z.lxor bits (2 ^ 31)) = Binary32.exp_field bits /\
  Binary32.mant_field (Z.lxor bits (2 ^ 31)) = Binary32.mant_field bits /\
  Binary32.sign_bit (Z.lxor bits (2 ^ 31)) = negb (Binary32.sign_bit bits).
Proof.
  unfold Binary32.exp_field, Binary32.mant_field, Binary32.sign_bit.
  split; [| split].
  - rewrite Z.shiftr_lxor.
    apply Z.bits_inj'. intros i Hi.
    rewrite !Z.land_spec, Z.lxor_spec.
    change (Z.shiftr (2 ^ 31) 23) with (2 ^ 8).
    rewrite Z.pow2_bits_eqb by lia.
    destruct (Z.eqb_spec 8 i) as [<- | Hne].
    + change (Z.testbit 255 8) with false. rewrite !andb_false_r. reflexivity.
    + rewrite xorb_false_r. reflexivity.
  - apply Z.bits_inj'. intros i Hi.
    rewrite !Z.land_spec, Z.lxor_spec, Z.pow2_bits_eqb by lia.
    destruct (Z.eqb_spec 31 i) as [<- | Hne].
    + change (Z.testbit 8388607 31) with false. rewrite !andb_false_r. reflexivity.
    + rewrite xorb_false_r. reflexivity.
  - rewrite Z.lxor_spec, Z.pow2_bits_true by lia.
    apply xorb_true_r.
Qed.

Lemma f32_to_fp16_neg (bits : Z) :
  f32_to_fp16 (Z.lxor bits (2 ^ 31)) = Z.lxor (f32_to_fp16 bits) (2 ^ 15).
Proof.
  pose proof (f32_exp_field_range bits) as He.
  pose proof (f32_mant_field_range bits) as Hm.
  assert (Hq : 0 <= Binary32.mant_field bits / 2 ^ 13 < 1024).
  { change (2 ^ 13) with 8192. Z.div_mod_to_equations. lia. }
  destruct (f32_fields_neg bits) as (Hx & Hmf & Hs).
  rewrite (f32_to_fp16_fields (Z.lxor bits (2 ^ 31))), (f32_to_fp16_fields bits).
  rewrite Hx, Hmf, Hs.
  set (s := Binary32.sign_bit bits).
  set (E := Binary32.exp_field bits - 127 + 15) in *.
  set (q := Binary32.mant_field bits / 2 ^ 13) in *.
  destruct (Z.leb_spec E 0).
  { pose proof (lxor_sign_field s 15 0 ltac:(lia) ltac:(lia)) as H1.
    rewrite !Z.add_0_r in H1. symmetry. exact H1. }
  destruct (Z.leb_spec 31 E).
  { symmetry. apply lxor_sign_field; lia. }
  pose proof (lxor_sign_field s 15 (E * 2 ^ 10 + q) ltac:(lia) ltac:(lia)) as H1.
  rewrite !Z.add_assoc in H1. symmetry. exact H1.
Qed.

End Negation.

(** X3. Both conversions commute with negation: flipping the sign bit of
    the input flips the sign bit of the result and nothing else. *)
Theorem codec_negation :
  (forall h, 0 <= h < 65536 ->
     fp16_to_f32 (Z.lxor h 32768) = Z.lxor (fp16_to_f32 h) 2147483648) /\
  (forall bits, 0 <= bits < 2 ^ 32 ->
     f32_to_fp16 (Z.lxor bits 2147483648) = Z.lxor (f32_to_fp16 bits) 32768).
Proof.
  split.
  - intros h Hh.
    assert (Hc : fp16_to_f32_neg_check h = true).
    { apply all_u16; [vm_compute; reflexivity | exact Hh]. }
    apply Z.eqb_eq. exact Hc.
  - intros bits _. exact (f32_to_fp16_neg bits).
Qed.

(** ** More on [argmax_f32]: arrays with NaNs *)

Section ArgmaxNaN.

Lemma f32_key_nan f : Binary32.is_nan f = true -> f32_key f = None.
Proof.
  unfold Binary32.is_nan, f32_key, Binary32.decode. intros Hn.
  apply andb_true_iff in Hn as [He Hm]. rewrite He.
  apply negb_true_iff in Hm. rewrite Hm. reflexivity.
Qed.

Lemma f32_gt_nan_r x f : Binary32.is_nan f = true -> f32_gt x f = false.
Proof.
  intros Hn. unfold f32_gt. rewrite (f32_key_nan f Hn).
  destruct (f32_key x); reflexivity.
Qed.

Lemma f32_gt_not_nan x y :
  f32_gt x y = true -> Binary32.is_nan x = false /\ Binary32.is_nan y = false.
Proof.
  unfold f32_gt. intros H.
  split.
  - destruct (Binary32.is_nan x) eqn:Hx; [| reflexivity].
    rewrite (f32_key_nan x Hx) in H. discriminate.
  - destruct (Binary32.is_nan y) eqn:Hy; [| reflexivity].
    rewrite (f32_key_nan y Hy) in H. destruct (f32_key x); discriminate.
Qed.

Variable data : list Z.

(** Once the best value is a NaN nothing displaces it. *)
Lemma argmax_scan_nan (cnt : nat) :
  forall i best best_val,
    Binary32.is_nan best_val = true ->
    argmax_scan data cnt i best best_val = best.
Proof.
  induction cnt as [| cnt IH]; intros i best best_val Hn; [reflexivity |].
  cbn [argmax_scan]. rewrite (f32_gt_nan_r _ _ Hn). apply IH, Hn.
Qed.

Lemma argmax_scan_range (cnt : nat) :
  forall i best best_val,
    0 <= best < i ->
    0 <= argmax_scan data cnt i best best_val < i + Z.of_nat cnt.
Proof.
  induction cnt as [| cnt IH]; intros i best best_val Hb.
  - cbn [argmax_scan]. lia.
  - cbn [argmax_scan].
    destruct (f32_gt _ best_val).
    + pose proof (IH (i + 1) i (nth (Z.to_nat i) data 0) ltac:(lia)). lia.
    + pose proof (IH (i + 1) best best_val ltac:(lia)). lia.
Qed.

(** The scan from a best cell that holds a number: NaN cells are passed
    over, the others are compared. *)
Lemma argmax_scan_skips_nan (n : Z) (cnt : nat) :
  forall i best,
    0 <= best < i ->
    i + Z.of_nat cnt = n ->
    Binary32.is_nan (cell data best) = false ->
    (forall j, 0 <= j < i -> Binary32.is_nan (cell data j) = false ->
               f32_le (cell data j) (cell data best) = true) ->
    (forall j, 0 <= j < best -> Binary32.is_nan (cell data j) = false ->
               f32_gt (cell data best) (cell data j) = true) ->
    let r := argmax_scan data cnt i best (cell data best) in
    Binary32.is_nan (cell data r) = false /\
    (forall j, 0 <= j < n -> Binary32.is_nan (cell data j) = false ->
               f32_le (cell data j) (cell data r) = true) /\
    (forall j, 0 <= j < r -> Binary32.is_nan (cell data j) = false ->
               f32_gt (cell data r) (cell data j) = true).
Proof.
  induction cnt as [| cnt IH]; intros i best Hbest Hn Hnb Hle Hgt.
  - cbn [argmax_scan]. cbv zeta. replace n with i by lia. auto.
  - cbn [argmax_scan]. fold (cell data i).
    destruct (f32_key_not_nan _ Hnb) as [kb Hkb].
    destruct (f32_gt (cell data i) (cell data best)) eqn:Hcmp.
    + destruct (f32_gt_not_nan _ _ Hcmp) as [Hni _].
      destruct (f32_key_not_nan _ Hni) as [ki Hki].
      apply IH; [lia | lia | exact Hni | |].
      * intros j Hj Hnj. destruct (Z.eq_dec j i) as [-> | Hne].
        { unfold f32_le. rewrite Hki. apply Z.leb_refl. }
        specialize (Hle j ltac:(lia) Hnj).
        destruct (f32_key_not_nan _ Hnj) as [kj Hkj].
        unfold f32_le, f32_gt in *. rewrite Hki, Hkb, ?Hkj in *.
        apply Z.ltb_lt in Hcmp. apply Z.leb_le in Hle. apply Z.leb_le. lia.
      * intros j Hj Hnj.
        specialize (Hle j ltac:(lia) Hnj).
        destruct (f32_key_not_nan _ Hnj) as [kj Hkj].
        unfold f32_le, f32_gt in *. rewrite Hki, Hkb, ?Hkj in *.
        apply Z.ltb_lt in Hcmp. apply Z.leb_le in Hle. apply Z.ltb_lt. lia.
    + apply IH; [lia | lia | exact Hnb | | exact Hgt].
      intros j Hj Hnj. destruct (Z.eq_dec j i) as [-> | Hne]; [| apply Hle; [lia | exact Hnj]].
      destruct (f32_key_not_nan _ Hnj) as [ki Hki].
      unfold f32_le, f32_gt in *. rewrite Hki, Hkb in *.
      apply Z.ltb_ge in Hcmp. apply Z.leb_le. lia.
Qed.

End ArgmaxNaN.

(** X4. [argmax_f32] on an array that may hold NaNs.  The index returned is
    always inside the array.  When cell 0 is a NaN the result is 0,
    whatever the other cells hold.  When cell 0 is a number, NaN cells are
    passed over: the cell returned is a number, no number in the array is
    above it, and it is above every number before it. *)
Theorem argmax_f32_with_nan (data : list Z) (n : Z) :
  0 < n <= Z.of_nat (length data) ->
  let r := argmax_f32 data n in
  0 <= r < n /\
  (Binary32.is_nan (cell data 0) = true -> r = 0) /\
  (Binary32.is_nan (cell data 0) = false ->
     Binary32.is_nan (cell data r) = false /\
     (forall j, 0 <= j < n -> Binary32.is_nan (cell data j) = false ->
                f32_le (cell data j) (cell data r) = true) /\
     (forall j, 0 <= j < r -> Binary32.is_nan (cell data j) = false ->
                f32_gt (cell data r) (cell data j) = true)).
Proof.
  intros Hn r. subst r. unfold argmax_f32.
  change (nth 0 data 0) with (cell data 0).
  split; [| split].
  - pose proof (argmax_scan_range data (Z.to_nat (n - 1)) 1 0 (cell data 0)
                  ltac:(lia)). lia.
  - intros Hnan. apply argmax_scan_nan, Hnan.
  - intros Hnum.
    apply (argmax_scan_skips_nan data n); [lia | lia | exact Hnum | |].
    + intros j Hj _. replace j with 0 by lia.
      destruct (f32_key_not_nan _ Hnum) as [k Hk].
      unfold f32_le. rewrite Hk. apply Z.leb_refl.
    + intros j Hj. lia.
Qed.

Lemma argmax_f32_with_nan_witness :
  let data := [1065353216; 2143289344; 1073741824; 1073741824] in
  0 < 4 <= Z.of_nat (length data) /\
  0 <= argmax_f32 data 4 < 4 /\ argmax_f32 data 4 = 2.
Proof.
  cbv zeta. split; [simpl; lia |]. split; [| vm_compute; reflexivity].
  apply (argmax_f32_with_nan [1065353216; 2143289344; 1073741824; 1073741824] 4).
  simpl. lia.
Defined.

(** ** More on the buffers: one embedding row, the padded mel buffer *)

Section Buffers.

Lemma cell_lookup (l : list Z) (i : Z) :
  0 <= i -> cell l i = default 0 (l !! Z.to_nat i).
Proof. intros _. unfold cell. apply nth_lookup. Qed.

Lemma row_f32_lookup embed_fp16 row (cnt : nat) (i : nat) :
  (i < cnt)%nat ->
  row_f32 embed_fp16 row 0 cnt !! i =
    Some (fp16_to_f32 (nth (Z.to_nat (row + Z.of_nat i)) embed_fp16 0)).
Proof.
  intros Hi. unfold row_f32.
  rewrite list_lookup_fmap, lookup_seqZ_lt by lia.
  reflexivity.
Qed.

End Buffers.

(** X5. [embed_token_fp16] on a buffer with room for a row at offset
    [off]: the [hidden_dim] cells from [off] receive the converted cells of
    row [token_id] of the table, in order; every other cell of the buffer,
    and its length, are as before. *)
Theorem embed_token_fp16_cells (embed_fp16 : list Z) (token_id hidden_dim : Z)
    (out : list Z) (off : Z) :
  0 <= token_id <= INT_MAX -> 0 <= hidden_dim <= INT_MAX ->
  0 <= off -> off + hidden_dim <= Z.of_nat (length out) ->
  let out' := embed_token_fp16 embed_fp16 token_id hidden_dim out off in
  length out' = length out /\
  (forall i, 0 <= i < hidden_dim ->
     cell out' (off + i) =
       fp16_to_f32 (cell embed_fp16 (token_id * hidden_dim + i))) /\
  (forall j, 0 <= j -> ~ (off <= j < off + hidden_dim) ->
     cell out' j = cell out j).
Proof.
  intros Ht Hh Hoff Hroom out'. subst out'. unfold INT_MAX in *.
  rewrite (embed_token_fp16_inserts embed_fp16 hidden_dim) by lia.
  rewrite (u64_small token_id), (u64_small hidden_dim) by lia.
  rewrite u64_small by nia.
  set (row := row_f32 embed_fp16 (token_id * hidden_dim) 0 (Z.to_nat hidden_dim)).
  assert (Hlen : length row = Z.to_nat hidden_dim) by apply length_row_f32.
  split; [apply length_inserts |].
  split.
  - intros i Hi. rewrite cell_lookup by lia.
    replace (Z.to_nat (off + i)) with (Z.to_nat off + Z.to_nat i)%nat by lia.
    rewrite list_lookup_inserts by lia.
    replace (Z.to_nat off + Z.to_nat i - Z.to_nat off)%nat with (Z.to_nat i) by lia.
    subst row. rewrite row_f32_lookup by lia.
    rewrite Z2Nat.id by lia. reflexivity.
  - intros j Hj Hout. rewrite !cell_lookup by lia.
    destruct (Z.lt_ge_cases j off) as [Hlt | Hge].
    + rewrite list_lookup_inserts_lt by lia. reflexivity.
    + rewrite list_lookup_inserts_ge by lia. reflexivity.
Qed.

Lemma embed_token_fp16_cells_witness :
  let out' := embed_token_fp16 [0; 0; 15360; 16384] 1 2 [7; 7; 7; 7] 1 in
  length out' = 4%nat /\ out' = [7; 1065353216; 1073741824; 7].
Proof.
  cbv zeta. split; [| vm_compute; reflexivity].
  apply (embed_token_fp16_cells [0; 0; 15360; 16384] 1 2 [7; 7; 7; 7] 1);
    unfold INT_MAX; simpl; lia.
Defined.

(** X6. What the padding step of [qwen_onnx_transcribe] leaves in the mel
    buffer.  The frame count becomes the least multiple of [CHUNK_SIZE] not
    below [n_frames]; the buffer has [QWEN_MEL_BINS] times that many cells;
    its contents are the extractor's buffer as one block, followed by
    zeros.  (When [n_frames] is a multiple already the block of zeros is
    empty and the buffer is the extractor's.) *)
Theorem pad_mel_appends_zeros (bins : Z) (mel : list Z) (n_frames : Z) :
  0 <= bins -> 0 <= n_frames <= INT_MAX - 99 ->
  bins * (n_frames + 99) < 2 ^ 64 ->
  length mel = Z.to_nat (bins * n_frames) ->
  let pf := padded_frames n_frames in
  pf mod CHUNK_SIZE = 0 /\ n_frames <= pf /\
  (forall m, m mod CHUNK_SIZE = 0 -> n_frames <= m -> pf <= m) /\
  pad_mel bins mel n_frames =
    mel ++ replicate (Z.to_nat (bins * (pf - n_frames))) 0 /\
  length (pad_mel bins mel n_frames) = Z.to_nat (bins * pf).
Proof.
  intros Hb Hn Hsz Hlen pf.
  destruct (padded_frames_least_multiple n_frames Hn) as [Hmod Hpf].
  fold pf in Hmod, Hpf. unfold CHUNK_SIZE in *.
  assert (Heq : pad_mel bins mel n_frames =
                mel ++ replicate (Z.to_nat (bins * (pf - n_frames))) 0).
  { destruct (Z.ltb_spec 0 (pad_frames n_frames)) as [Hpad | Hpad].
    - apply pad_mel_flat; assumption.
    - unfold pad_mel.
      destruct (Z.ltb_spec 0 (pad_frames n_frames)) as [Hc | _]; [lia |].
      assert (Hpf0 : pf = n_frames).
      { subst pf. unfold padded_frames.
        assert (Hz : pad_frames n_frames = 0).
        { unfold pad_frames, CHUNK_SIZE, INT_MAX in *.
          pose proof (Z.rem_bound_pos n_frames 100 ltac:(lia) ltac:(lia)).
          rewrite (int32_small (100 - Z.rem n_frames 100)) in Hpad |- *
            by (unfold INT_MAX; lia).
          pose proof (Z.rem_bound_pos (100 - Z.rem n_frames 100) 100
                        ltac:(lia) ltac:(lia)).
          lia. }
        rewrite Hz, Z.add_0_r. apply int32_small. unfold INT_MAX in *. lia. }
      rewrite Hpf0, Z.sub_diag, Z.mul_0_r. cbn [Z.to_nat replicate].
      symmetry. apply app_nil_r. }
  split; [exact Hmod |]. split; [lia |].
  split.
  { intros m Hm Hle. Z.div_mod_to_equations. lia. }
  split; [exact Heq |].
  rewrite Heq, length_app, length_replicate, Hlen. nia.
Qed.

Lemma pad_mel_appends_zeros_witness :
  padded_frames 3 mod CHUNK_SIZE = 0 /\
  length (pad_mel 2 [1; 2; 3; 4; 5; 6] 3) = 200%nat.
Proof.
  pose proof (pad_mel_appends_zeros 2 [1; 2; 3; 4; 5; 6] 3
                ltac:(lia) ltac:(unfold INT_MAX; lia) ltac:(lia) eq_refl) as H.
  cbv zeta in H.
  split; [exact (proj1 H) | exact (proj2 (proj2 (proj2 (proj2 H))))].
Defined.

(** ** Invariants of a call of [qwen_onnx_transcribe]

    An invariant that the runs of the sessions, the probe of the layer
    count, the on-demand loads and the releases preserve is preserved by the
    whole body and by [cleanup]. *)

Create HintDb stable.

Section StableRelease.

Variable Inv : world -> Prop.
Hypothesis Inv_release : forall s, hoare Inv (release_if_loaded s) (fun _ => Inv) Inv.

Lemma stable_release_after_stage s :
  hoare Inv (release_after_stage s) (fun _ => Inv) Inv.
Proof.
  unfold release_after_stage. intros w Hw. unfold bind at 1, get_ctx.
  destruct (keep_sessions (w_ctx w)); [exact Hw |].
  exact (Inv_release s w Hw).
Qed.

Lemma stable_cleanup : hoare Inv cleanup (fun _ => Inv) Inv.
Proof.
  unfold cleanup. intros w Hw. unfold bind at 1, get_ctx.
  destruct (keep_sessions (w_ctx w)); [exact Hw |].
  revert w Hw.
  eapply hoare_bind; [apply Inv_release | intros ?; cbv beta].
  eapply hoare_bind; [apply Inv_release | intros ?; cbv beta].
  apply Inv_release.
Qed.

End StableRelease.

Section Stable.

Context {KV : Type} (ext : External KV).
Variable Inv : world -> Prop.
Hypothesis Inv_run : forall s w, Inv w -> Inv (snd (emit (EvRun s) w)).
Hypothesis Inv_run_decode :
  forall step token w, Inv w -> Inv (snd (emit (EvRunDecode step token) w)).
Hypothesis Inv_probe :
  forall w, Inv w -> n_layers (w_ctx w) = 0 ->
            Inv (snd (modify_ctx (set_n_layers (probed_layers ext)) w)).
Hypothesis Inv_load : forall s, hoare Inv (load_on_demand ext s) (fun _ => Inv) Inv.
Hypothesis Inv_release_after :
  forall s, hoare Inv (release_after_stage s) (fun _ => Inv) Inv.

Lemma stable_bind {A B} (m : M A) (k : A -> M B) (Q : B -> world -> Prop) :
  hoare Inv m (fun _ => Inv) Inv ->
  (forall a, hoare Inv (k a) Q Inv) ->
  hoare Inv (bind m k) Q Inv.
Proof. intros Hm Hk. eapply hoare_bind; [exact Hm | exact Hk]. Qed.

Lemma stable_check ok : hoare Inv (check ok) (fun _ => Inv) Inv.
Proof. intros w Hw. destruct ok; exact Hw. Qed.

Lemma stable_of_option {A} (o : option A) : hoare Inv (of_option o) (fun _ => Inv) Inv.
Proof. intros w Hw. destruct o; exact Hw. Qed.

Lemma stable_get_ctx : hoare Inv get_ctx (fun _ => Inv) Inv.
Proof. intros w Hw. exact Hw. Qed.

Lemma stable_run s : hoare Inv (emit (EvRun s)) (fun _ => Inv) Inv.
Proof. intros w Hw. exact (Inv_run s w Hw). Qed.

Lemma stable_probe_n_layers : hoare Inv (probe_n_layers ext) (fun _ => Inv) Inv.
Proof.
  unfold probe_n_layers. intros w Hw. unfold bind at 1, get_ctx.
  destruct (Z.eqb_spec (n_layers (w_ctx w)) 0) as [Hz | Hnz]; [| exact Hw].
  unfold bind, check.
  destruct (check_ok ext PrefillOutputCount); [| exact Hw].
  exact (Inv_probe w Hw Hz).
Qed.

(** The decode loop adds at most one token per iteration. *)
Lemma stable_decode_loop plen (remaining : nat) :
  forall step token generated buf kv,
    hoare Inv (decode_loop ext plen remaining step token generated buf kv)
      (fun g w =>
         Inv w /\ (length generated <= length g <= length generated + remaining)%nat)
      Inv.
Proof.
  induction remaining as [| rem IH]; intros step token generated buf kv w Hw.
  - cbn. split; [exact Hw | lia].
  - rewrite decode_loop_step.
    destruct (is_eos token); [split; [exact Hw | lia] |].
    cbv zeta.
    pose proof (Inv_run_decode step token w Hw) as Hw1.
    destruct (Run_decode ext _ _ kv) as [[logits kv'] |]; [| exact Hw1].
    destruct (check_ok ext (DecodeGetData step)); [| exact Hw1].
    match goal with
    | |- context [decode_loop ext plen rem ?st ?tk ?g ?b ?k ?w1] =>
        pose proof (IH st tk g b k w1 Hw1) as Hrec;
        destruct (decode_loop ext plen rem st tk g b k w1) as [[g' |] w']
    end; [| exact Hrec].
    destruct Hrec as [Hw' Hlen]. split; [exact Hw' |].
    rewrite length_app in Hlen. cbn [length] in Hlen. lia.
Qed.

#[local] Hint Resolve stable_check stable_of_option stable_get_ctx stable_run
  Inv_release_after stable_probe_n_layers Inv_load : stable.

(** The body: the invariant holds wherever it leaves, and a text returned
    is the detokenization of a stream of 1 to [MAX_NEW_TOKENS] tokens whose
    length was just stored in [last_n_tokens]. *)
Lemma stable_transcribe_body samples n_samples :
  hoare Inv (transcribe_body ext samples n_samples)
    (fun text w =>
       exists generated w1,
         text = detokenize ext generated /\
         1 <= Z.of_nat (length generated) <= MAX_NEW_TOKENS /\
         Inv w1 /\
         w = snd (set_last_n_tokens (Z.of_nat (length generated)) w1))
    Inv.
Proof.
  unfold transcribe_body.
  repeat (apply stable_bind;
          [solve [auto with stable]
          | intros ?;
            repeat match goal with a : (_ * _)%type |- _ => destruct a end]).
  eapply hoare_bind; [apply stable_decode_loop |].
  intros generated w [Hw Hlen]. cbn.
  exists generated, w. split; [reflexivity |].
  split; [| split; [exact Hw | reflexivity]].
  cbn [length] in Hlen.
  change (Z.to_nat (MAX_NEW_TOKENS - 1)) with 1023%nat in Hlen.
  change MAX_NEW_TOKENS with 1024. lia.
Qed.

End Stable.

(** ** [create_session_with_fallback] *)

Section CreateSession.

Context {KV : Type} (ext : External KV).

(** One level of the fallback, written out. *)
Lemma create_session_cons s threads level rest w :
  create_session_with_fallback ext s threads (level :: rest) w =
    if negb (session_options_ok ext s level) then (Some false, w)
    else if CreateSession ext s threads level
    then (Some true,
          snd (modify_ctx (set_slot s (Some {| session_level := level |}))
                 (snd (emit (EvCreateSession s level true) w))))
    else create_session_with_fallback ext s threads rest
           (snd (set_last_error (ErrCreateSession s level)
                   (snd (emit (EvCreateSession s level false) w)))).
Proof.
  cbn [create_session_with_fallback].
  destruct (negb (session_options_ok ext s level)); [reflexivity |].
  unfold bind at 1. cbn [emit].
  destruct (CreateSession ext s threads level); reflexivity.
Qed.

(** What a call leaves behind: when it returns 1 the slot holds a new
    session, when it returns 0 the context is as before; [last_n_tokens] is
    untouched; the events are attempts to create [s], the last of which
    succeeded exactly when 1 is returned. *)
Lemma create_session_effect s threads (levels : list GraphOptimizationLevel) :
  forall w,
    let res := create_session_with_fallback ext s threads levels w in
    exists (ok : bool) sess evs,
      fst res = Some ok /\
      w_ctx (snd res) =
        (if ok then set_slot s (Some sess) (w_ctx w) else w_ctx w) /\
      last_n_tokens (w_statics (snd res)) = last_n_tokens (w_statics w) /\
      trace (w_statics (snd res)) = trace (w_statics w) ++ evs /\
      released evs = [] /\
      created evs = (if ok then [s] else []) /\
      (evs = [] -> last_error (w_statics (snd res)) = last_error (w_statics w)).
Proof.
  induction levels as [| level rest IH]; intros w res; subst res.
  - exists false, {| session_level := ORT_DISABLE_ALL |}, [].
    cbn. rewrite app_nil_r. repeat split; reflexivity.
  - rewrite create_session_cons.
    destruct (session_options_ok ext s level); cbn [negb].
    2: { exists false, {| session_level := ORT_DISABLE_ALL |}, [].
         cbn. rewrite app_nil_r. repeat split; reflexivity. }
    destruct (CreateSession ext s threads level) eqn:Hok.
    + exists true, {| session_level := level |},
        [(EvCreateSession s level true, loaded (w_ctx w))].
      cbn.
      split; [reflexivity |]. split; [reflexivity |]. split; [reflexivity |].
      split; [reflexivity |]. split; [reflexivity |].
      split; [reflexivity | discriminate].
    + set (w1 := snd (set_last_error _ _)).
      destruct (IH w1) as (ok & sess & evs & Hr & Hc & Hn & Ht & Hrel & Hcr & _).
      exists ok, sess, ((EvCreateSession s level false, loaded (w_ctx w)) :: evs).
      split; [exact Hr |]. split; [exact Hc |]. split; [exact Hn |].
      split; [rewrite Ht; subst w1; cbn; rewrite <- app_assoc; reflexivity |].
      split; [exact Hrel |]. split; [exact Hcr | discriminate].
Qed.

End CreateSession.

(** X7. [create_session_with_fallback], called as every caller does with
    the address of a slot that is NULL, tries the levels in order and
    returns to its caller in every case.  When it returns 1, the slot
    holds the session created at the first level at which [CreateSession]
    succeeded, every level before it having failed there, and the rest of
    the context is as before.  It returns 0, with the context as before,
    when every level failed or when the session options could not be built
    at some level, the levels after that one not being tried.  The message
    of the last failed [CreateSession] is left in [last_error], also when
    a later level succeeded. *)
Theorem create_session_first_success {KV} (ext : External KV) (s : slot)
    (threads : Z) (levels : list GraphOptimizationLevel) (w : world) :
  get_slot s (w_ctx w) = None ->
  let res := create_session_with_fallback ext s threads levels w in
  exists (ok : bool) pre,
    fst res = Some ok /\
    Forall (level_fails ext s threads) pre /\
    last_error (w_statics (snd res)) =
      match last pre with
      | Some l => Some (ErrCreateSession s l)
      | None => last_error (w_statics w)
      end /\
    if ok then
      exists level post,
        levels = pre ++ level :: post /\
        session_options_ok ext s level = true /\
        CreateSession ext s threads level = true /\
        w_ctx (snd res) =
          set_slot s (Some {| session_level := level |}) (w_ctx w)
    else
      (levels = pre \/
       exists l post,
         levels = pre ++ l :: post /\ session_options_ok ext s l = false) /\
      w_ctx (snd res) = w_ctx w.
Proof.
  intros _. cbv zeta.
  revert w. induction levels as [| level rest IH]; intros w.
  - exists false, []. cbn. repeat split; auto.
  - rewrite create_session_cons.
    destruct (session_options_ok ext s level) eqn:Hopt; cbn [negb].
    2: { exists false, []. cbn. split; [reflexivity |]. split; [constructor |].
         split; [reflexivity |]. split; [| reflexivity].
         right. exists level, rest. split; auto. }
    destruct (CreateSession ext s threads level) eqn:Hok.
    + exists true, []. cbn.
      split; [reflexivity |]. split; [constructor |]. split; [reflexivity |].
      exists level, rest. repeat split; assumption.
    + set (w1 := snd (set_last_error _ _)).
      destruct (IH w1) as (ok & pre & Hr & Hpre & Herr & Hres).
      exists ok, (level :: pre).
      split; [exact Hr |].
      split; [constructor; [split; assumption | exact Hpre] |].
      split.
      { rewrite Herr.
        destruct pre as [| l pre']; [reflexivity |].
        change (last (level :: l :: pre')) with (last (l :: pre')).
        destruct (last (l :: pre')) eqn:Hl; [reflexivity |].
        exfalso. revert Hl. clear.
        generalize l. induction pre' as [| x xs IHx]; intros y; [discriminate |].
        exact (IHx x). }
      destruct ok.
      * destruct Hres as (lv & post & Hlv & Ho & Hc & Hctx).
        exists lv, post.
        split; [rewrite Hlv; reflexivity |].
        split; [exact Ho |]. split; [exact Hc |]. exact Hctx.
      * destruct Hres as [[Hlv | (l & post & Hlv & Ho)] Hctx].
        -- split; [left; rewrite Hlv; reflexivity | exact Hctx].
        -- split; [| exact Hctx].
           right. exists l, post.
           split; [rewrite Hlv; reflexivity | exact Ho].
Qed.

Lemma create_session_first_success_witness :
  let w := {| w_ctx := Fixture.ctx; w_statics := Fixture.statics0 |} in
  let res := create_session_with_fallback Fixture.ext Prefill 3 dec_levels w in
  get_slot Prefill (w_ctx w) = None /\
  fst res = Some true /\
  prefill (w_ctx (snd res)) = Some {| session_level := ORT_DISABLE_ALL |} /\
  last_error (w_statics (snd res)) =
    Some (ErrCreateSession Prefill ORT_ENABLE_BASIC) /\
  exists (ok : bool) pre,
    fst res = Some ok /\
    Forall (level_fails Fixture.ext Prefill 3) pre /\
    last_error (w_statics (snd res)) =
      match last pre with
      | Some l => Some (ErrCreateSession Prefill l)
      | None => last_error (w_statics w)
      end /\
    if ok then
      exists level post,
        dec_levels = pre ++ level :: post /\
        session_options_ok Fixture.ext Prefill level = true /\
        CreateSession Fixture.ext Prefill 3 level = true /\
        w_ctx (snd res) =
          set_slot Prefill (Some {| session_level := level |}) (w_ctx w)
    else
      (dec_levels = pre \/
       exists l post,
         dec_levels = pre ++ l :: post /\
         session_options_ok Fixture.ext Prefill l = false) /\
      w_ctx (snd res) = w_ctx w.
Proof.
  cbv zeta.
  split; [reflexivity |]. split; [reflexivity |]. split; [reflexivity |].
  split; [reflexivity |].
  apply (create_session_first_success Fixture.ext Prefill 3 dec_levels
           {| w_ctx := Fixture.ctx; w_statics := Fixture.statics0 |}).
  reflexivity.
Defined.

(** ** What a call of [qwen_onnx_transcribe] leaves alone *)

Section Frame.

Context {KV : Type} (ext : External KV) (c0 : qwen_onnx_ctx).

Let Inv : world -> Prop := fun w => framed ext c0 (w_ctx w).

Lemma framed_refl : framed ext c0 c0.
Proof. split; [repeat split | left; reflexivity]. Qed.

Lemma frame_probe w :
  Inv w -> n_layers (w_ctx w) = 0 ->
  Inv (snd (modify_ctx (set_n_layers (probed_layers ext)) w)).
Proof.
  intros [Hm Hl] Hz. split; [exact Hm |].
  right. cbn. split; [| reflexivity].
  destruct Hl as [Hl | [Hl _]]; [rewrite <- Hl; exact Hz | exact Hl].
Qed.

Lemma frame_load_on_demand s : hoare Inv (load_on_demand ext s) (fun _ => Inv) Inv.
Proof.
  intros w Hw. unfold load_on_demand, bind at 1, get_ctx.
  destruct (get_slot s (w_ctx w)); [exact Hw |].
  unfold bind.
  destruct (create_session_effect ext s (slot_threads s (w_ctx w))
              (slot_levels s) w) as (ok & sess & evs & Hr & Hc & _).
  destruct (create_session_with_fallback ext s _ _ w) as [r w'].
  cbn [fst snd] in Hr, Hc. subst r.
  destruct ok; cbn; unfold Inv; cbn [w_ctx]; rewrite Hc; exact Hw.
Qed.

Lemma frame_release_if_loaded s : hoare Inv (release_if_loaded s) (fun _ => Inv) Inv.
Proof.
  intros w Hw. unfold release_if_loaded, bind at 1, get_ctx.
  destruct (get_slot s (w_ctx w)); exact Hw.
Qed.

Lemma frame_transcribe_body_ctx samples n_samples w :
  Inv w -> Inv (snd (transcribe_body ext samples n_samples w)).
Proof.
  intros Hw0.
  assert (Hrun : forall s w, Inv w -> Inv (snd (emit (EvRun s) w)))
    by (intros ? ? H; exact H).
  assert (Hdec : forall st tk w, Inv w -> Inv (snd (emit (EvRunDecode st tk) w)))
    by (intros ? ? ? H; exact H).
  pose proof (stable_transcribe_body ext Inv Hrun Hdec frame_probe
                frame_load_on_demand
                (stable_release_after_stage Inv frame_release_if_loaded)
                samples n_samples w Hw0) as Hbody.
  destruct (transcribe_body ext samples n_samples w) as [r w'].
  destruct r; [| exact Hbody].
  destruct Hbody as (gen & w1 & _ & _ & Hw1 & ->). exact Hw1.
Qed.

Lemma frame_transcribe samples n_samples g :
  exists c',
    snd (fst (qwen_onnx_transcribe ext (Some c0) samples n_samples g)) = Some c' /\
    framed ext c0 c'.
Proof.
  unfold qwen_onnx_transcribe.
  destruct samples as [smp |];
    [| exists c0; split; [reflexivity | apply framed_refl]].
  destruct (n_samples <=? 0);
    [exists c0; split; [reflexivity | apply framed_refl] |].
  pose proof (frame_transcribe_body_ctx smp n_samples
                {| w_ctx := c0; w_statics := g |} framed_refl) as Hw.
  destruct (transcribe_body ext smp n_samples _) as [r w]. cbn [snd] in Hw.
  pose proof (stable_cleanup Inv frame_release_if_loaded w Hw) as Hc.
  destruct (cleanup w) as [[u |] w']; cbn [snd fst];
    exists (w_ctx w'); (split; [reflexivity | exact Hc]).
Qed.

End Frame.

(** X8. A call of [qwen_onnx_transcribe] on a context returns that
    context with its model untouched: the embedding table, [vocab_size],
    [hidden_dim], the thread counts and [keep_sessions] are as before,
    whether the call succeeds or fails.  [n_layers] changes only if it was
    0, and then to the count probed from the prefill session. *)
Theorem transcribe_preserves_model {KV} (ext : External KV)
    (c : qwen_onnx_ctx) (samples : option (list Z)) (n_samples : Z)
    (g : statics) :
  exists c',
    snd (fst (qwen_onnx_transcribe ext (Some c) samples n_samples g)) = Some c' /\
    same_model c c' /\
    (n_layers c <> 0 -> n_layers c' = n_layers c) /\
    (n_layers c' = n_layers c \/ n_layers c' = probed_layers ext).
Proof.
  destruct (frame_transcribe ext c samples n_samples g) as (c' & Hc' & Hm & Hl).
  exists c'. split; [exact Hc' |]. split; [exact Hm |].
  destruct Hl as [Hl | [Hz Hl]].
  - split; [intros _; exact Hl | left; exact Hl].
  - split; [intros Hnz; contradiction | right; exact Hl].
Qed.

(** ** The token count and the text of a call *)

Section TokenCount.

Context {KV : Type} (ext : External KV) (n0 : Z).

Let Inv : world -> Prop := fun w => last_n_tokens (w_statics w) = n0.

Lemma count_load_on_demand s : hoare Inv (load_on_demand ext s) (fun _ => Inv) Inv.
Proof.
  intros w Hw. unfold load_on_demand, bind at 1, get_ctx.
  destruct (get_slot s (w_ctx w)); [exact Hw |].
  unfold bind.
  destruct (create_session_effect ext s (slot_threads s (w_ctx w))
              (slot_levels s) w) as (ok & sess & evs & Hr & _ & Hn & _).
  destruct (create_session_with_fallback ext s _ _ w) as [r' w'].
  cbn in Hr, Hn. subst r'.
  destruct ok; cbn; unfold Inv; cbn; rewrite Hn; exact Hw.
Qed.

Lemma count_release_if_loaded s : hoare Inv (release_if_loaded s) (fun _ => Inv) Inv.
Proof.
  intros w Hw. unfold release_if_loaded, bind at 1, get_ctx.
  destruct (get_slot s (w_ctx w)); exact Hw.
Qed.

Lemma cleanup_last_n_tokens w :
  last_n_tokens (w_statics (snd (cleanup w))) = last_n_tokens (w_statics w).
Proof.
  unfold cleanup, release_if_loaded, bind, get_ctx.
  destruct (keep_sessions (w_ctx w)); [reflexivity |].
  destruct (get_slot Encoder (w_ctx w)); cbn;
    destruct (prefill (w_ctx w)); cbn;
    destruct (decode (w_ctx w)); reflexivity.
Qed.

Lemma count_transcribe_body samples n_samples w :
  Inv w ->
  match transcribe_body ext samples n_samples w with
  | (Some text, w') =>
      exists generated,
        text = detokenize ext generated /\
        1 <= Z.of_nat (length generated) <= MAX_NEW_TOKENS /\
        last_n_tokens (w_statics w') = Z.of_nat (length generated)
  | (None, w') => last_n_tokens (w_statics w') = n0
  end.
Proof.
  intros Hw.
  assert (Hrun : forall s w, Inv w -> Inv (snd (emit (EvRun s) w)))
    by (intros ? ? H; exact H).
  assert (Hdec : forall st tk w, Inv w -> Inv (snd (emit (EvRunDecode st tk) w)))
    by (intros ? ? ? H; exact H).
  assert (Hprobe : forall w, Inv w -> n_layers (w_ctx w) = 0 ->
            Inv (snd (modify_ctx (set_n_layers (probed_layers ext)) w)))
    by (intros ? H _; exact H).
  pose proof (stable_transcribe_body ext Inv Hrun Hdec Hprobe
                count_load_on_demand
                (stable_release_after_stage Inv count_release_if_loaded)
                samples n_samples w Hw) as Hbody.
  destruct (transcribe_body ext samples n_samples w) as [[text |] w'];
    [| exact Hbody].
  destruct Hbody as (gen & w1 & Ht & Hlen & _ & ->).
  exists gen. split; [exact Ht |]. split; [exact Hlen | reflexivity].
Qed.

End TokenCount.

(** X9. What a call of [qwen_onnx_transcribe] reports.  A text returned
    is the detokenization of a stream of at least 1 and at most
    [MAX_NEW_TOKENS] tokens; [last_n_tokens] then holds the length of that
    stream, trailing EOS tokens included, and the text neither starts nor
    ends with a space, a tab or a newline.  When the call returns NULL,
    [last_n_tokens] is left as it was. *)
Theorem transcribe_token_count {KV} (ext : External KV)
    (ctx : option qwen_onnx_ctx) (samples : option (list Z)) (n_samples : Z)
    (g : statics) :
  let res := qwen_onnx_transcribe ext ctx samples n_samples g in
  (forall text,
     fst (fst res) = Some text ->
     (exists generated,
        text = detokenize ext generated /\
        1 <= Z.of_nat (length generated) <= MAX_NEW_TOKENS /\
        last_n_tokens (snd res) = Z.of_nat (length generated)) /\
     (forall c, head text = Some c -> is_space c = false) /\
     (forall c, last text = Some c -> is_space c = false)) /\
  (fst (fst res) = None -> last_n_tokens (snd res) = last_n_tokens g).
Proof.
  cbv zeta. unfold qwen_onnx_transcribe.
  destruct ctx as [c |]; [| split; [discriminate | reflexivity]].
  destruct samples as [smp |]; [| split; [discriminate | reflexivity]].
  destruct (n_samples <=? 0); [split; [discriminate | reflexivity] |].
  pose proof (count_transcribe_body ext (last_n_tokens g) smp n_samples
                {| w_ctx := c; w_statics := g |} eq_refl) as Hbody.
  destruct (transcribe_body ext smp n_samples _) as [[text |] w];
    cbn [fst snd]; rewrite cleanup_last_n_tokens.
  - split; [| discriminate].
    intros t [= <-]. destruct Hbody as (gen & Ht & Hlen & Hn).
    split; [exists gen; auto |].
    rewrite Ht. unfold detokenize.
    destruct (collect_after_asr_text ext _ false _) as [past b1].
    match goal with
    | |- context [trim ?s] =>
        destruct (trim_spec s) as (l & r & _ & _ & _ & Hh & Hl)
    end.
    split; assumption.
  - split; [discriminate | intros _; exact Hbody].
Qed.

(** ** A call with [keep_sessions] on *)

Section Kept.

Context {KV : Type} (ext : External KV) (w0 : world).

Let Inv : world -> Prop := kept w0.

Lemma loaded_all_get_slot s c :
  loaded c = (true, true, true) -> exists sess, get_slot s c = Some sess.
Proof.
  unfold loaded. intros [= He Hp Hd].
  apply bool_decide_eq_true in He, Hp, Hd.
  destruct s; cbn; [destruct He | destruct Hp | destruct Hd]; eauto.
Qed.

Lemma kept_run e w :
  Inv w -> run_all_loaded (e, (true, true, true)) ->
  Inv (snd (emit e w)).
Proof.
  intros (Hk & Hl & Hs & He & evs & Ht & Hall) Hrun. cbn.
  split; [exact Hk |]. split; [exact Hl |]. split; [exact Hs |].
  split; [exact He |].
  exists (evs ++ [(e, loaded (w_ctx w))]). cbn.
  split; [rewrite Ht, <- app_assoc; reflexivity |].
  apply Forall_app. split; [exact Hall |].
  constructor; [rewrite Hl; exact Hrun | constructor].
Qed.

Lemma kept_load_on_demand s : hoare Inv (load_on_demand ext s) (fun _ => Inv) Inv.
Proof.
  intros w Hw. unfold load_on_demand, bind at 1, get_ctx.
  destruct Hw as (Hk & Hl & Hrest).
  destruct (loaded_all_get_slot s _ Hl) as [sess ->].
  cbn. split; [exact Hk |]. split; [exact Hl | exact Hrest].
Qed.

(** With the flag on the only releases of the call are not reached; this
    is the release itself, which the flag guards. *)
Lemma kept_release_after_stage s :
  hoare Inv (release_after_stage s) (fun _ => Inv) Inv.
Proof.
  intros w Hw. unfold release_after_stage, bind at 1, get_ctx.
  destruct Hw as (Hk & Hrest). rewrite Hk. cbn. split; assumption.
Qed.

Lemma kept_cleanup w : Inv w -> cleanup w = (Some tt, w).
Proof.
  intros (Hk & _). unfold cleanup, bind at 1, get_ctx. rewrite Hk. reflexivity.
Qed.

Lemma kept_probe w :
  Inv w -> Inv (snd (modify_ctx (set_n_layers (probed_layers ext)) w)).
Proof. intros H. exact H. Qed.

End Kept.

(** X10. With [keep_sessions] on and the three sessions loaded (the state
    in which [qwen_onnx_load] leaves the context on macOS), a call of
    [qwen_onnx_transcribe] creates no session and releases none, whether
    it succeeds or fails: the context returned holds the same three
    sessions, the events of the call are runs made with all three loaded,
    and [last_error] is left as it was. *)
Theorem transcribe_keeps_sessions {KV} (ext : External KV)
    (c : qwen_onnx_ctx) (samples : option (list Z)) (n_samples : Z)
    (g : statics) :
  keep_sessions c = true ->
  loaded c = (true, true, true) ->
  let res := qwen_onnx_transcribe ext (Some c) samples n_samples g in
  exists c' evs,
    snd (fst res) = Some c' /\
    same_sessions c c' /\
    keep_sessions c' = true /\
    last_error (snd res) = last_error g /\
    trace (snd res) = trace g ++ evs /\
    Forall run_all_loaded evs.
Proof.
  intros Hk Hl res. subst res.
  set (w0 := {| w_ctx := c; w_statics := g |}).
  assert (H0 : kept w0 w0).
  { split; [exact Hk |]. split; [exact Hl |]. split; [repeat split |].
    split; [reflexivity |]. exists []. rewrite app_nil_r. split; [reflexivity | constructor]. }
  assert (Hfin : forall w, kept w0 w ->
            exists c' evs,
              Some (w_ctx w) = Some c' /\ same_sessions c c' /\
              keep_sessions c' = true /\
              last_error (w_statics w) = last_error g /\
              trace (w_statics w) = trace g ++ evs /\ Forall run_all_loaded evs).
  { intros w (Hk' & _ & Hs & He & evs & Ht & Hall).
    exists (w_ctx w), evs. repeat split; try assumption; apply Hs. }
  unfold qwen_onnx_transcribe.
  destruct samples as [smp |]; [| exact (Hfin w0 H0)].
  destruct (n_samples <=? 0); [exact (Hfin w0 H0) |].
  fold w0.
  pose proof (stable_transcribe_body ext (kept w0)
                (fun s w H => kept_run w0 (EvRun s) w H eq_refl)
                (fun st tk w H => kept_run w0 (EvRunDecode st tk) w H eq_refl)
                (fun w H _ => kept_probe ext w0 w H)
                (kept_load_on_demand ext w0)
                (kept_release_after_stage w0)
                smp n_samples w0 H0) as Hbody.
  destruct (transcribe_body ext smp n_samples w0) as [r w].
  assert (Hw : kept w0 w).
  { destruct r; [| exact Hbody].
    destruct Hbody as (gen & w1 & _ & _ & Hw1 & ->). exact Hw1. }
  rewrite (kept_cleanup w0 w Hw). cbn [snd].
  exact (Hfin w Hw).
Qed.

Lemma transcribe_keeps_sessions_witness :
  let sess := Some {| session_level := ORT_DISABLE_ALL |} in
  let c := set_threads_policy 3 true
             (set_slot Encoder sess
                (set_slot Prefill sess (set_slot Decode sess Fixture.ctx))) in
  keep_sessions c = true /\
  loaded c = (true, true, true) /\
  exists c' evs,
    snd (fst (qwen_onnx_transcribe Fixture.ext (Some c) (Some [0]) 1
                Fixture.statics0)) = Some c' /\
    same_sessions c c' /\
    keep_sessions c' = true /\
    last_error (snd (qwen_onnx_transcribe Fixture.ext (Some c) (Some [0]) 1
                       Fixture.statics0)) = last_error Fixture.statics0 /\
    trace (snd (qwen_onnx_transcribe Fixture.ext (Some c) (Some [0]) 1
                  Fixture.statics0)) = trace Fixture.statics0 ++ evs /\
    Forall run_all_loaded evs.
Proof.
  cbv zeta. split; [reflexivity |]. split; [reflexivity |].
  apply (transcribe_keeps_sessions Fixture.ext
           (set_threads_policy 3 true
              (set_slot Encoder (Some {| session_level := ORT_DISABLE_ALL |})
                 (set_slot Prefill (Some {| session_level := ORT_DISABLE_ALL |})
                    (set_slot Decode (Some {| session_level := ORT_DISABLE_ALL |})
                       Fixture.ctx))))
           (Some [0]) 1 Fixture.statics0); reflexivity.
Defined.

(** ** Accounting for the sessions *)

Section Balance.

Context {KV : Type} (ext : External KV) (w0 : world).

Let Inv : world -> Prop := balanced w0.

Lemma created_app evs evs' : created (evs ++ evs') = created evs ++ created evs'.
Proof. apply omap_app. Qed.

Lemma released_app evs evs' :
  released (evs ++ evs') = released evs ++ released evs'.
Proof. apply omap_app. Qed.

Lemma balanced_refl : balanced w0 w0.
Proof. exists []. cbn. rewrite !app_nil_r. split; reflexivity. Qed.

(** A step that keeps the slots and adds events that neither create nor
    release. *)
Lemma balanced_neutral w w' evs' :
  balanced w0 w ->
  loaded_slots (w_ctx w') = loaded_slots (w_ctx w) ->
  trace (w_statics w') = trace (w_statics w) ++ evs' ->
  created evs' = [] -> released evs' = [] ->
  balanced w0 w'.
Proof.
  intros (evs & Ht & Hp) Hl Ht' Hc Hr.
  exists (evs ++ evs'). split; [rewrite Ht', Ht, app_assoc; reflexivity |].
  rewrite created_app, released_app, Hc, Hr, !app_nil_r, Hl. exact Hp.
Qed.

Lemma loaded_slots_fill s sess c :
  get_slot s c = None ->
  Permutation (loaded_slots (set_slot s (Some sess) c)) (loaded_slots c ++ [s]).
Proof.
  unfold loaded_slots.
  destruct s, c as [[e |] [p |] [d |] ? ? ? ? ? ? ?]; cbn; intros H;
    try discriminate H; try reflexivity;
    repeat first [ reflexivity
                 | apply perm_skip
                 | (etransitivity; [apply perm_swap |]) ].
Qed.

Lemma loaded_slots_empty s sess c :
  get_slot s c = Some sess ->
  Permutation (s :: loaded_slots (set_slot s None c)) (loaded_slots c).
Proof.
  unfold loaded_slots.
  destruct s, c as [[e |] [p |] [d |] ? ? ? ? ? ? ?]; cbn; intros H;
    try discriminate H; try reflexivity;
    repeat first [ reflexivity
                 | apply perm_skip
                 | (etransitivity; [apply perm_swap |]) ].
Qed.

Lemma balanced_load_on_demand s : hoare Inv (load_on_demand ext s) (fun _ => Inv) Inv.
Proof.
  intros w Hw. unfold load_on_demand, bind at 1, get_ctx.
  destruct (get_slot s (w_ctx w)) eqn:Hslot; [exact Hw |].
  unfold bind.
  destruct (create_session_effect ext s (slot_threads s (w_ctx w))
              (slot_levels s) w)
    as (ok & sess & evs' & Hr & Hc & _ & Ht & Hrel & Hcr & _).
  destruct (create_session_with_fallback ext s _ _ w) as [r' w'].
  cbn [fst snd] in Hr, Hc, Ht. subst r'.
  destruct Hw as (evs & Ht0 & Hp).
  destruct ok; cbn -[loaded_slots created released].
  - exists (evs ++ evs').
    split; [rewrite Ht, Ht0, app_assoc; reflexivity |].
    rewrite created_app, released_app, Hrel, Hcr, app_nil_r, Hc.
    rewrite (loaded_slots_fill s sess _ Hslot), !app_assoc.
    apply Permutation_app_tail. exact Hp.
  - exists (evs ++ evs'). cbn [w_ctx w_statics trace].
    split; [rewrite Ht, Ht0, app_assoc; reflexivity |].
    rewrite created_app, released_app, Hrel, Hcr, !app_nil_r, Hc. exact Hp.
Qed.

Lemma balanced_release_if_loaded s :
  hoare Inv (release_if_loaded s) (fun _ => Inv) Inv.
Proof.
  intros w Hw. unfold release_if_loaded, bind at 1, get_ctx.
  destruct (get_slot s (w_ctx w)) as [sess |] eqn:Hslot; [| exact Hw].
  destruct Hw as (evs & Ht0 & Hp). cbn.
  exists (evs ++ [(EvReleaseSession s, loaded (w_ctx w))]). cbn.
  split; [rewrite Ht0, <- app_assoc; reflexivity |].
  rewrite created_app, released_app. cbn. rewrite app_nil_r, <- app_assoc.
  cbn [app]. rewrite (loaded_slots_empty s sess _ Hslot). exact Hp.
Qed.

Lemma balanced_emit_run e w :
  created [(e, loaded (w_ctx w))] = [] ->
  released [(e, loaded (w_ctx w))] = [] ->
  Inv w -> Inv (snd (emit e w)).
Proof.
  intros Hc Hr Hw.
  apply (balanced_neutral w _ [(e, loaded (w_ctx w))] Hw);
    [reflexivity | reflexivity | exact Hc | exact Hr].
Qed.

Lemma balanced_probe w :
  Inv w -> Inv (snd (modify_ctx (set_n_layers (probed_layers ext)) w)).
Proof.
  intros Hw. apply (balanced_neutral w _ [] Hw); cbn;
    [reflexivity | rewrite app_nil_r; reflexivity | reflexivity | reflexivity].
Qed.

Lemma balanced_set_last_n_tokens n w : Inv w -> Inv (snd (set_last_n_tokens n w)).
Proof.
  intros Hw. apply (balanced_neutral w _ [] Hw); cbn;
    [reflexivity | rewrite app_nil_r; reflexivity | reflexivity | reflexivity].
Qed.

Lemma balanced_transcribe_body samples n_samples w :
  Inv w -> Inv (snd (transcribe_body ext samples n_samples w)).
Proof.
  intros Hw.
  pose proof (stable_transcribe_body ext Inv
                (fun s w H => balanced_emit_run (EvRun s) w eq_refl eq_refl H)
                (fun st tk w H =>
                   balanced_emit_run (EvRunDecode st tk) w eq_refl eq_refl H)
                (fun w H _ => balanced_probe w H)
                balanced_load_on_demand
                (stable_release_after_stage Inv balanced_release_if_loaded)
                samples n_samples w Hw) as Hbody.
  destruct (transcribe_body ext samples n_samples w) as [[text |] w'];
    [| exact Hbody].
  destruct Hbody as (gen & w1 & _ & _ & Hw1 & ->).
  apply balanced_set_last_n_tokens. exact Hw1.
Qed.

Lemma balanced_cleanup w : Inv w -> Inv (snd (cleanup w)).
Proof.
  intros Hw.
  pose proof (stable_cleanup Inv balanced_release_if_loaded w Hw) as Hc.
  destruct (cleanup w) as [[u |] w']; exact Hc.
Qed.

End Balance.

(** After [cleanup] with the flag off no slot holds a session. *)
Lemma cleanup_releases_all w :
  keep_sessions (w_ctx w) = false ->
  loaded_slots (w_ctx (snd (cleanup w))) = [].
Proof.
  intros Hk. unfold cleanup, bind at 1, get_ctx. rewrite Hk.
  unfold release_if_loaded, bind, get_ctx.
  destruct w as [[[e |] [p |] [d |] ? ? ? ? ? ? ?] g]; reflexivity.
Qed.

(** X11. The sessions of a call of [qwen_onnx_transcribe] are accounted
    for, whatever the collaborators answer and whichever way the call
    ends: the sessions released during the call together with those the
    context holds at return are, counted with multiplicity, the sessions
    it held at entry together with those created during the call.  With
    [keep_sessions] off and no session held at entry, every session the
    call created was released by the time it returns, once. *)
Theorem transcribe_sessions_accounted {KV} (ext : External KV)
    (c : qwen_onnx_ctx) (samples : option (list Z)) (n_samples : Z)
    (g : statics) :
  let res := qwen_onnx_transcribe ext (Some c) samples n_samples g in
  exists c' evs,
    snd (fst res) = Some c' /\
    trace (snd res) = trace g ++ evs /\
    Permutation (released evs ++ loaded_slots c') (loaded_slots c ++ created evs) /\
    (keep_sessions c = false -> loaded_slots c = [] ->
     Permutation (released evs) (created evs)).
Proof.
  cbv zeta.
  set (w0 := {| w_ctx := c; w_statics := g |}).
  assert (Hguard : exists c' evs,
            Some c = Some c' /\ trace g = trace g ++ evs /\
            Permutation (released evs ++ loaded_slots c')
                        (loaded_slots c ++ created evs) /\
            (keep_sessions c = false -> loaded_slots c = [] ->
             Permutation (released evs) (created evs))).
  { exists c, []. cbn. rewrite !app_nil_r. repeat split; reflexivity. }
  unfold qwen_onnx_transcribe.
  destruct samples as [smp |]; [| exact Hguard].
  destruct (n_samples <=? 0); [exact Hguard |].
  fold w0.
  pose proof (balanced_transcribe_body ext w0 smp n_samples w0
                (balanced_refl w0)) as Hbody.
  pose proof (frame_transcribe_body_ctx ext c smp n_samples w0
                (framed_refl ext c)) as Hframe.
  destruct (transcribe_body ext smp n_samples w0) as [r w].
  cbn [snd] in Hbody, Hframe.
  pose proof (balanced_cleanup w0 w Hbody) as (evs & Ht & Hp).
  pose proof (cleanup_releases_all w) as Hnone.
  destruct (cleanup w) as [u w']. cbn [fst snd] in *.
  change (w_ctx w0) with c in Hp. change (w_statics w0) with g in Ht.
  exists (w_ctx w'), evs.
  split; [reflexivity |]. split; [exact Ht |]. split; [exact Hp |].
  intros Hk Hl.
  destruct Hframe as [(_ & _ & _ & _ & _ & Hkeep) _].
  rewrite Hnone in Hp by (rewrite Hkeep; exact Hk).
  rewrite Hl, app_nil_r in Hp. exact Hp.
Qed.

(** ** More on [qwen_onnx_load] and [qwen_onnx_free] *)

Section FreeEffect.

(** [qwen_onnx_free] releases the sessions the context holds, each once,
    encoder first, and changes nothing else. *)
Lemma free_effect c g :
  exists evs,
    trace (qwen_onnx_free (Some c) g) = trace g ++ evs /\
    released evs = loaded_slots c /\
    created evs = [] /\
    last_error (qwen_onnx_free (Some c) g) = last_error g /\
    last_n_tokens (qwen_onnx_free (Some c) g) = last_n_tokens g.
Proof.
  unfold qwen_onnx_free, release_if_loaded, bind, get_ctx, loaded_slots.
  destruct c as [[e |] [p |] [d |] ? ? ? ? ? ? ?]; cbn;
    rewrite <- ?app_assoc;
    first [ exists []; split; [symmetry; apply app_nil_r | repeat split]
          | eexists; split; [reflexivity | repeat split] ].
Qed.

End FreeEffect.

Section LoadAccount.

Context {KV : Type} (ext : External KV) (w0 : world).

(** On the way through [load_body]: the slots in [slots] are loaded, by
    the creations recorded since [w0]; nothing was released. *)
Let L (slots : list slot) : world -> Prop := fun w =>
  loaded_slots (w_ctx w) = slots /\
  last_n_tokens (w_statics w) = last_n_tokens (w_statics w0) /\
  exists evs,
    trace (w_statics w) = trace (w_statics w0) ++ evs /\
    released evs = [] /\ created evs = slots.

(** Where [load_body] gives up: a message is recorded. *)
Let Lfail : world -> Prop := fun w =>
  is_Some (last_error (w_statics w)) /\
  last_n_tokens (w_statics w) = last_n_tokens (w_statics w0) /\
  exists evs,
    trace (w_statics w) = trace (w_statics w0) ++ evs /\
    released evs = [] /\ created evs = loaded_slots (w_ctx w).

(** Before the eager branch nothing was created and no message recorded. *)
Let L0 : world -> Prop := fun w =>
  loaded_slots (w_ctx w) = [] /\
  w_statics w = w_statics w0 /\
  last_error (w_statics w) = None.

Let L0fail : world -> Prop := fun w =>
  loaded_slots (w_ctx w) = [] /\
  is_Some (last_error (w_statics w)) /\
  last_n_tokens (w_statics w) = last_n_tokens (w_statics w0) /\
  trace (w_statics w) = trace (w_statics w0).

Lemma L0fail_Lfail w : L0fail w -> Lfail w.
Proof.
  intros (Hl & He & Hn & Ht). split; [exact He |]. split; [exact Hn |].
  exists []. rewrite app_nil_r, Hl. repeat split. exact Ht.
Qed.

Lemma L0_L w : L0 w -> L [] w.
Proof.
  intros (Hl & Hs & _). split; [exact Hl |]. rewrite Hs. split; [reflexivity |].
  exists []. rewrite app_nil_r. repeat split.
Qed.

Lemma account_check_load0 site :
  hoare L0 (check_load ext site) (fun _ => L0) L0fail.
Proof.
  intros w (Hl & Hs & He). unfold check_load.
  destruct (check_ok ext site); cbn -[loaded_slots created released]; [repeat split; assumption |].
  rewrite Hs. repeat split; [exact Hl | eexists; reflexivity].
Qed.

Lemma account_modify0 f :
  (forall c, loaded_slots (f c) = loaded_slots c) ->
  hoare L0 (modify_ctx f) (fun _ => L0) L0fail.
Proof.
  intros Hf w (Hl & Hs & He).
  change (L0 {| w_ctx := f (w_ctx w); w_statics := w_statics w |}).
  split; [cbn [w_ctx]; rewrite Hf; exact Hl | split; assumption].
Qed.

Lemma account_check_load slots site :
  hoare (L slots) (check_load ext site) (fun _ => L slots) Lfail.
Proof.
  intros w (Hl & Hn & evs & Ht & Hr & Hc). unfold check_load.
  destruct (check_ok ext site); cbn -[loaded_slots created released].
  - split; [exact Hl |]. split; [exact Hn |]. exists evs. repeat split; assumption.
  - split; [eexists; reflexivity |]. split; [exact Hn |].
    exists evs. cbn [w_ctx w_statics trace]. rewrite Hl. repeat split; assumption.
Qed.

Lemma account_eager_load slots s :
  (forall c, loaded_slots c = slots ->
             forall sess, loaded_slots (set_slot s (Some sess) c) = slots ++ [s]) ->
  hoare (L slots) (eager_load ext s) (fun _ => L (slots ++ [s])) Lfail.
Proof.
  intros Hfill w (Hl & Hn & evs & Ht & Hr & Hc).
  unfold eager_load, bind at 1, get_ctx. cbn beta iota. unfold bind.
  destruct (create_session_effect ext s (slot_threads s (w_ctx w))
              (slot_levels s) w)
    as (ok & sess & evs' & Hres & Hctx & Hn' & Ht' & Hrel & Hcr & _).
  destruct (create_session_with_fallback ext s _ _ w) as [r' w'].
  cbn [fst snd] in Hres, Hctx, Hn', Ht'. subst r'.
  destruct ok; cbn -[loaded_slots created released];
    unfold L, Lfail; cbn [w_ctx w_statics trace last_n_tokens last_error].
  - split; [rewrite Hctx; apply Hfill; exact Hl |].
    split; [rewrite Hn'; exact Hn |].
    exists (evs ++ evs'). rewrite Ht', Ht, app_assoc.
    split; [reflexivity |].
    rewrite released_app, created_app, Hr, Hrel, Hc, Hcr. split; reflexivity.
  - split; [eexists; reflexivity |].
    split; [rewrite Hn'; exact Hn |].
    exists (evs ++ evs'). rewrite Ht', Ht, app_assoc.
    split; [reflexivity |].
    rewrite released_app, created_app, Hr, Hrel, Hc, Hcr, Hctx, Hl, !app_nil_r.
    split; reflexivity.
Qed.

Lemma account_eager_branch :
  hoare (L [])
    (eager_load ext Encoder ;;; eager_load ext Prefill ;;;
     eager_load ext Decode ;;; check_load ext LoadOutputCount ;;;
     modify_ctx (set_n_layers
                   (Z.quot (int32 (u64 (SessionGetOutputCount ext - 1))) 2)))
    (fun _ => L [Encoder; Prefill; Decode]) Lfail.
Proof.
  eapply hoare_bind; [apply (account_eager_load [] Encoder) | intros ?; cbv beta].
  { intros [[e |] [p |] [d |] ? ? ? ? ? ? ?] H sess; try discriminate H; reflexivity. }
  eapply hoare_bind;
    [apply (account_eager_load [Encoder] Prefill) | intros ?; cbv beta].
  { intros [[e |] [p |] [d |] ? ? ? ? ? ? ?] H sess; try discriminate H; reflexivity. }
  eapply hoare_bind;
    [apply (account_eager_load [Encoder; Prefill] Decode) | intros ?; cbv beta].
  { intros [[e |] [p |] [d |] ? ? ? ? ? ? ?] H sess; try discriminate H; reflexivity. }
  eapply hoare_bind; [apply account_check_load | intros ?; cbv beta].
  intros w Hw. exact Hw.
Qed.

Lemma account_load_body :
  hoare L0 (load_body ext)
    (fun _ w => L0 w \/ L [Encoder; Prefill; Decode] w)
    Lfail.
Proof.
  unfold load_body.
  assert (Hweak : forall {A} (m : M A) Q,
             hoare L0 m Q L0fail -> hoare L0 m Q Lfail).
  { intros A m Q H. eapply hoare_conseq; [exact H | auto | auto |].
    apply L0fail_Lfail. }
  eapply hoare_bind; [apply Hweak, account_check_load0 | intros ?; cbv beta].
  eapply hoare_bind; [apply Hweak, account_check_load0 | intros ?; cbv beta].
  cbv zeta.
  eapply hoare_bind;
    [apply Hweak, account_modify0; reflexivity | intros ?; cbv beta].
  eapply hoare_bind with (Q := fun _ => L0).
  { apply Hweak. intros w (Hl & Hs & He).
    destruct (qwen_tokenizer_load ext); cbn -[loaded_slots created released]; [repeat split; assumption |].
    rewrite Hs. repeat split; [exact Hl | eexists; reflexivity]. }
  intros ?; cbv beta.
  eapply hoare_bind with (Q := fun _ => L0).
  { apply Hweak. intros w (Hl & Hs & He).
    destruct (mmap_embed_tokens ext); cbn -[loaded_slots created released]; [repeat split; assumption |].
    rewrite Hs. repeat split; [exact Hl | eexists; reflexivity]. }
  intros [[rows cols] data].
  eapply hoare_bind;
    [apply Hweak, account_modify0; reflexivity | intros ?; cbv beta].
  eapply hoare_bind;
    [apply Hweak, account_modify0; reflexivity | intros ?; cbv beta].
  eapply hoare_bind;
    [apply Hweak, account_modify0; reflexivity | intros ?; cbv beta].
  intros w Hw. unfold bind at 1, get_ctx. cbn beta iota.
  destruct (keep_sessions (w_ctx w)).
  - pose proof (account_eager_branch w (L0_L w Hw)) as Hb.
    match goal with
    | |- match ?m w with _ => _ end => destruct (m w) as [[u |] w']
    end; [right; exact Hb | exact Hb].
  - left. exact Hw.
Qed.

End LoadAccount.

Section LoadConfig.

Context {KV : Type} (ext : External KV).

(** The thread counts that [qwen_onnx_load] derives from the number of
    processors. *)
Lemma n_threads_range : 1 <= n_threads ext <= 8.
Proof.
  unfold n_threads.
  destruct (Z.ltb_spec (int32 (sysconf_nprocessors ext)) 1);
    [cbn; lia |].
  destruct (Z.ltb_spec 8 (int32 (sysconf_nprocessors ext))); lia.
Qed.

(** The eager branch keeps the model fields and sets the layer count. *)
Lemma config_eager_load c0 s :
  hoare (fun w => same_model c0 (w_ctx w)) (eager_load ext s)
    (fun _ w => same_model c0 (w_ctx w)) (fun _ => True).
Proof.
  intros w Hw. unfold eager_load, bind at 1, get_ctx. cbn beta iota.
  unfold bind.
  destruct (create_session_effect ext s (slot_threads s (w_ctx w))
              (slot_levels s) w) as (ok & sess & evs & Hr & Hc & _).
  destruct (create_session_with_fallback ext s _ _ w) as [r w'].
  cbn [fst snd] in Hr, Hc. subst r.
  destruct ok; cbn; [| exact I].
  rewrite Hc. exact Hw.
Qed.

Lemma config_eager_branch c0 :
  hoare (fun w => same_model c0 (w_ctx w))
    (eager_load ext Encoder ;;; eager_load ext Prefill ;;;
     eager_load ext Decode ;;; check_load ext LoadOutputCount ;;;
     modify_ctx (set_n_layers
                   (Z.quot (int32 (u64 (SessionGetOutputCount ext - 1))) 2)))
    (fun _ w => same_model c0 (w_ctx w) /\
                n_layers (w_ctx w) = probed_layers ext /\
                check_ok ext LoadOutputCount = true)
    (fun _ => True).
Proof.
  eapply hoare_bind; [apply config_eager_load | intros ?; cbv beta].
  eapply hoare_bind; [apply config_eager_load | intros ?; cbv beta].
  eapply hoare_bind; [apply config_eager_load | intros ?; cbv beta].
  eapply hoare_bind
    with (Q := fun _ w => same_model c0 (w_ctx w) /\
                          check_ok ext LoadOutputCount = true).
  { intros w Hw. unfold check_load.
    destruct (check_ok ext LoadOutputCount); cbn; [split; [exact Hw | reflexivity] | exact I]. }
  intros ? w [Hw Hck]. cbn. split; [exact Hw |]. split; [reflexivity | exact Hck].
Qed.

(** A load that succeeds passed every check, and leaves the context
    configured from the host and the mapped table. *)
Lemma load_body_success w0 u w :
  w_ctx w0 = ctx_zero ->
  load_body ext w0 = (Some u, w) ->
  check_ok ext CreateEnv = true /\
  check_ok ext CreateCpuMemoryInfo = true /\
  qwen_tokenizer_load ext = true /\
  (exists rows cols data,
     mmap_embed_tokens ext = Some (rows, cols, data) /\
     embed_tokens_fp16 (w_ctx w) = data /\
     vocab_size (w_ctx w) = rows /\
     hidden_dim (w_ctx w) = cols) /\
  enc_threads (w_ctx w) = (if 6 <=? n_threads ext then 6 else n_threads ext) /\
  dec_threads (w_ctx w) = (if 6 <=? n_threads ext then 3 else 2) /\
  keep_sessions (w_ctx w) = TARGET_OS_OSX ext /\
  n_layers (w_ctx w) = (if TARGET_OS_OSX ext then probed_layers ext else 0) /\
  (TARGET_OS_OSX ext = true -> check_ok ext LoadOutputCount = true).
Proof.
  intros Hz Hrun. unfold load_body in Hrun.
  unfold bind at 1, check_load at 1 in Hrun.
  destruct (check_ok ext CreateEnv); [| discriminate Hrun].
  cbn [ret] in Hrun.
  unfold bind at 1, check_load at 1 in Hrun.
  destruct (check_ok ext CreateCpuMemoryInfo); [| discriminate Hrun].
  cbn [ret] in Hrun. cbv zeta in Hrun.
  unfold bind at 1, modify_ctx at 1 in Hrun.
  unfold bind at 1 in Hrun.
  destruct (qwen_tokenizer_load ext); [| discriminate Hrun].
  cbn [ret] in Hrun.
  unfold bind at 1 in Hrun.
  destruct (mmap_embed_tokens ext) as [[[rows cols] data] |];
    [| discriminate Hrun].
  cbn [ret] in Hrun.
  unfold bind at 1, modify_ctx at 1 in Hrun.
  unfold bind at 1, modify_ctx at 1 in Hrun.
  unfold bind at 1, modify_ctx at 1 in Hrun.
  unfold bind at 1, get_ctx at 1 in Hrun.
  cbn [w_ctx w_statics keep_sessions set_enc_threads set_n_layers
       set_embed_tokens set_threads_policy] in Hrun.
  split; [reflexivity |]. split; [reflexivity |]. split; [reflexivity |].
  destruct (TARGET_OS_OSX ext) eqn:Hosx.
  - match type of Hrun with
    | ?m ?w1 = _ =>
        pose proof (config_eager_branch (w_ctx w1) w1
                      ltac:(repeat split)) as Hb;
        rewrite Hrun in Hb
    end.
    destruct Hb as [(He & Hv & Hh & Hen & Hde & Hk) [Hn Hck]].
    cbn [w_ctx embed_tokens_fp16 vocab_size hidden_dim enc_threads
         dec_threads keep_sessions] in He, Hv, Hh, Hen, Hde, Hk.
    split; [exists rows, cols, data; repeat split; assumption |].
    split; [exact Hen |]. split; [exact Hde |]. split; [exact Hk |].
    split; [exact Hn | intros _; exact Hck].
  - injection Hrun as _ <-. cbn.
    split; [exists rows, cols, data; repeat split |].
    split; [reflexivity |]. split; [reflexivity |]. split; [reflexivity |].
    split; [reflexivity | discriminate].
Qed.

End LoadConfig.

(** X12. When [qwen_onnx_load] returns NULL a message is left in
    [last_error], and every session created on the way was released
    before the return, in the order of creation; [last_n_tokens] is
    untouched. *)
Theorem load_failure_reports_and_releases {KV} (ext : External KV)
    (g g' : statics) :
  qwen_onnx_load ext g = (None, g') ->
  is_Some (last_error g') /\
  last_n_tokens g' = last_n_tokens g /\
  exists evs,
    trace g' = trace g ++ evs /\
    released evs = created evs.
Proof.
  unfold qwen_onnx_load.
  destruct (check_ok ext CallocCtx).
  2: { intros [= <-]. cbn. split; [eexists; reflexivity |].
       split; [reflexivity |]. exists []. rewrite app_nil_r. split; reflexivity. }
  set (w0 := {| w_ctx := ctx_zero; w_statics := _ |}).
  pose proof (account_load_body ext w0 w0
                ltac:(repeat split; reflexivity)) as Hbody.
  destruct (load_body ext w0) as [[u |] w]; [discriminate |].
  intros Heq.
  assert (Hg : g' = qwen_onnx_free (Some (w_ctx w)) (w_statics w))
    by congruence.
  clear Heq. subst g'.
  destruct Hbody as (Herr & Hn & evs & Ht & Hr & Hc).
  destruct (free_effect (w_ctx w) (w_statics w))
    as (evs' & Ht' & Hr' & Hc' & He' & Hn').
  split; [rewrite He'; exact Herr |].
  split; [rewrite Hn', Hn; reflexivity |].
  exists (evs ++ evs'). split; [rewrite Ht', Ht, app_assoc; reflexivity |].
  rewrite released_app, created_app, Hr, Hr', Hc, Hc', app_nil_r. reflexivity.
Qed.

Lemma load_failure_reports_and_releases_witness :
  let res := qwen_onnx_load FixtureOSX.ext Fixture.statics0 in
  res = (None, snd res) /\
  is_Some (last_error (snd res)) /\
  exists evs,
    trace (snd res) = trace Fixture.statics0 ++ evs /\
    released evs = created evs.
Proof.
  cbv zeta.
  assert (H : qwen_onnx_load FixtureOSX.ext Fixture.statics0 =
              (None, snd (qwen_onnx_load FixtureOSX.ext Fixture.statics0)))
    by (vm_compute; reflexivity).
  split; [exact H |].
  pose proof (load_failure_reports_and_releases FixtureOSX.ext
                Fixture.statics0 _ H) as (Herr & _ & Hev).
  split; [exact Herr | exact Hev].
Defined.

(** X13. When [qwen_onnx_load] returns a context, every check on the way
    passed (on the [keep_sessions] path also the one on the output count
    of the prefill session), and the context is configured from the host
    and the mapped
    table: the embedding table and its dimensions are those of the mapped
    file; the encoder gets between 1 and 6 threads and the decoder 2 or 3,
    3 exactly when the encoder has 6; [n_layers] is 0 when [keep_sessions]
    is off and the probed count when it is on.  The sessions the context
    holds are those created by the call, none was released, and
    [last_n_tokens] is untouched.  With [keep_sessions] off no session was
    created at all and [last_error] is empty. *)
Theorem load_success_context {KV} (ext : External KV) (g : statics)
    (c : qwen_onnx_ctx) (g' : statics) :
  qwen_onnx_load ext g = (Some c, g') ->
  (check_ok ext CallocCtx = true /\
   check_ok ext CreateEnv = true /\
   check_ok ext CreateCpuMemoryInfo = true /\
   qwen_tokenizer_load ext = true /\
   (keep_sessions c = true -> check_ok ext LoadOutputCount = true)) /\
  (exists rows cols data,
     mmap_embed_tokens ext = Some (rows, cols, data) /\
     embed_tokens_fp16 c = data /\ vocab_size c = rows /\ hidden_dim c = cols) /\
  (1 <= enc_threads c <= 6 /\ 2 <= dec_threads c <= 3 /\
   (dec_threads c = 3 <-> enc_threads c = 6)) /\
  n_layers c = (if keep_sessions c then probed_layers ext else 0) /\
  last_n_tokens g' = last_n_tokens g /\
  exists evs,
    trace g' = trace g ++ evs /\
    released evs = [] /\
    created evs = loaded_slots c /\
    (keep_sessions c = false -> evs = [] /\ last_error g' = None).
Proof.
  intros Hload.
  pose proof (qwen_onnx_load_sessions ext g c g' Hload) as [Hkeep Hloaded].
  unfold qwen_onnx_load in Hload.
  destruct (check_ok ext CallocCtx); [| discriminate].
  set (w0 := {| w_ctx := ctx_zero; w_statics := _ |}) in Hload.
  pose proof (account_load_body ext w0 w0
                ltac:(repeat split; reflexivity)) as Hacc.
  pose proof (load_body_success ext w0) as Hcfg.
  destruct (load_body ext w0) as [[u |] w]; [| discriminate].
  injection Hload as <- <-.
  destruct (Hcfg u w eq_refl eq_refl)
    as (H1 & H2 & H3 & Htab & Henc & Hdec & Hk & Hn & Hck).
  pose proof (n_threads_range ext) as Hnt.
  split.
  { split; [reflexivity |]. split; [exact H1 |]. split; [exact H2 |].
    split; [exact H3 |]. rewrite Hk. exact Hck. }
  split; [exact Htab |].
  split.
  { rewrite Henc, Hdec.
    destruct (Z.leb_spec 6 (n_threads ext)); repeat split; lia. }
  split; [rewrite Hn, Hk; reflexivity |].
  destruct Hacc as [(Hl & Hs & He) | (Hl & Hln & evs & Ht & Hr & Hc)].
  - split; [rewrite Hs; reflexivity |].
    exists []. rewrite app_nil_r, Hs, Hl. repeat split.
  - split; [exact Hln |].
    exists evs. split; [exact Ht |]. split; [exact Hr |].
    split; [rewrite Hl; exact Hc |].
    intros Hoff. exfalso. rewrite Hoff in Hloaded.
    revert Hl Hloaded. clear. unfold loaded, loaded_slots, none_loaded.
    destruct (w_ctx w) as [[e |] [p |] [d |] ? ? ? ? ? ? ?]; cbn;
      intros Hl Hld; try discriminate Hl.
    vm_compute in Hld. discriminate Hld.
Qed.

Lemma load_success_context_witness :
  qwen_onnx_load Fixture.ext Fixture.statics0 = (Some Fixture.ctx, Fixture.statics0) /\
  1 <= enc_threads Fixture.ctx <= 6 /\
  n_layers Fixture.ctx = 0.
Proof.
  assert (H : qwen_onnx_load Fixture.ext Fixture.statics0 =
              (Some Fixture.ctx, Fixture.statics0))
    by (vm_compute; reflexivity).
  split; [exact H |].
  pose proof (load_success_context Fixture.ext Fixture.statics0 Fixture.ctx
                Fixture.statics0 H) as (_ & _ & (Henc & _) & Hn & _).
  split; [exact Henc | exact Hn].
Defined.

(** ** More on the text buffer *)

Section TextBufferUse.

Context {KV : Type} (ext : External KV).

(** Until [<asr_text>] is seen the first loop appends nothing. *)
Lemma collect_not_past (tokens : list Z) b :
  fst (collect_after_asr_text ext tokens false b) = false ->
  snd (collect_after_asr_text ext tokens false b) = b.
Proof.
  induction tokens as [| t rest IH]; [reflexivity |].
  cbn [collect_after_asr_text].
  destruct (t =? QWEN_TOKEN_ASR_TEXT ext).
  - destruct (collect_past_text ext rest b) as [Hf _]. rewrite Hf. discriminate.
  - cbn [negb]. exact IH.
Qed.

End TextBufferUse.

(** X14. The text buffer of stage 6 is large enough.  When no piece of
    the tokenizer is longer than 4096 bytes and the stream has at most
    [MAX_NEW_TOKENS] tokens, the text and its terminating NUL fit in the
    buffer after the first loop and after the second; the capacity stays
    far below the range of [size_t].  The second loop runs only when the
    first appended nothing, on the buffer as allocated. *)
Theorem detokenize_buffer_fits {KV} (ext : External KV) (tokens : list Z) :
  (forall t, short_piece (qwen_tokenizer_decode ext t)) ->
  Z.of_nat (length tokens) <= MAX_NEW_TOKENS ->
  let b0 := {| text := []; text_cap := 4096 |} in
  let r1 := collect_after_asr_text ext tokens false b0 in
  let b2 := collect_plain ext tokens
              {| text := []; text_cap := text_cap (snd r1) |} in
  (text_len (snd r1) + 1 <= text_cap (snd r1) /\ text_cap (snd r1) < 2 ^ 24) /\
  (fst r1 = false ->
   snd r1 = b0 /\ text_len b2 + 1 <= text_cap b2 /\ text_cap b2 < 2 ^ 24).
Proof.
  intros Hshort Hlen b0 r1 b2. unfold MAX_NEW_TOKENS in Hlen.
  assert (H0 : text_fits 0 b0).
  { unfold text_fits, text_len. cbn. lia. }
  pose proof (collect_after_asr_text_fits ext Hshort tokens 0 false b0
                ltac:(lia) ltac:(lia) H0) as (Hc1 & Hl1 & Hu1 & Hn1).
  fold r1 in Hc1, Hl1, Hu1, Hn1.
  split; [lia |].
  intros Hpast.
  pose proof (collect_not_past ext tokens b0 Hpast) as Hb1. fold r1 in Hb1.
  split; [exact Hb1 |].
  subst b2. rewrite Hb1.
  pose proof (collect_plain_fits ext Hshort tokens 0 b0
                ltac:(lia) ltac:(lia) H0) as (Hc2 & Hl2 & Hu2 & Hn2).
  change {| text := []; text_cap := text_cap b0 |} with b0. lia.
Qed.

Lemma detokenize_buffer_fits_witness :
  Z.of_nat (length Fixture.stream) <= MAX_NEW_TOKENS /\
  text_len (snd (collect_after_asr_text Fixture.ext Fixture.stream false
                   {| text := []; text_cap := 4096 |})) + 1 <= 4096.
Proof.
  assert (Hshort : forall t, short_piece (qwen_tokenizer_decode Fixture.ext t)).
  { intros t s. cbn. unfold Fixture.decode_piece.
    repeat match goal with
           | |- context [if ?b then _ else _] => destruct b
           end; intros [= <-]; cbn; lia. }
  assert (Hlen : Z.of_nat (length Fixture.stream) <= MAX_NEW_TOKENS)
    by (vm_compute; discriminate).
  split; [exact Hlen |].
  pose proof (detokenize_buffer_fits Fixture.ext Fixture.stream Hshort Hlen)
    as [[H _] _].
  exact H.
Defined.

(** X15. One doubling is all the buffer gets.  A piece that does not fit
    in twice the capacity is written past the end of the reallocated
    buffer: after the append the text and its NUL are longer than the
    capacity. *)
Theorem append_piece_long_piece_overflows (b : text_buf) (p : list ascii) :
  0 < text_cap b -> 2 * text_cap b < 2 ^ 64 ->
  text_len b + Z.of_nat (length p) + 1 < 2 ^ 64 ->
  2 * text_cap b < text_len b + Z.of_nat (length p) + 1 ->
  let b' := append_piece b (Some p) in
  text_cap b' = 2 * text_cap b /\
  text_cap b' < text_len b' + 1.
Proof.
  intros Hcap Hno Hfit Hlong b'. subst b'.
  unfold append_piece, text_len in *. cbn [text text_cap].
  rewrite length_app, Nat2Z.inj_add.
  rewrite (u64_small (Z.of_nat (length (text b)) + Z.of_nat (length p))) by lia.
  rewrite (u64_small (Z.of_nat (length (text b)) + Z.of_nat (length p) + 1)) by lia.
  destruct (Z.ltb_spec (text_cap b)
              (Z.of_nat (length (text b)) + Z.of_nat (length p) + 1)); [| lia].
  rewrite u64_small by lia. lia.
Qed.

Lemma append_piece_long_piece_overflows_witness :
  let b := {| text := []; text_cap := 4 |} in
  let p := list_ascii_of_string "123456789" in
  text_cap (append_piece b (Some p)) = 8 /\
  text_cap (append_piece b (Some p)) < text_len (append_piece b (Some p)) + 1.
Proof.
  cbv zeta.
  apply (append_piece_long_piece_overflows
           {| text := []; text_cap := 4 |} (list_ascii_of_string "123456789"));
    reflexivity.
Defined.

(** ** More on the decode loop *)

Section DecodeFeeds.

Context {KV : Type} (ext : External KV) (plen : Z).

(** The runs of the loop are on the tokens of the stream, in order. *)
Lemma decode_loop_feeds (remaining : nat) :
  forall step token pre buf kv w generated,
    fst (decode_loop ext plen remaining step token (pre ++ [token]) buf kv w)
      = Some generated ->
    exists fed final,
      generated = pre ++ fed ++ [final] /\
      trace (w_statics
               (snd (decode_loop ext plen remaining step token
                       (pre ++ [token]) buf kv w))) =
        trace (w_statics w) ++
        imap (fun k t => (EvRunDecode (step + Z.of_nat k) t, loaded (w_ctx w))) fed /\
      (length fed <= remaining)%nat /\
      (is_eos final = true \/ length fed = remaining).
Proof.
  induction remaining as [| rem IH]; intros step token pre buf kv w generated.
  - cbn. intros [= <-]. exists [], token. cbn. rewrite app_nil_r.
    repeat split; auto.
  - rewrite decode_loop_step.
    destruct (is_eos token) eqn:Heos.
    { cbn. intros [= <-]. exists [], token. cbn. rewrite app_nil_r.
      split; [reflexivity |]. split; [reflexivity |]. split; [lia | left; exact Heos]. }
    cbv zeta.
    destruct (Run_decode ext _ _ kv) as [[logits kv'] |]; [| discriminate].
    destruct (check_ok ext (DecodeGetData step)); [| discriminate].
    set (token' := argmax_f32 logits (vocab_size (w_ctx w))).
    set (w1 := snd (emit (EvRunDecode step token) w)).
    intros Hres.
    destruct (IH (step + 1) token' (pre ++ [token]) _ kv' w1 generated Hres)
      as (fed & final & Hg & Ht & Hlen & Hend).
    exists (token :: fed), final.
    split; [rewrite Hg, <- app_assoc; reflexivity |].
    split.
    { rewrite Ht. subst w1. cbn [emit snd w_statics trace w_ctx].
      rewrite <- app_assoc. f_equal. cbn [imap app]. f_equal.
      - rewrite Z.add_0_r. reflexivity.
      - apply imap_ext. intros k t _. cbn.
        replace (step + 1 + Z.of_nat k) with (step + Z.of_nat (S k)) by lia.
        reflexivity. }
    split; [cbn; lia |].
    destruct Hend as [He | He]; [left; exact He | right; cbn; lia].
Qed.

End DecodeFeeds.

(** X16. How the decode loop builds the stream.  When the loop ends
    normally, every token of the stream but the last was fed to the decode
    session, once, in the order of the stream, the token of index [k] at
    step [k]; the last token was not fed.  The stream ends with a token of
    the EOS set unless it has reached [MAX_NEW_TOKENS] tokens. *)
Theorem decode_loop_feeds_stream {KV} (ext : External KV) (plen first_token : Z)
    (buf : list Z) (kv : KV) (w : world) :
  let res := decode_loop ext plen (Z.to_nat (MAX_NEW_TOKENS - 1)) 0
               first_token [first_token] buf kv w in
  forall generated,
    fst res = Some generated ->
    exists fed final,
      generated = fed ++ [final] /\
      trace (w_statics (snd res)) =
        trace (w_statics w) ++
        imap (fun k t => (EvRunDecode (Z.of_nat k) t, loaded (w_ctx w))) fed /\
      (is_eos final = true \/ Z.of_nat (length generated) = MAX_NEW_TOKENS).
Proof.
  intros res generated Hres. subst res.
  destruct (decode_loop_feeds ext plen (Z.to_nat (MAX_NEW_TOKENS - 1)) 0
              first_token [] buf kv w generated Hres)
    as (fed & final & Hg & Ht & Hlen & Hend).
  exists fed, final. cbn [app] in Hg, Ht.
  split; [exact Hg |]. split; [exact Ht |].
  destruct Hend as [He | He]; [left; exact He | right].
  rewrite Hg, length_app, He. cbn [length].
  change (Z.to_nat (MAX_NEW_TOKENS - 1)) with 1023%nat.
  change MAX_NEW_TOKENS with 1024. lia.
Qed.

Lemma decode_loop_feeds_stream_witness :
  let w := {| w_ctx := Fixture.ctx; w_statics := Fixture.statics0 |} in
  let res := decode_loop Fixture.ext 16 (Z.to_nat (MAX_NEW_TOKENS - 1)) 0
               2 [2] [0; 0] tt w in
  fst res = Some (2 :: replicate 1023 1) /\
  take 3 (trace (w_statics (snd res))) =
    [(EvRunDecode 0 2, loaded (w_ctx w));
     (EvRunDecode 1 1, loaded (w_ctx w));
     (EvRunDecode 2 1, loaded (w_ctx w))] /\
  length (trace (w_statics (snd res))) = 1023%nat /\
  exists fed final,
    2 :: replicate 1023 1 = fed ++ [final] /\
    trace (w_statics (snd res)) =
      trace (w_statics w) ++
      imap (fun k t => (EvRunDecode (Z.of_nat k) t, loaded (w_ctx w))) fed /\
    (is_eos final = true \/
     Z.of_nat (length (2 :: replicate 1023 1)) = MAX_NEW_TOKENS).
Proof.
  cbv zeta.
  assert (Hres : fst (decode_loop Fixture.ext 16 (Z.to_nat (MAX_NEW_TOKENS - 1)) 0
                        2 [2] [0; 0] tt
                        {| w_ctx := Fixture.ctx; w_statics := Fixture.statics0 |})
                 = Some (2 :: replicate 1023 1))
    by (vm_compute; reflexivity).
  split; [exact Hres |].
  split; [vm_compute; reflexivity |].
  split; [vm_compute; reflexivity |].
  exact (decode_loop_feeds_stream Fixture.ext 16 2 [0; 0] tt
           {| w_ctx := Fixture.ctx; w_statics := Fixture.statics0 |}
           (2 :: replicate 1023 1) Hres).
Defined.

(** ** The name tables *)

Section NameTables.

Lemma int32_id x : 0 <= x <= INT_MAX -> int32 x = x.
Proof. intros H. apply int32_small. unfold INT_MAX in *. lia. Qed.

Lemma layer_slots_in_array base n size :
  0 <= base -> 0 <= n -> base + 2 * n - 1 <= INT_MAX ->
  in_array size (layer_slots base n) <-> (n = 0 \/ base + 2 * n <= size).
Proof.
  intros Hb Hn Hmax. unfold in_array, layer_slots. split.
  - intros H. destruct (Z.eq_dec n 0) as [-> | Hnz]; [left; reflexivity | right].
    apply Forall_app in H as [_ H].
    rewrite Forall_fmap, Forall_lookup in H.
    specialize (H (Z.to_nat (n - 1)) (n - 1)).
    rewrite lookup_seqZ in H.
    specialize (H ltac:(split; lia)). cbn in H.
    rewrite (int32_id (base + n)) in H by lia.
    rewrite int32_id in H by lia. lia.
  - intros H. apply Forall_app. split.
    + rewrite Forall_fmap. apply Forall_lookup_2. intros k i Hk.
      apply lookup_seqZ in Hk as [-> Hk]. cbn.
      rewrite int32_id by lia. lia.
    + rewrite Forall_fmap. apply Forall_lookup_2. intros k i Hk.
      apply lookup_seqZ in Hk as [-> Hk]. cbn.
      rewrite (int32_id (base + n)) by lia.
      rewrite int32_id by lia. lia.
Qed.

End NameTables.

(** X17. The name tables of stages 4 and 5 hold [MAX_DEC_LAYERS] layers
    and no more.  For a layer count that is not negative, the entries of
    [pf_out_names], [dc_in_names], [dc_out_names] and [dc_inputs] that the
    loops over the layers write are all inside the arrays exactly when
    [n_layers <= MAX_DEC_LAYERS].  The count probed from a prefill session
    with [n] outputs is [(n - 1) / 2], stored as it is: it is within
    [MAX_DEC_LAYERS] exactly when the session has at most 58 outputs. *)
Theorem name_tables_in_bounds (n_layers : Z) :
  0 <= n_layers <= 2 ^ 30 - 1 ->
  ((in_array (1 + MAX_DEC_LAYERS * 2) (pf_out_names_written n_layers) /\
    in_array (2 + MAX_DEC_LAYERS * 2) (dc_in_names_written n_layers) /\
    in_array (1 + MAX_DEC_LAYERS * 2) (dc_out_names_written n_layers) /\
    in_array (2 + MAX_DEC_LAYERS * 2) (dc_inputs_written n_layers))
   <-> n_layers <= MAX_DEC_LAYERS) /\
  (forall KV (ext : External KV),
     1 <= SessionGetOutputCount ext <= INT_MAX ->
     probed_layers ext = (SessionGetOutputCount ext - 1) / 2 /\
     (probed_layers ext <= MAX_DEC_LAYERS <-> SessionGetOutputCount ext <= 58)).
Proof.
  intros Hn. unfold MAX_DEC_LAYERS.
  assert (Hmax1 : 1 + 2 * n_layers - 1 <= INT_MAX) by (unfold INT_MAX; lia).
  assert (Hmax2 : 2 + 2 * n_layers - 1 <= INT_MAX) by (unfold INT_MAX; lia).
  pose proof (layer_slots_in_array 1 n_layers (1 + 28 * 2)
                ltac:(lia) ltac:(lia) Hmax1) as H1.
  pose proof (layer_slots_in_array 2 n_layers (2 + 28 * 2)
                ltac:(lia) ltac:(lia) Hmax2) as H2.
  split.
  - unfold pf_out_names_written, dc_in_names_written, dc_out_names_written,
      dc_inputs_written, in_array in *.
    split.
    + intros (Hpf & _).
      apply Forall_cons in Hpf as [_ Hpf]. apply H1 in Hpf. lia.
    + intros Hle.
      assert (Hslots1 : Forall (fun i => 0 <= i < 1 + 28 * 2) (layer_slots 1 n_layers))
        by (apply H1; lia).
      assert (Hslots2 : Forall (fun i => 0 <= i < 2 + 28 * 2) (layer_slots 2 n_layers))
        by (apply H2; lia).
      split; [constructor; [lia | exact Hslots1] |].
      split; [constructor; [lia |]; constructor; [lia | exact Hslots2] |].
      split; [constructor; [lia | exact Hslots1] |].
      constructor; [lia |]. constructor; [lia |].
      rewrite Forall_fmap. apply Forall_lookup_2. intros k i Hk.
      rewrite (int32_id (2 * n_layers)) in Hk by (unfold INT_MAX; lia).
      apply lookup_seqZ in Hk as [-> Hk]. cbn.
      rewrite int32_id by (unfold INT_MAX; lia). lia.
  - intros KV ext Hc. unfold probed_layers. unfold INT_MAX in Hc.
    rewrite u64_small by lia.
    rewrite int32_small by (unfold INT_MAX; lia).
    rewrite Z.quot_div_nonneg by lia.
    split; [reflexivity |].
    split; intros H; Z.div_mod_to_equations; lia.
Qed.

Lemma name_tables_in_bounds_witness :
  0 <= 28 <= 2 ^ 30 - 1 /\
  in_array (1 + MAX_DEC_LAYERS * 2) (pf_out_names_written 28) /\
  probed_layers Fixture.ext = 28.
Proof.
  assert (Hr : 0 <= 28 <= 2 ^ 30 - 1) by lia.
  split; [exact Hr |].
  destruct (name_tables_in_bounds 28 Hr) as [Hb Hp].
  split.
  - apply (proj2 Hb). unfold MAX_DEC_LAYERS. lia.
  - destruct (Hp unit Fixture.ext ltac:(unfold INT_MAX; cbn; lia)) as [-> _].
    reflexivity.
Defined.

(** ** The NPY loaders *)

Section NpyFacts.

Lemma byte_at_take (l : list Z) (n : nat) (i : Z) :
  0 <= i < Z.of_nat n -> byte_at (take n l) i = byte_at l i.
Proof.
  intros Hi. unfold byte_at. rewrite !nth_lookup.
  rewrite lookup_take_lt by lia. reflexivity.
Qed.

Lemma byte_at_drop (l : list Z) (k : nat) (i : Z) :
  0 <= i -> byte_at (drop k l) i = byte_at l (Z.of_nat k + i).
Proof.
  intros Hi. unfold byte_at. rewrite !nth_lookup, lookup_drop.
  replace (Z.to_nat (Z.of_nat k + i)) with (k + Z.to_nat i)%nat by lia.
  reflexivity.
Qed.

Lemma has_magic_take (l : list Z) (n : nat) :
  (6 <= n)%nat -> has_magic (take n l) = has_magic l.
Proof.
  intros Hn. unfold has_magic. rewrite take_take.
  replace (6 `min` n)%nat with 6%nat by lia. reflexivity.
Qed.

Lemma fread_ok file pos size n :
  0 <= pos -> 0 <= size * n ->
  pos + size * n <= Z.of_nat (length file) ->
  fread file pos size n =
    Some (take (Z.to_nat (size * n)) (drop (Z.to_nat pos) file)).
Proof.
  intros Hp Hs Hle. unfold fread.
  destruct (Z.leb_spec (pos + size * n) (Z.of_nat (length file))); [reflexivity | lia].
Qed.

Lemma fread_short file pos size n :
  Z.of_nat (length file) < pos + size * n -> fread file pos size n = None.
Proof.
  intros Hlt. unfold fread.
  destruct (Z.leb_spec (pos + size * n) (Z.of_nat (length file))); [lia | reflexivity].
Qed.

Lemma fread_length file pos size n bytes :
  0 <= pos -> 0 <= size * n ->
  fread file pos size n = Some bytes ->
  Z.of_nat (length bytes) = size * n.
Proof.
  intros Hp Hs. unfold fread.
  destruct (Z.leb_spec (pos + size * n) (Z.of_nat (length file))); [| discriminate].
  intros [= <-]. rewrite length_take, length_drop. lia.
Qed.

Lemma cells16_take (n : nat) :
  forall l, cells16 (take (2 * n) l) = take n (cells16 l).
Proof.
  induction n as [| n IH]; intros l; [reflexivity |].
  replace (2 * S n)%nat with (S (S (2 * n))) by lia.
  destruct l as [| b0 [| b1 rest]]; [reflexivity | reflexivity |].
  cbn [take cells16]. rewrite IH. reflexivity.
Qed.

Lemma length_cells16 (n : nat) :
  forall l, length l = (2 * n)%nat -> length (cells16 l) = n.
Proof.
  induction n as [| n IH]; intros l Hl.
  - destruct l; [reflexivity | discriminate].
  - destruct l as [| b0 [| b1 rest]]; cbn in Hl; try lia.
    cbn [cells16 length]. rewrite IH; [reflexivity | lia].
Qed.

Lemma length_cells32 (n : nat) :
  forall l, length l = (4 * n)%nat -> length (cells32 l) = n.
Proof.
  induction n as [| n IH]; intros l Hl.
  - destruct l; [reflexivity | discriminate].
  - destruct l as [| b0 [| b1 [| b2 [| b3 rest]]]]; cbn in Hl; try lia.
    cbn [cells32 length]. rewrite IH; [reflexivity | lia].
Qed.

Lemma lor_lt_pow2 a b n :
  0 <= n -> 0 <= a < 2 ^ n -> 0 <= b < 2 ^ n -> Z.lor a b < 2 ^ n.
Proof.
  intros Hn Ha Hb.
  assert (Hnn : 0 <= Z.lor a b) by (apply Z.lor_nonneg; lia).
  destruct (Z.eq_dec (Z.lor a b) 0) as [-> | Hnz]; [lia |].
  apply Z.log2_lt_pow2; [lia |].
  rewrite Z.log2_lor by lia.
  assert (Hlog : forall x, 0 <= x < 2 ^ n -> 0 < n -> Z.log2 x < n).
  { intros x Hx Hpos. destruct (Z.eq_dec x 0) as [-> | Hx0]; [cbn; lia |].
    apply Z.log2_lt_pow2; lia. }
  assert (0 < n).
  { destruct (Z.eq_dec n 0) as [-> | ?]; [| lia].
    change (2 ^ 0) with 1 in *.
    assert (a = 0) by lia. assert (b = 0) by lia. subst. contradiction. }
  apply Z.max_lub_lt; apply Hlog; assumption.
Qed.

Lemma hdr_len_v1_range h8 h9 : 0 <= hdr_len_v1 h8 h9 < 2 ^ 32.
Proof.
  unfold hdr_len_v1, u32, wrap.
  pose proof (Z.mod_pos_bound h8 (2 ^ 32) ltac:(lia)) as H1.
  pose proof (Z.mod_pos_bound (Z.shiftl (h9 mod 2 ^ 32) 8) (2 ^ 32) ltac:(lia)) as H2.
  split; [apply Z.lor_nonneg; lia |].
  apply (lor_lt_pow2 _ _ 32); lia.
Qed.

Lemma hdr_len_v2_range h8 h9 e0 e1 : 0 <= hdr_len_v2 h8 h9 e0 e1 < 2 ^ 32.
Proof.
  unfold hdr_len_v2, u32, wrap.
  pose proof (Z.mod_pos_bound h8 (2 ^ 32) ltac:(lia)) as H1.
  pose proof (Z.mod_pos_bound (Z.shiftl (h9 mod 2 ^ 32) 8) (2 ^ 32) ltac:(lia)) as H2.
  pose proof (Z.mod_pos_bound (Z.shiftl (e0 mod 2 ^ 32) 16) (2 ^ 32) ltac:(lia)) as H3.
  pose proof (Z.mod_pos_bound (Z.shiftl (e1 mod 2 ^ 32) 24) (2 ^ 32) ltac:(lia)) as H4.
  assert (H12 : 0 <= Z.lor (h8 mod 2 ^ 32) (Z.shiftl (h9 mod 2 ^ 32) 8 mod 2 ^ 32)
                < 2 ^ 32).
  { split; [apply Z.lor_nonneg; lia | apply (lor_lt_pow2 _ _ 32); lia]. }
  assert (H123 : 0 <= Z.lor (Z.lor (h8 mod 2 ^ 32)
                               (Z.shiftl (h9 mod 2 ^ 32) 8 mod 2 ^ 32))
                            (Z.shiftl (e0 mod 2 ^ 32) 16 mod 2 ^ 32) < 2 ^ 32).
  { split; [apply Z.lor_nonneg; lia | apply (lor_lt_pow2 _ _ 32); lia]. }
  split; [apply Z.lor_nonneg; lia | apply (lor_lt_pow2 _ _ 32); lia].
Qed.

End NpyFacts.

Section NpyHeader.

Lemma npy_hdr_len_range file : 0 <= npy_hdr_len file < 2 ^ 32.
Proof.
  unfold npy_hdr_len.
  destruct (byte_at file 6 =? 1);
    [apply hdr_len_v1_range | apply hdr_len_v2_range].
Qed.

Lemma npy_hdr_pos_range file : 10 <= npy_hdr_pos file <= 12.
Proof. unfold npy_hdr_pos. destruct (byte_at file 6 =? 1); lia. Qed.

(** The start of the copying loaders, when the header is inside the file
    and when it is not. *)
Lemma read_npy_header_inside file :
  npy_data_offset file <= Z.of_nat (length file) ->
  read_npy_header file =
    if has_magic file then Some (npy_hdr_str file, npy_data_offset file)
    else None.
Proof.
  intros Hin.
  pose proof (npy_hdr_len_range file) as Hlen.
  pose proof (npy_hdr_pos_range file) as Hpos.
  unfold npy_data_offset in Hin.
  unfold read_npy_header.
  rewrite (fread_ok file 0 1 10) by lia.
  change (Z.to_nat 0) with 0%nat. change (Z.to_nat (1 * 10)) with 10%nat.
  rewrite drop_0, has_magic_take by lia.
  destruct (has_magic file); [| reflexivity]. cbn [negb].
  rewrite !byte_at_take by lia.
  unfold npy_hdr_str, npy_data_offset, npy_hdr_len, npy_hdr_pos in *.
  destruct (byte_at file 6 =? 1).
  - rewrite fread_ok by lia. rewrite Z.mul_1_l. reflexivity.
  - rewrite (fread_ok file 10 1 2) by lia.
    change (Z.to_nat (1 * 2)) with 2%nat.
    rewrite !byte_at_take, !byte_at_drop by lia.
    change (Z.of_nat (Z.to_nat 10) + 0) with 10.
    change (Z.of_nat (Z.to_nat 10) + 1) with 11.
    rewrite fread_ok by lia. rewrite Z.mul_1_l. reflexivity.
Qed.

Lemma read_npy_header_outside file :
  Z.of_nat (length file) < npy_data_offset file ->
  read_npy_header file = None.
Proof.
  intros Hout.
  pose proof (npy_hdr_len_range file) as Hlen.
  unfold read_npy_header, npy_data_offset, npy_hdr_len, npy_hdr_pos in *.
  destruct (Z.leb_spec 10 (Z.of_nat (length file))) as [H10 | H10];
    [| rewrite fread_short by lia; reflexivity].
  rewrite (fread_ok file 0 1 10) by lia.
  change (Z.to_nat 0) with 0%nat. change (Z.to_nat (1 * 10)) with 10%nat.
  rewrite drop_0.
  destruct (has_magic (take 10 file)); [| reflexivity]. cbn [negb].
  rewrite !byte_at_take by lia.
  destruct (byte_at file 6 =? 1).
  - rewrite fread_short by lia. reflexivity.
  - destruct (Z.leb_spec 12 (Z.of_nat (length file))) as [H12 | H12];
      [| rewrite fread_short by lia; reflexivity].
    rewrite (fread_ok file 10 1 2) by lia.
    change (Z.to_nat (1 * 2)) with 2%nat.
    rewrite !byte_at_take, !byte_at_drop by lia.
    change (Z.of_nat (Z.to_nat 10) + 0) with 10.
    change (Z.of_nat (Z.to_nat 10) + 1) with 11.
    rewrite fread_short by lia. reflexivity.
Qed.

(** What [read_npy_header] returns is what the file's first bytes say. *)
Lemma read_npy_header_some file hdr_str pos :
  read_npy_header file = Some (hdr_str, pos) ->
  has_magic file = true /\
  hdr_str = npy_hdr_str file /\
  pos = npy_data_offset file /\
  npy_data_offset file <= Z.of_nat (length file).
Proof.
  intros H.
  destruct (Z.leb_spec (npy_data_offset file) (Z.of_nat (length file)))
    as [Hin | Hout].
  - rewrite read_npy_header_inside in H by exact Hin.
    destruct (has_magic file); [| discriminate].
    injection H as <- <-. repeat split. exact Hin.
  - rewrite read_npy_header_outside in H by exact Hout. discriminate.
Qed.

Variable sscanf_d_d : list Z -> Z * Z.

Lemma int32_range x : - 2 ^ 31 <= int32 x <= INT_MAX.
Proof.
  unfold int32, wrap, INT_MAX.
  pose proof (Z.mod_pos_bound x (2 ^ 32) ltac:(lia)).
  destruct (Z.ltb_spec (x mod 2 ^ 32) (2 ^ 31)); lia.
Qed.

Lemma parse_shape_range hdr_str r c :
  parse_shape sscanf_d_d hdr_str = Some (r, c) ->
  0 < r <= INT_MAX /\ 0 < c <= INT_MAX.
Proof.
  unfold parse_shape.
  destruct (strstr hdr_str STR_SHAPE) as [sp |]; [| discriminate].
  destruct (strchr sp CHAR_LPAREN) as [lp |]; [| discriminate].
  destruct (sscanf_d_d (tail lp)) as [r0 c0].
  pose proof (int32_range r0). pose proof (int32_range c0).
  destruct (Z.leb_spec (int32 r0) 0); [discriminate |].
  destruct (Z.leb_spec (int32 c0) 0); [discriminate |].
  cbn [orb]. intros [= <- <-]. lia.
Qed.

Lemma n_elements_small r c :
  0 < r <= INT_MAX -> 0 < c <= INT_MAX -> u64 (u64 r * u64 c) = r * c.
Proof.
  unfold INT_MAX. intros Hr Hc.
  rewrite (u64_small r), (u64_small c) by lia.
  apply u64_small. nia.
Qed.

End NpyHeader.

(** X18. The two copying loaders accept the same files and report the
    same shape.  A file accepted starts with the NPY magic, has its header
    inside the file, and has both dimensions positive; each loader returns
    exactly rows times columns cells.  On a file whose header names the
    dtype ['<f2'] the floats of [load_npy] are the cells of
    [load_npy_fp16] converted by [fp16_to_f32]; on any other file the
    cells of [load_npy_fp16] are the floats of [load_npy] converted by the
    truncating path. *)
Theorem npy_copy_loaders_agree (sscanf_d_d : list Z -> Z * Z) (file : list Z) :
  Z.of_nat (length file) < 2 ^ 32 ->
  match load_npy sscanf_d_d file, load_npy_fp16 sscanf_d_d file with
  | Some (r, c, d32), Some (r', c', d16) =>
      r' = r /\ c' = c /\ 0 < r /\ 0 < c /\
      Z.of_nat (length d32) = r * c /\ Z.of_nat (length d16) = r * c /\
      has_magic file = true /\
      npy_data_offset file <= Z.of_nat (length file) /\
      if is_fp16_hdr (npy_hdr_str file)
      then d32 = fp16_to_f32 <$> d16
      else d16 = f32_to_fp16 <$> d32
  | None, None => True
  | _, _ => False
  end.
Proof.
  intros _. unfold load_npy, load_npy_fp16.
  destruct (read_npy_header file) as [[hdr_str pos] |] eqn:Hhdr; [| exact I].
  destruct (read_npy_header_some file hdr_str pos Hhdr) as (Hm & -> & -> & Hin).
  destruct (parse_shape sscanf_d_d (npy_hdr_str file)) as [[r c] |] eqn:Hshape;
    [| exact I].
  destruct (parse_shape_range sscanf_d_d _ r c Hshape) as [Hr Hc].
  rewrite (n_elements_small r c Hr Hc).
  pose proof (npy_hdr_len_range file) as Hlen.
  pose proof (npy_hdr_pos_range file) as Hpos.
  assert (Hoff : 0 <= npy_data_offset file) by (unfold npy_data_offset; lia).
  cbv zeta.
  destruct (is_fp16_hdr (npy_hdr_str file)).
  - destruct (fread file (npy_data_offset file) 2 (r * c)) as [buf |] eqn:Hrd;
      [| exact I].
    assert (Hnn : 0 <= 2 * (r * c)) by nia.
    pose proof (fread_length file _ 2 (r * c) buf Hoff Hnn Hrd) as Hl.
    assert (Hcells : length (cells16 buf) = Z.to_nat (r * c)).
    { apply length_cells16. lia. }
    rewrite length_fmap, Hcells.
    repeat split; try lia; assumption.
  - destruct (fread file (npy_data_offset file) 4 (r * c)) as [buf |] eqn:Hrd;
      [| exact I].
    assert (Hnn : 0 <= 4 * (r * c)) by nia.
    pose proof (fread_length file _ 4 (r * c) buf Hoff Hnn Hrd) as Hl.
    assert (Hcells : length (cells32 buf) = Z.to_nat (r * c)).
    { apply length_cells32. lia. }
    rewrite length_fmap, Hcells.
    repeat split; try lia; assumption.
Qed.

Lemma npy_copy_loaders_agree_witness :
  Z.of_nat (length FixtureNpy.file) < 2 ^ 32 /\
  load_npy_fp16 Libc.sscanf_d_d FixtureNpy.file =
    Some (2, 2, [15360; 16384; 0; 48128]) /\
  match load_npy Libc.sscanf_d_d FixtureNpy.file with
  | Some (r, c, d32) => d32 = fp16_to_f32 <$> [15360; 16384; 0; 48128]
  | None => False
  end.
Proof.
  assert (Hlen : Z.of_nat (length FixtureNpy.file) < 2 ^ 32)
    by (vm_compute; reflexivity).
  assert (H16 : load_npy_fp16 Libc.sscanf_d_d FixtureNpy.file =
                Some (2, 2, [15360; 16384; 0; 48128]))
    by (vm_compute; reflexivity).
  assert (Hfp : is_fp16_hdr (npy_hdr_str FixtureNpy.file) = true)
    by (vm_compute; reflexivity).
  split; [exact Hlen |]. split; [exact H16 |].
  pose proof (npy_copy_loaders_agree Libc.sscanf_d_d FixtureNpy.file Hlen) as H.
  rewrite H16, Hfp in H.
  destruct (load_npy Libc.sscanf_d_d FixtureNpy.file) as [[[r c] d32] |];
    [| exact H].
  destruct H as (_ & _ & _ & _ & _ & _ & _ & _ & Hd). exact Hd.
Defined.

(** X19. [mmap_npy_fp16] against the copying loaders, on a file whose
    header lies inside the mapping.  A file it accepts has the dtype
    ['<f2'] and positive dimensions, and the pointer it returns is at the
    end of the header.  The length of the data is not looked at: when the
    file holds at least rows times columns cells after the header, the
    copying loaders accept it too, with the same shape, and return those
    cells (converted to [float] by [load_npy]); when it holds fewer, they
    refuse the file that [mmap_npy_fp16] accepted. *)
Theorem mmap_npy_fp16_agrees (sscanf_d_d : list Z -> Z * Z) (file : list Z)
    (r c off : Z) :
  Z.of_nat (length file) < 2 ^ 32 ->
  mmap_npy_fp16 sscanf_d_d file = Some (r, c, off) ->
  npy_data_offset file <= Z.of_nat (length file) ->
  off = npy_data_offset file /\
  is_fp16_hdr (npy_hdr_str file) = true /\
  0 < r <= INT_MAX /\ 0 < c <= INT_MAX /\
  load_npy_fp16 sscanf_d_d file =
    (if off + 2 * (r * c) <=? Z.of_nat (length file)
     then Some (r, c, take (Z.to_nat (r * c)) (mapped_cells file off))
     else None) /\
  load_npy sscanf_d_d file =
    (if off + 2 * (r * c) <=? Z.of_nat (length file)
     then Some (r, c, fp16_to_f32 <$> take (Z.to_nat (r * c)) (mapped_cells file off))
     else None).
Proof.
  intros Hsmall Hmap Hin.
  pose proof (npy_hdr_len_range file) as Hlen.
  pose proof (npy_hdr_pos_range file) as Hpos.
  unfold mmap_npy_fp16 in Hmap.
  destruct (has_magic file) eqn:Hm; [| discriminate]. cbn [negb] in Hmap.
  assert (Hstr :
    (let '(hdr_len, data_offset) :=
       if byte_at file 6 =? 1
       then (hdr_len_v1 (byte_at file 8) (byte_at file 9),
             u64 (u32 (10 + hdr_len_v1 (byte_at file 8) (byte_at file 9))))
       else (hdr_len_v2 (byte_at file 8) (byte_at file 9)
               (byte_at file 10) (byte_at file 11),
             u64 (u32 (12 + hdr_len_v2 (byte_at file 8) (byte_at file 9)
                              (byte_at file 10) (byte_at file 11)))) in
     (c_str (take (Z.to_nat hdr_len)
               (drop (Z.to_nat (u64 (data_offset - hdr_len))) file)),
      data_offset)) = (npy_hdr_str file, npy_data_offset file)).
  { unfold npy_hdr_str, npy_data_offset, npy_hdr_len, npy_hdr_pos in *.
    destruct (byte_at file 6 =? 1).
    - rewrite (u32_small (10 + _)) by lia.
      rewrite (u64_small (10 + _)) by lia.
      replace (10 + hdr_len_v1 (byte_at file 8) (byte_at file 9)
               - hdr_len_v1 (byte_at file 8) (byte_at file 9)) with 10 by lia.
      reflexivity.
    - rewrite (u32_small (12 + _)) by lia.
      rewrite (u64_small (12 + _)) by lia.
      replace (12 + hdr_len_v2 (byte_at file 8) (byte_at file 9)
                      (byte_at file 10) (byte_at file 11)
               - hdr_len_v2 (byte_at file 8) (byte_at file 9)
                   (byte_at file 10) (byte_at file 11)) with 12 by lia.
      reflexivity. }
  cbv zeta in Hmap.
  destruct (if byte_at file 6 =? 1 then _ else _) as [hdr_len data_offset].
  injection Hstr as Hs Ho. rewrite Hs in Hmap.
  destruct (is_fp16_hdr (npy_hdr_str file)) eqn:Hfp; [| discriminate].
  cbn [negb] in Hmap.
  destruct (parse_shape sscanf_d_d (npy_hdr_str file)) as [[r' c'] |] eqn:Hshape;
    [| discriminate].
  injection Hmap as -> -> <-.
  destruct (parse_shape_range sscanf_d_d _ r c Hshape) as [Hr Hc].
  split; [exact Ho |]. split; [reflexivity |].
  split; [exact Hr |]. split; [exact Hc |].
  unfold load_npy_fp16, load_npy.
  rewrite read_npy_header_inside, Hm by exact Hin.
  rewrite Hfp, Hshape, (n_elements_small r c Hr Hc).
  cbv zeta. rewrite Ho.
  assert (Hoff : 0 <= npy_data_offset file) by (unfold npy_data_offset; lia).
  unfold fread, mapped_cells.
  destruct (Z.leb_spec (npy_data_offset file + 2 * (r * c))
              (Z.of_nat (length file))); [| split; reflexivity].
  replace (Z.to_nat (2 * (r * c))) with (2 * Z.to_nat (r * c))%nat by lia.
  rewrite cells16_take. split; reflexivity.
Qed.

Lemma mmap_npy_fp16_agrees_witness :
  mmap_npy_fp16 Libc.sscanf_d_d FixtureNpy.file = Some (2, 2, 46) /\
  load_npy Libc.sscanf_d_d FixtureNpy.file =
    Some (2, 2, [1065353216; 1073741824; 0; 3212836864]).
Proof.
  assert (H : mmap_npy_fp16 Libc.sscanf_d_d FixtureNpy.file = Some (2, 2, 46))
    by (vm_compute; reflexivity).
  split; [exact H |].
  pose proof (mmap_npy_fp16_agrees Libc.sscanf_d_d FixtureNpy.file 2 2 46
                ltac:(vm_compute; reflexivity) H
                ltac:(vm_compute; discriminate))
    as (_ & _ & _ & _ & _ & Hload).
  rewrite Hload. vm_compute. reflexivity.
Defined.

(** ** The model at work *)

(** [1.0] and the smallest subnormal, from binary16 to binary32. *)
Example fp16_to_f32_one : fp16_to_f32 15360 = 1065353216.
Proof. reflexivity. Qed.

Example fp16_to_f32_min_subnormal : fp16_to_f32 1 = 864026624.
Proof. reflexivity. Qed.

(** Scenario S5: 317 frames are padded to 400, and 200 audio rows give a
    prompt of 215 rows. *)
Example padded_frames_317 : padded_frames 317 = 400 /\ prompt_len 200 = 215.
Proof. split; reflexivity. Qed.

(** With [<asr_text>] the header before it is dropped; without it the
    tokens from 151643 up are dropped, also in the middle of the stream. *)
Example detokenize_hello :
  detokenize Fixture.ext Fixture.stream = list_ascii_of_string "Hello world".
Proof. reflexivity. Qed.

Example detokenize_no_asr_text :
  detokenize Fixture.ext [9707; 151644; 1879; 198; 151643; 151645]
  = list_ascii_of_string "Hello world".
Proof. reflexivity. Qed.

(** A call on the fixture: the encoder, then the prefill after one failed
    attempt at the first optimisation level, then decode for the 1023 steps
    of a model that never answers EOS. *)
Example transcribe_fixture :
  let res := qwen_onnx_transcribe Fixture.ext (Some Fixture.ctx) (Some [0]) 1
               Fixture.statics0 in
  fst (fst res) = Some [] /\
  last_n_tokens (snd res) = 1024 /\
  option_map loaded (snd (fst res)) = Some none_loaded /\
  take 8 (trace (snd res)) =
    [(EvCreateSession Encoder ORT_DISABLE_ALL true, none_loaded);
     (EvRun Encoder, only Encoder);
     (EvReleaseSession Encoder, only Encoder);
     (EvCreateSession Prefill ORT_ENABLE_BASIC false, none_loaded);
     (EvCreateSession Prefill ORT_DISABLE_ALL true, none_loaded);
     (EvRun Prefill, only Prefill);
     (EvReleaseSession Prefill, only Prefill);
     (EvCreateSession Decode ORT_ENABLE_BASIC true, none_loaded)] /\
  drop 1030 (trace (snd res)) =
    [(EvRunDecode 1022 1, only Decode); (EvReleaseSession Decode, only Decode)].
Proof. vm_compute. repeat split; reflexivity. Qed.
